(** * pdf2audiobook: the checkpointed streaming pipeline, embedded in Rocq

    A shallow embedding of the resumable pipeline engine of pdf2audiobook:
    [checkpoint.py] (per-chapter stage flags, persisted as JSON),
    [synth/synthesizer.py] and [synth/stitcher.py] (chunk synthesis and
    stitching), [streaming.py] (the per-chapter scheduler) and [summary.py]
    (front insertion of the executive summary).

    Conventions of the embedding.
    - Python [int] is [Z]; [str(i)] is stdpp's [pretty]; [f"{i:03d}"] is
      [format_0d 3 i].
    - A [pathlib.Path] is the list of its parts; [p / s] appends one part.
    - The file system is a function from paths to contents.  Reading a
      missing file raises; writing always succeeds (disk failures are not
      modelled).
    - Methods that mutate objects or the disk are written in a state and
      exception monad [M] over [State].
    - External collaborators (the hash function, the language model, the
      TTS engines, the audio library, the order in which futures complete)
      are fields of the record [Collaborators]; every theorem holds for all
      of them.
    - Progress output and the [on_event] callback are recorded in a log. *)

From Stdlib Require Import ZArith Lia List Ascii String.
From Stdlib.Strings Require Import Byte.
From stdpp Require Import base option list strings pretty gmap.

Open Scope string_scope.
Open Scope list_scope.

(* ================================================================== *)
(** * Part I: the model *)
(* ================================================================== *)

(** ** Python values, exceptions, string formatting *)
Module py.

(** An exception: its class name and [str(e)].  Every exception of the
    model is an instance of [Exception]. *)
Inductive exn : Type := Exception (cls : string) (msg : string).

Definition exn_str (e : exn) : string := let 'Exception _ m := e in m.
Definition exn_cls (e : exn) : string := let 'Exception c _ := e in c.

Inductive result (A : Type) : Type :=
| Ok (a : A)
| Raised (e : exn).
Arguments Ok {A} a.
Arguments Raised {A} e.


(** [str(i)] for an [int]. *)
Definition str (i : Z) : string := pretty i.

Fixpoint zeros (n : nat) : string :=
  match n with
  | O => ""
  | S n' => String "0" (zeros n')
  end.

(** [format(i, "0{w}d")]: decimal digits, zero-padded to width [w]; the
    sign, when there is one, counts in the width. *)
Definition format_0d (w : nat) (i : Z) : string :=
  let digits := pretty (Z.abs i) in
  if (i <? 0)%Z
  then "-" +:+ zeros (w - 1 - String.length digits) +:+ digits
  else zeros (w - String.length digits) +:+ digits.

(** [str.isspace] on the ASCII range: tab to carriage return, the four
    separators 0x1c-0x1f, and the space. *)
Definition isspace (c : ascii) : bool :=
  let n := nat_of_ascii c in
  (Nat.leb 9 n && Nat.leb n 13) || (Nat.leb 28 n && Nat.leb n 32).

Fixpoint lstrip (s : string) : string :=
  match s with
  | "" => ""
  | String c s' => if isspace c then lstrip s' else s
  end.

Fixpoint rev_string (acc s : string) : string :=
  match s with
  | "" => acc
  | String c s' => rev_string (String c acc) s'
  end.

Definition rstrip (s : string) : string :=
  rev_string "" (lstrip (rev_string "" s)).

(** [s.strip()] *)
Definition strip (s : string) : string := rstrip (lstrip s).

(** Truth value of a [str]: the empty string is false. *)
Definition str_truthy (s : string) : bool :=
  match s with "" => false | _ => true end.

(** [sep.join(parts)] *)
Fixpoint join (sep : string) (parts : list string) : string :=
  match parts with
  | [] => ""
  | [x] => x
  | x :: rest => x +:+ sep +:+ join sep rest
  end.

(** Values an attribute lookup on a status object can return. *)
Inductive pyval : Type :=
| PyBool (b : bool)
| PyNone
| PyObject (repr : string).

Definition truthy (v : pyval) : bool :=
  match v with
  | PyBool b => b
  | PyNone => false
  | PyObject _ => true
  end.


End py.
Export py.

(** ** Paths, documents and the file system *)
Module fsys.

Definition Path : Type := list string.

(** [p / s] *)
Definition path_div (p : Path) (s : string) : Path := p ++ [s].
Notation "p // s" := (path_div p s) (at level 40, left associativity).

(** [p.parent] *)
Definition parent (p : Path) : Path := removelast p.

(** [str(p)] *)
Definition path_str (p : Path) : string := join "/" p.


(** [models.py]: Section *)
Record PySection : Type := {
  type : string;
  content : string;
  level : Z;
  page : Z;
}.

(** [models.py]: Chapter *)
Record Chapter : Type := {
  index : Z;
  title : string;
  sections : list PySection;
  start_page : Z;
  end_page : Z;
}.

(** [models.py]: ChunkMeta *)
Record ChunkMeta : Type := {
  text : string;
  chapter_index : Z;
  paragraph_index : Z;
  sentence_index : Z;
  is_paragraph_end : bool;
  is_chapter_end : bool;
}.

(** [models.py]: ChapterChunks *)
Record ChapterChunks : Type := {
  chunks_chapter_index : Z;
  chapter_title : string;
  chunks : list ChunkMeta;
}.

(** The JSON document [Checkpoint.save] writes: the dictionary [data].
    A key may be missing from a document ([None]), as [dict.get] allows;
    ["chapters"] maps a key to the dictionary [asdict] made of a status. *)
Record CheckpointDoc : Type := {
  doc_pdf_path : option string;
  doc_pdf_hash : option string;
  doc_parser_used : option string;
  doc_total_chapters : option Z;
  doc_chapters : option (gmap string (gmap string bool));
}.

(** A JSON object that carries none of the checkpoint's keys. *)
Definition no_checkpoint_keys : CheckpointDoc :=
  {| doc_pdf_path := None; doc_pdf_hash := None; doc_parser_used := None;
     doc_total_chapters := None; doc_chapters := None |}.

(** What a path holds.  [Raw] is a file that is not text the engine wrote
    (the source PDF, audio); the JSON constructors are files holding
    [json.dumps] of that document. *)
Inductive Content : Type :=
| Dir
| Raw (bytes : list byte)
| Text (s : string)
| CheckpointJson (d : CheckpointDoc)
| ChunksJson (c : ChapterChunks)
| ChapterJson (c : Chapter).

Definition FS : Type := Path -> option Content.

Definition empty_fs : FS := fun _ => None.

(** [p.exists()] *)
Definition path_exists (p : Path) (d : FS) : bool :=
  match d p with Some _ => true | None => false end.

(** [p.write_text(...)] and other whole-file writes. *)
Definition write (p : Path) (c : Content) (d : FS) : FS :=
  fun q => if decide (q = p) then Some c else d q.

(** [p.mkdir(parents=True, exist_ok=True)]: [p] and its ancestors become
    directories where nothing is there yet. *)
Definition mkdir_parents (p : Path) (d : FS) : FS :=
  fun q =>
    match d q with
    | Some c => Some c
    | None => if bool_decide (q `prefix_of` p) then Some Dir else None
    end.


End fsys.
Export fsys.

(** ** config.py: the settings the engine reads *)
Module config.

Record SynthConfig : Type := {
  tts_engine : string;
  voice : string;
  output_format : string;
  parallel_workers : Z;
}.

Record ApiKeys : Type := {
  openai : string;
  anthropic : string;
  elevenlabs : string;
}.

Record Config : Type := {
  synth : SynthConfig;
  api_keys : ApiKeys;
}.

End config.
Export config.

(** ** External collaborators *)
Module collab.

(** [synth/base.py]: the abstract class [TTSEngine].  [synthesize] writes
    audio for [text] at the given path, or raises; either way it may have
    touched the disk. *)
Record TTSEngine : Type := {
  name : string;
  synthesize : string -> Path -> FS -> result Path * FS;
}.

(** What the engine calls but does not implement: library functions, the
    stage workers that talk to a language model or to spaCy, the audio
    tool chain, and the order in which a pool's futures complete. *)
Record Collaborators : Type := {
  (** [hashlib.sha256(data).hexdigest()] *)
  sha256_hexdigest : list byte -> string;
  (** the bytes of a text or JSON file, for a binary read of it *)
  encode : Content -> list byte;
  (** [clean/cleaner.py]: [clean_one_chapter(chapter, output_dir, ...)] *)
  clean_one_chapter : Chapter -> Path -> FS -> result Path * FS;
  (** [chunk/chunker.py]:
      [chunk_one_chapter(ch_idx, cleaned_path, output_dir, title, ...)] *)
  chunk_one_chapter : Z -> Path -> Path -> string -> FS -> result Path * FS;
  (** the four engine classes, by constructor arguments *)
  KokoroTTS : string -> TTSEngine;
  OpenAITTS : string -> string -> TTSEngine;
  ElevenLabsTTS : string -> string -> TTSEngine;
  ChatterboxTTS : string -> TTSEngine;
  (** [os.cpu_count()] *)
  cpu_count : option Z;
  (** pydub in [stitch_chapter]: the chunk files that exist, each with its
      metadata, concatenated with pauses, trimmed, normalised and exported;
      [None] when the combined audio has length 0 *)
  mixdown : list (Content * ChunkMeta) -> option Content;
  (** [synth/stitcher.py]: [create_m4b] (ffmpeg) *)
  create_m4b : list Path -> list string -> Path -> FS -> result Path * FS;
  (** [summary.py]: [_generate_summary_text] (language model or fallback) *)
  _generate_summary_text : list Chapter -> string;
  (** [concurrent.futures.as_completed]: the order in which the submitted
      futures complete *)
  as_completed : forall A : Type, list A -> list A;
}.

(** Every future completes exactly once. *)
Definition fair (C : Collaborators) : Prop :=
  forall (A : Type) (l : list A), as_completed C A l ≡ₚ l.

End collab.
Export collab.

(** ** checkpoint.py *)
Module checkpoint.

Definition STAGES : list string := ["parsed"; "cleaned"; "chunked"; "synthesized"].

(** The dataclass [ChapterStatus].  Besides its four fields an instance
    carries the attributes [setattr] added to it ([extra_attrs]; [mark]
    only ever stores [True]). *)
Record ChapterStatus : Type := {
  parsed : bool;
  cleaned : bool;
  chunked : bool;
  synthesized : bool;
  extra_attrs : gset string;
}.

(** [ChapterStatus()] *)
Definition ChapterStatus_new : ChapterStatus :=
  {| parsed := false; cleaned := false; chunked := false;
     synthesized := false; extra_attrs := ∅ |}.

(** Attributes an instance finds on its class: those of [object] and those
    the [dataclass] decorator generates.  [__hash__] is [None] for a
    dataclass with [eq=True] that is not frozen. *)
Definition inherited_names : list string :=
  ["__class__"; "__dict__"; "__doc__"; "__module__"; "__weakref__";
   "__init__"; "__repr__"; "__eq__"; "__ne__"; "__lt__"; "__le__"; "__gt__";
   "__ge__"; "__str__"; "__new__"; "__format__"; "__sizeof__"; "__dir__";
   "__reduce__"; "__reduce_ex__"; "__getattribute__"; "__setattr__";
   "__delattr__"; "__init_subclass__"; "__subclasshook__";
   "__annotations__"; "__dataclass_fields__"; "__dataclass_params__"].

Definition class_attr (name : string) : option pyval :=
  if decide (name = "__hash__") then Some PyNone
  else if bool_decide (name ∈ inherited_names) then Some (PyObject name)
  else None.

(** Attributes of the class that cannot be assigned on an instance. *)
Definition read_only_names : list string :=
  ["__class__"; "__dict__"; "__weakref__"].

(** [getattr(status, name, default)] *)
Definition getattr (st : ChapterStatus) (name : string) (default : pyval) : pyval :=
  if decide (name = "parsed") then PyBool (parsed st)
  else if decide (name = "cleaned") then PyBool (cleaned st)
  else if decide (name = "chunked") then PyBool (chunked st)
  else if decide (name = "synthesized") then PyBool (synthesized st)
  else if bool_decide (name ∈ extra_attrs st) then PyBool true
  else match class_attr name with
       | Some v => v
       | None => default
       end.

(** [setattr(status, name, True)] *)
Definition setattr_True (st : ChapterStatus) (name : string) : result ChapterStatus :=
  if decide (name = "parsed") then
    Ok {| parsed := true; cleaned := cleaned st; chunked := chunked st;
          synthesized := synthesized st; extra_attrs := extra_attrs st |}
  else if decide (name = "cleaned") then
    Ok {| parsed := parsed st; cleaned := true; chunked := chunked st;
          synthesized := synthesized st; extra_attrs := extra_attrs st |}
  else if decide (name = "chunked") then
    Ok {| parsed := parsed st; cleaned := cleaned st; chunked := true;
          synthesized := synthesized st; extra_attrs := extra_attrs st |}
  else if decide (name = "synthesized") then
    Ok {| parsed := parsed st; cleaned := cleaned st; chunked := chunked st;
          synthesized := true; extra_attrs := extra_attrs st |}
  else if bool_decide (name ∈ read_only_names) then
    Raised (Exception "TypeError" ("cannot set " +:+ name))
  else
    Ok {| parsed := parsed st; cleaned := cleaned st; chunked := chunked st;
          synthesized := synthesized st;
          extra_attrs := {[ name ]} ∪ extra_attrs st |}.

(** [dataclasses.asdict(status)]: the declared fields only. *)
Definition asdict (st : ChapterStatus) : gmap string bool :=
  <[ "parsed" := parsed st ]>
    (<[ "cleaned" := cleaned st ]>
       (<[ "chunked" := chunked st ]>
          (<[ "synthesized" := synthesized st ]> ∅))).

(** [ChapterStatus] called with the dictionary [v] as keyword arguments,
    when its keys are all fields; a missing key takes the field's default. *)
Definition ChapterStatus_of_kwargs (v : gmap string bool) : ChapterStatus :=
  {| parsed := default false (v !! "parsed");
     cleaned := default false (v !! "cleaned");
     chunked := default false (v !! "chunked");
     synthesized := default false (v !! "synthesized");
     extra_attrs := ∅ |}.

(** The keyword dictionaries the constructor of [ChapterStatus] accepts. *)
Definition kwargs_ok (v : gmap string bool) : Prop :=
  dom v ⊆ list_to_set STAGES.

(** The dataclass [Checkpoint].  [_lock] has no counterpart here: the
    methods below run one at a time. *)
Record Checkpoint : Type := {
  pdf_path : string;
  pdf_hash : string;
  parser_used : string;
  total_chapters : Z;
  chapters : gmap string ChapterStatus;
  _path : option Path;
}.

Definition with_chapters (self : Checkpoint) (m : gmap string ChapterStatus) : Checkpoint :=
  {| pdf_path := pdf_path self; pdf_hash := pdf_hash self;
     parser_used := parser_used self; total_chapters := total_chapters self;
     chapters := m; _path := _path self |}.


(** The dictionary [data] built in [save]. *)
Definition to_doc (self : Checkpoint) : CheckpointDoc :=
  {| doc_pdf_path := Some (pdf_path self);
     doc_pdf_hash := Some (pdf_hash self);
     doc_parser_used := Some (parser_used self);
     doc_total_chapters := Some (total_chapters self);
     doc_chapters := Some (asdict <$> chapters self) |}.

(** [Checkpoint.save] *)
Definition save (self : Checkpoint) (d : FS) : FS :=
  match _path self with
  | None => d
  | Some p => write p (CheckpointJson (to_doc self)) (mkdir_parents (parent p) d)
  end.

(** [Checkpoint.mark]: the entry is created before [setattr] runs, so it
    stays when [setattr] raises; [save] runs only when it did not. *)
Definition mark (self : Checkpoint) (chapter_index : Z) (stage : string) (d : FS)
  : result unit * Checkpoint * FS :=
  let key := str chapter_index in
  let st := default ChapterStatus_new (chapters self !! key) in
  match setattr_True st stage with
  | Raised e => (Raised e, with_chapters self (<[ key := st ]> (chapters self)), d)
  | Ok st' =>
      let self' := with_chapters self (<[ key := st' ]> (chapters self)) in
      (Ok tt, self', save self' d)
  end.

(** [Checkpoint.is_done] *)
Definition is_done (self : Checkpoint) (chapter_index : Z) (stage : string) : pyval :=
  let key := str chapter_index in
  match chapters self !! key with
  | None => PyBool false
  | Some st => getattr st stage (PyBool false)
  end.

(** [f.read(n)] on a list of bytes. *)
Fixpoint read_prefix (n : N) (data : list byte) : list byte :=
  match data with
  | [] => []
  | b :: rest => if (n =? 0)%N then [] else b :: read_prefix (N.pred n) rest
  end.

(** [open(path, "rb")] followed by [read(n)]. *)
Definition read_binary (C : Collaborators) (p : Path) (n : N) (d : FS) : result (list byte) :=
  match d p with
  | None => Raised (Exception "FileNotFoundError" (path_str p))
  | Some Dir => Raised (Exception "IsADirectoryError" (path_str p))
  | Some (Raw data) => Ok (read_prefix n data)
  | Some c => Ok (read_prefix n (encode C c))
  end.

(** [_hash_file]: SHA-256 of the first 1 MiB, first 16 hex digits. *)
Definition _hash_file (C : Collaborators) (p : Path) (d : FS) : result string :=
  match read_binary C p (1024 * 1024) d with
  | Raised e => Raised e
  | Ok data => Ok (substring 0 16 (sha256_hexdigest C data))
  end.

(** [json.loads(checkpoint_path.read_text())]: [Raw] and [Text] stand for
    files that are not JSON; a JSON file of another kind is an object
    without the checkpoint's keys. *)
Definition read_json (p : Path) (d : FS) : result CheckpointDoc :=
  match d p with
  | None => Raised (Exception "FileNotFoundError" (path_str p))
  | Some Dir => Raised (Exception "IsADirectoryError" (path_str p))
  | Some (Raw _) | Some (Text _) => Raised (Exception "JSONDecodeError" (path_str p))
  | Some (CheckpointJson doc) => Ok doc
  | Some (ChunksJson _) | Some (ChapterJson _) => Ok no_checkpoint_keys
  end.

(** [cls(pdf_path=str(pdf_path), pdf_hash=pdf_hash)] with [_path] set. *)
Definition fresh (checkpoint_path pdf : Path) (h : string) : Checkpoint :=
  {| pdf_path := path_str pdf; pdf_hash := h; parser_used := "";
     total_chapters := 0; chapters := ∅; _path := Some checkpoint_path |}.

(** [Checkpoint.load_or_create] *)
Definition load_or_create (C : Collaborators) (checkpoint_path pdf : Path) (d : FS)
  : result Checkpoint :=
  match _hash_file C pdf d with
  | Raised e => Raised e
  | Ok h =>
      if path_exists checkpoint_path d then
        match read_json checkpoint_path d with
        | Raised e => Raised e
        | Ok data =>
            if decide (doc_pdf_hash data = Some h) then
              let stored := default ∅ (doc_chapters data) in
              if decide (map_Forall (fun _ v => kwargs_ok v) stored) then
                Ok {| pdf_path := path_str pdf; pdf_hash := h;
                      parser_used := default "" (doc_parser_used data);
                      total_chapters := default 0%Z (doc_total_chapters data);
                      chapters := ChapterStatus_of_kwargs <$> stored;
                      _path := Some checkpoint_path |}
              else Raised (Exception "TypeError" "unexpected keyword argument")
            else Ok (fresh checkpoint_path pdf h)
        end
      else Ok (fresh checkpoint_path pdf h)
  end.

End checkpoint.
Export checkpoint.

(** ** The state the engine's effects act on *)
Module runtime.

(** What an observer of a run sees, in order. *)
Inductive Event : Type :=
| Emit (event : string) (data : list (string * string))  (* the [on_event] callback *)
| ProgressMsg (kind : string) (msg : string)             (* a method of [Progress] *)
| StageCall (fn : string) (ch_idx : Z)                   (* a stage function is entered *)
| EngineCall (text : string) (out : Path)                (* [engine.synthesize] is entered *)
| StitchCall (out : Path) (inputs : list Path).          (* [stitch_chapter] reads these files *)

(** The shared checkpoint object, the disk, and the log. *)
Record State : Type := {
  ckpt : Checkpoint;
  disk : FS;
  log : list Event;
}.

Definition M (A : Type) : Type := State -> result A * State.

Definition ret {A : Type} (a : A) : M A := fun s => (Ok a, s).

Definition bind {A B : Type} (m : M A) (k : A -> M B) : M B :=
  fun s =>
    match m s with
    | (Ok a, s') => k a s'
    | (Raised e, s') => (Raised e, s')
    end.

Definition raise {A : Type} (e : exn) : M A := fun s => (Raised e, s).

(** [try: m  except Exception as e: h e] *)
Definition try_except {A : Type} (m : M A) (h : exn -> M A) : M A :=
  fun s =>
    match m s with
    | (Ok a, s') => (Ok a, s')
    | (Raised e, s') => h e s'
    end.

Notation "x <- m ;; k" := (bind m (fun x => k))
  (at level 20, m at level 99, k at level 200, only parsing).
Notation "' pat <- m ;; k" := (bind m (fun x => let pat := x in k))
  (at level 20, pat pattern, m at level 99, k at level 200, only parsing).
Notation "m ;;; k" := (bind m (fun _ => k))
  (at level 100, k at level 200, right associativity, only parsing).

Definition emit_event (ev : Event) : M unit :=
  fun s => (Ok tt, {| ckpt := ckpt s; disk := disk s; log := log s ++ [ev] |}).

(** A pure result enters the monad. *)
Definition lift {A : Type} (r : result A) : M A := fun s => (r, s).

(** A collaborator that acts on the disk. *)
Definition on_disk {A : Type} (f : FS -> result A * FS) : M A :=
  fun s =>
    let '(r, d') := f (disk s) in
    (r, {| ckpt := ckpt s; disk := d'; log := log s |}).

Definition update_disk (f : FS -> FS) : M unit :=
  fun s => (Ok tt, {| ckpt := ckpt s; disk := f (disk s); log := log s |}).

Definition get_disk : M FS := fun s => (Ok (disk s), s).

(** [for x in xs: body x] *)
Fixpoint for_each {A : Type} (xs : list A) (body : A -> M unit) : M unit :=
  match xs with
  | [] => ret tt
  | x :: rest => body x ;;; for_each rest body
  end.

(** The methods of [Progress] print and notify; they change nothing else. *)
Definition progress (kind msg : string) : M unit := emit_event (ProgressMsg kind msg).

(** The shared checkpoint's methods, on the state. *)
Definition checkpoint_mark (chapter_index : Z) (stage : string) : M unit :=
  fun s =>
    let '(r, c', d') := mark (ckpt s) chapter_index stage (disk s) in
    (r, {| ckpt := c'; disk := d'; log := log s |}).

Definition checkpoint_is_done (chapter_index : Z) (stage : string) : M pyval :=
  fun s => (Ok (is_done (ckpt s) chapter_index stage), s).

Definition checkpoint_save : M unit :=
  fun s => (Ok tt, {| ckpt := ckpt s; disk := save (ckpt s) (disk s); log := log s |}).


(** [enumerate(xs)] *)
Definition enumerate {A : Type} (xs : list A) : list (Z * A) :=
  imap (fun i x => (Z.of_nat i, x)) xs.


(** [f"chapter_{i:03d}{ext}"] *)
Definition chapter_name (i : Z) (ext : string) : string :=
  "chapter_" +:+ format_0d 3 i +:+ ext.

(** [f"chunk_{i:04d}.wav"] *)
Definition chunk_name (i : Z) : string :=
  "chunk_" +:+ format_0d 4 i +:+ ".wav".

End runtime.
Export runtime.

(** ** synth/stitcher.py *)
Module stitcher.

(** The chunk files of [chapter_chunks] that exist under [chunk_audio_dir],
    in chunk order, each with its path and metadata. *)
Definition present_chunks (chunk_audio_dir : Path) (cs : list ChunkMeta) (d : FS)
  : list (Path * Content * ChunkMeta) :=
  omap (fun '(i, chunk) =>
          let chunk_path := chunk_audio_dir // chunk_name i in
          match d chunk_path with
          | Some c => Some (chunk_path, c, chunk)
          | None => None
          end)
       (enumerate cs).

Definition missing_chunks (chunk_audio_dir : Path) (cs : list ChunkMeta) (d : FS)
  : list Path :=
  omap (fun '(i, _) =>
          let chunk_path := chunk_audio_dir // chunk_name i in
          if path_exists chunk_path d then None else Some chunk_path)
       (enumerate cs).

(** [stitch_chapter]: a chunk whose file is missing is reported and left
    out; nothing is written when no audio was combined. *)
Definition stitch_chapter (C : Collaborators) (chunk_audio_dir : Path)
    (chapter_chunks : ChapterChunks) (output_path : Path) : M Path :=
  d <- get_disk ;;
  let found := present_chunks chunk_audio_dir (chunks chapter_chunks) d in
  for_each (missing_chunks chunk_audio_dir (chunks chapter_chunks) d)
    (fun p => progress "warn" ("Missing audio file: " +:+ path_str p)) ;;;
  emit_event (StitchCall output_path (map (fun x => fst (fst x)) found)) ;;;
  let combined :=
    match found with
    | [] => None
    | _ => mixdown C (map (fun x => (snd (fst x), snd x)) found)
    end in
  match combined with
  | None =>
      progress "warn" ("No audio produced for chapter "
                       +:+ str (chunks_chapter_index chapter_chunks)) ;;;
      ret output_path
  | Some mp3 =>
      update_disk (fun d => write output_path mp3 (mkdir_parents (parent output_path) d)) ;;;
      ret output_path
  end.

End stitcher.
Export stitcher.

(** ** synth/synthesizer.py *)
Module synthesizer.

(** [get_tts_engine] *)
Definition get_tts_engine (C : Collaborators) (config : Config) : result TTSEngine :=
  let engine_name := tts_engine (synth config) in
  if decide (engine_name = "kokoro") then
    Ok (KokoroTTS C (voice (synth config)))
  else if decide (engine_name = "openai") then
    Ok (OpenAITTS C (voice (synth config)) (openai (api_keys config)))
  else if decide (engine_name = "elevenlabs") then
    Ok (ElevenLabsTTS C (voice (synth config)) (elevenlabs (api_keys config)))
  else if decide (engine_name = "chatterbox") then
    Ok (ChatterboxTTS C (voice (synth config)))
  else
    Raised (Exception "ValueError" ("Unknown TTS engine: " +:+ engine_name)).

(** [_get_worker_count]; [os.cpu_count() or 1] is 1 for [None] and for 0. *)
Definition _get_worker_count (C : Collaborators) (config : Config) : Z :=
  if (0 <? parallel_workers (synth config))%Z then parallel_workers (synth config)
  else if bool_decide (tts_engine (synth config) ∈ ["openai"; "elevenlabs"]) then 8%Z
  else
    let cpus := match cpu_count C with
                | Some n => if (n =? 0)%Z then 1%Z else n
                | None => 1%Z
                end in
    Z.min cpus 4.

(** [_synth_one_chunk]: whatever the engine raises comes back as the
    second component; an empty string means success. *)
Definition _synth_one_chunk (engine : TTSEngine) (text : string) (output_path : Path)
  : M (Path * string) :=
  try_except
    (update_disk (mkdir_parents (parent output_path)) ;;;
     emit_event (EngineCall text output_path) ;;;
     _ <- on_disk (synthesize engine text output_path) ;;
     ret (output_path, ""))
    (fun e => ret (output_path, exn_str e)).

(** [ChapterChunks.from_json] *)
Definition from_json (chunk_path : Path) : M ChapterChunks :=
  d <- get_disk ;;
  match d chunk_path with
  | None => raise (Exception "FileNotFoundError" (path_str chunk_path))
  | Some Dir => raise (Exception "IsADirectoryError" (path_str chunk_path))
  | Some (Raw _) | Some (Text _) =>
      raise (Exception "JSONDecodeError" (path_str chunk_path))
  | Some (ChunksJson c) => ret c
  | Some (CheckpointJson _) | Some (ChapterJson _) =>
      raise (Exception "TypeError" "unexpected keyword argument")
  end.

Definition WorkItem : Type := Z * string * Path.

(** The loop that builds [work_items]: the chunks whose WAV file does not
    exist yet. *)
Definition build_work_items (chunk_audio_dir : Path) (cs : list ChunkMeta) (d : FS)
  : list WorkItem :=
  omap (fun '(i, chunk) =>
          let chunk_wav := chunk_audio_dir // chunk_name i in
          if path_exists chunk_wav d then None
          else Some (i, text chunk, chunk_wav))
       (enumerate cs).

(** The sequential branch ([workers <= 1]); returns [synth_errors]. *)
Fixpoint synth_sequential (engine : TTSEngine) (items : list WorkItem) (synth_errors : Z)
  : M Z :=
  match items with
  | [] => ret synth_errors
  | (i, text, wav_path) :: rest =>
      ' (_, err) <- _synth_one_chunk engine text wav_path ;;
      if str_truthy err then
        progress "error" ("TTS failed for chunk " +:+ str i +:+ ": " +:+ err) ;;;
        synth_sequential engine rest (synth_errors + 1)%Z
      else synth_sequential engine rest synth_errors
  end.

(** The pool branch: one task per work item; [items] is the order in which
    the futures complete.  Returns [synth_errors]. *)
Fixpoint synth_pool (engine : TTSEngine) (items : list WorkItem) (synth_errors : Z)
  : M Z :=
  match items with
  | [] => ret synth_errors
  | (_, text, wav_path) :: rest =>
      ' (path, err) <- _synth_one_chunk engine text wav_path ;;
      if str_truthy err then
        progress "error" ("TTS failed for " +:+ List.last path "" +:+ ": " +:+ err) ;;;
        synth_pool engine rest (synth_errors + 1)%Z
      else synth_pool engine rest synth_errors
  end.

(** [synthesize_one_chapter] *)
Definition synthesize_one_chapter (C : Collaborators) (ch_idx : Z) (chunk_path : Path)
    (audio_dir : Path) (config : Config) (engine : option TTSEngine) : M Path :=
  engine <- match engine with
            | Some e => ret e
            | None => lift (get_tts_engine C config)
            end ;;
  let workers := _get_worker_count C config in
  chapter_chunks <- from_json chunk_path ;;
  let chapter_mp3 := audio_dir // chapter_name ch_idx ".mp3" in
  match chunks chapter_chunks with
  | [] => ret chapter_mp3
  | _ =>
      let chunk_audio_dir := audio_dir // chapter_name ch_idx "" in
      d <- get_disk ;;
      let work_items := build_work_items chunk_audio_dir (chunks chapter_chunks) d in
      synth_errors <-
        match work_items with
        | [] => ret 0%Z
        | _ =>
            if (workers <=? 1)%Z then synth_sequential engine work_items 0
            else synth_pool engine (as_completed C _ work_items) 0
        end ;;
      if negb (bool_decide (work_items = []))
         && (synth_errors =? Z.of_nat (length work_items))%Z
      then raise (Exception "RuntimeError"
                    ("All " +:+ str synth_errors +:+ " chunks failed for chapter "
                     +:+ str ch_idx))
      else
        stitch_chapter C chunk_audio_dir chapter_chunks chapter_mp3 ;;;
        ret chapter_mp3
  end.

End synthesizer.
Export synthesizer.

(** ** synth/synthesizer.py, continued: the batch variant *)
Module synthesizer_batch.





(** The end of [synthesize_all], under its comment "Produce final output". *)
Definition produce_final_output (C : Collaborators) (config : Config)
    (audio_dir final_dir : Path) (chapter_mp3s : list Path)
    (chapter_titles : list string) : M Path :=
  ' (output_format, final_path) <-
    (if decide (output_format (synth config) = "m4b") then
       progress "detail" "Creating M4B with chapter markers..." ;;;
       try_except
         (_ <- on_disk (create_m4b C chapter_mp3s chapter_titles
                          (final_dir // "audiobook.m4b")) ;;
          ret ("m4b", Some (final_dir // "audiobook.m4b")))
         (fun e =>
            if bool_decide (exn_cls e ∈ ["CalledProcessError"; "FileNotFoundError"])
            then progress "warn" ("M4B creation failed (" +:+ exn_str e
                                  +:+ "), falling back to MP3 output") ;;;
                 ret ("mp3", Some (final_dir // "audiobook.m4b"))
            else raise e)
     else ret (output_format (synth config), None)) ;;
  if decide (output_format = "mp3") then
    update_disk (mkdir_parents final_dir) ;;;
    progress "detail" ("Output: " +:+ str (Z.of_nat (length chapter_mp3s))
                       +:+ " MP3 files in " +:+ path_str audio_dir) ;;;
    ret audio_dir
  else
    match final_path with
    | Some p => ret p
    | None => raise (Exception "UnboundLocalError" "final_path")
    end.


End synthesizer_batch.
Export synthesizer_batch.

(** ** streaming.py *)
Module streaming.

(** The dataclass [ChapterResult]. *)
Record ChapterResult : Type := {
  result_index : Z;
  cleaned_path : option Path;
  chunk_path : option Path;
  audio_path : option Path;
  error : option string;
}.

(** [ChapterResult(index=ch_idx, error=str(e))] *)
Definition failed_result (ch_idx : Z) (e : exn) : ChapterResult :=
  {| result_index := ch_idx; cleaned_path := None; chunk_path := None;
     audio_path := None; error := Some (exn_str e) |}.

(** A [StreamingPipeline] after [__init__]; the checkpoint and the progress
    reporter it holds are those of the state. *)
Record StreamingPipeline : Type := {
  _chapters : list Chapter;
  _output_dir : Path;
  _config : Config;
  _max_concurrent : Z;
  _engine : TTSEngine;
}.

(** [StreamingPipeline.__init__] with the default [max_concurrent_chapters]:
    the engine is created once. *)
Definition StreamingPipeline_init (C : Collaborators) (chapters : list Chapter)
    (output_dir : Path) (config : Config) : result StreamingPipeline :=
  match get_tts_engine C config with
  | Raised e => Raised e
  | Ok engine =>
      Ok {| _chapters := chapters; _output_dir := output_dir; _config := config;
            _max_concurrent := 2; _engine := engine |}
  end.

Definition _emit (event : string) (data : list (string * string)) : M unit :=
  emit_event (Emit event data).

(** [StreamingPipeline._process_chapter]; [_synth_lock] is held around the
    call of [synthesize_one_chapter]. *)
Definition _process_chapter (C : Collaborators) (self : StreamingPipeline)
    (chapter : Chapter) : M ChapterResult :=
  let ch_idx := index chapter in
  (* Clean *)
  _emit "chapter_stage" [("index", str ch_idx); ("stage", "cleaning")] ;;;
  done <- checkpoint_is_done ch_idx "cleaned" ;;
  cleaned_path <-
    (if negb (truthy done) then
       progress "chapter" ("Cleaning: " +:+ title chapter) ;;;
       emit_event (StageCall "clean_one_chapter" ch_idx) ;;;
       p <- on_disk (clean_one_chapter C chapter (_output_dir self)) ;;
       checkpoint_mark ch_idx "cleaned" ;;;
       ret p
     else ret (_output_dir self // "cleaned" // chapter_name ch_idx ".txt")) ;;
  _emit "chapter_text_ready" [("index", str ch_idx)] ;;;
  (* Chunk *)
  _emit "chapter_stage" [("index", str ch_idx); ("stage", "chunking")] ;;;
  done <- checkpoint_is_done ch_idx "chunked" ;;
  chunk_path <-
    (if negb (truthy done) then
       progress "chapter" ("Chunking: " +:+ title chapter) ;;;
       emit_event (StageCall "chunk_one_chapter" ch_idx) ;;;
       p <- on_disk (chunk_one_chapter C ch_idx cleaned_path (_output_dir self)
                       (title chapter)) ;;
       checkpoint_mark ch_idx "chunked" ;;;
       ret p
     else ret (_output_dir self // "chunks" // chapter_name ch_idx ".json")) ;;
  (* Synthesize *)
  _emit "chapter_stage" [("index", str ch_idx); ("stage", "synthesizing")] ;;;
  done <- checkpoint_is_done ch_idx "synthesized" ;;
  audio_path <-
    (if negb (truthy done) then
       progress "chapter" ("Synthesizing: " +:+ title chapter) ;;;
       emit_event (StageCall "synthesize_one_chapter" ch_idx) ;;;
       let audio_dir := _output_dir self // "audio" in
       p <- synthesize_one_chapter C ch_idx chunk_path audio_dir (_config self)
              (Some (_engine self)) ;;
       checkpoint_mark ch_idx "synthesized" ;;;
       ret p
     else ret (_output_dir self // "audio" // chapter_name ch_idx ".mp3")) ;;
  progress "done" ("Chapter " +:+ str ch_idx +:+ " audio ready: " +:+ title chapter) ;;;
  _emit "chapter_audio_ready" [("index", str ch_idx); ("title", title chapter)] ;;;
  ret {| result_index := ch_idx; cleaned_path := Some cleaned_path;
         chunk_path := Some chunk_path; audio_path := Some audio_path;
         error := None |}.

(** The loop over [as_completed(futures)]: [done_order] lists the submitted
    chapters in the order their futures complete.  A chapter's work runs
    when its turn comes; what it raises is caught here. *)
Fixpoint collect (C : Collaborators) (self : StreamingPipeline)
    (done_order : list Chapter) (_results : gmap Z ChapterResult)
  : M (gmap Z ChapterResult) :=
  match done_order with
  | [] => ret _results
  | ch :: rest =>
      let ch_idx := index ch in
      _results <-
        try_except
          (result <- _process_chapter C self ch ;;
           ret (<[ ch_idx := result ]> _results))
          (fun e =>
             progress "error" ("Chapter " +:+ str ch_idx +:+ " failed: " +:+ exn_str e) ;;;
             _emit "chapter_error" [("index", str ch_idx); ("error", exn_str e)] ;;;
             ret (<[ ch_idx := failed_result ch_idx e ]> _results)) ;;
      collect C self rest _results
  end.

(** [StreamingPipeline.run], on a pipeline whose [_results] is still empty. *)
Definition run (C : Collaborators) (self : StreamingPipeline)
  : M (gmap Z ChapterResult) :=
  let total := Z.of_nat (length (_chapters self)) in
  progress "detail" ("Streaming pipeline: " +:+ str total +:+ " chapters, "
                     +:+ str (_max_concurrent self) +:+ " concurrent workers") ;;;
  _results <- collect C self (as_completed C _ (_chapters self)) ∅ ;;
  _emit "pipeline_complete" [("total", str total)] ;;;
  ret _results.

End streaming.
Export streaming.

(** ** models.py: what [Chapter.save] writes *)
Module models.

Definition nl : string := String (ascii_of_nat 10) "".

(** [s * n] *)
Fixpoint repeat_str (s : string) (n : nat) : string :=
  match n with
  | O => ""
  | S n' => s +:+ repeat_str s n'
  end.

Definition section_markdown (s : PySection) : string :=
  if decide (type s = "heading") then
    repeat_str "#" (Z.to_nat (Z.max 1 (level s))) +:+ " " +:+ content s +:+ nl
  else if decide (type s = "body") then content s +:+ nl
  else if decide (type s = "footnote") then "> [footnote] " +:+ content s +:+ nl
  else if decide (type s = "figure_caption") then "*[figure] " +:+ content s +:+ "*" +:+ nl
  else if decide (type s = "table") then
    "<!-- table -->" +:+ nl +:+ content s +:+ nl +:+ "<!-- /table -->" +:+ nl
  else content s +:+ nl.

(** [Chapter.to_markdown] *)
Definition to_markdown (ch : Chapter) : string :=
  join nl (map section_markdown (sections ch)).

(** [Chapter.save] *)
Definition Chapter_save (ch : Chapter) (path : Path) : M unit :=
  update_disk (fun d => write path (Text (to_markdown ch)) (mkdir_parents (parent path) d)).

(** [Chapter.save_json] *)
Definition Chapter_save_json (ch : Chapter) (path : Path) : M unit :=
  update_disk (fun d => write path (ChapterJson ch) (mkdir_parents (parent path) d)).


End models.
Export models.

(** ** summary.py: front insertion of the executive summary *)
Module summary.

(** [s.replace(old, new)]: occurrences are found left to right and do not
    overlap.  [skip] counts the characters of a match still to pass. *)
Fixpoint replace_from (old new : string) (skip : nat) (s : string) : string :=
  match s with
  | "" => ""
  | String c s' =>
      match skip with
      | S k => replace_from old new k s'
      | O =>
          if String.prefix old s
          then new +:+ replace_from old new (String.length old - 1) s'
          else String c (replace_from old new 0 s')
      end
  end.

Fixpoint intersperse_str (new s : string) : string :=
  match s with
  | "" => new
  | String c s' => new +:+ String c (intersperse_str new s')
  end.

Definition replace (old new s : string) : string :=
  match old with
  | "" => intersperse_str new s
  | _ => replace_from old new 0 s
  end.












End summary.
Export summary.

(** ** The threads of a run: who may be inside [engine.synthesize]

    [StreamingPipeline.run] hands every chapter to a pool of
    [max_concurrent_chapters] threads.  A chapter's thread cleans and chunks
    without any lock, then takes [_synth_lock] for the whole call of
    [synthesize_one_chapter].  Inside that call the work items are run one
    after the other when [workers <= 1], and otherwise by a second pool of
    [workers] threads, each of which calls [engine.synthesize] with no lock
    of its own.  The transition system below keeps exactly this skeleton. *)
Module threads.

(** Where a chapter's thread is. *)
Inductive Phase : Type :=
| Queued                                 (* submitted, no pool thread yet *)
| Early                                  (* cleaning or chunking *)
| Waiting                                (* at [with self._synth_lock] *)
| Synth (todo : nat) (in_flight : nat)   (* inside [synthesize_one_chapter] *)
| Finished.

(** The lock and the phase of every chapter, by position in the list. *)
Record Sys : Type := {
  lock_held : bool;
  phases : list Phase;
}.

Definition active (p : Phase) : bool :=
  match p with
  | Early | Waiting | Synth _ _ => true
  | Queued | Finished => false
  end.




(** How many work items [synthesize_one_chapter] lets run at once: one on
    the sequential branch, [workers] in the pool. *)
Definition width (workers : Z) : nat :=
  if (workers <=? 1)%Z then 1 else Z.to_nat workers.

(** One step of one thread.  [items] gives each chapter's number of work
    items. *)
Inductive step (max_concurrent : nat) (workers : Z) (items : list nat)
  : Sys -> Sys -> Prop :=
| step_start i s :
    phases s !! i = Some Queued ->
    length (filter (fun p => active p = true) (phases s)) < max_concurrent ->
    step max_concurrent workers items s
      {| lock_held := lock_held s; phases := <[ i := Early ]> (phases s) |}
| step_reach_lock i s :
    phases s !! i = Some Early ->
    step max_concurrent workers items s
      {| lock_held := lock_held s; phases := <[ i := Waiting ]> (phases s) |}
| step_acquire i s k :
    phases s !! i = Some Waiting ->
    lock_held s = false ->
    items !! i = Some k ->
    step max_concurrent workers items s
      {| lock_held := true; phases := <[ i := Synth k 0 ]> (phases s) |}
| step_call i s t r :
    phases s !! i = Some (Synth (S t) r) ->
    r < width workers ->
    step max_concurrent workers items s
      {| lock_held := lock_held s; phases := <[ i := Synth t (S r) ]> (phases s) |}
| step_return i s t r :
    phases s !! i = Some (Synth t (S r)) ->
    step max_concurrent workers items s
      {| lock_held := lock_held s; phases := <[ i := Synth t r ]> (phases s) |}
| step_release i s :
    phases s !! i = Some (Synth 0 0) ->
    step max_concurrent workers items s
      {| lock_held := false; phases := <[ i := Finished ]> (phases s) |}.



End threads.
Export threads.

(** ** Concrete collaborators and inputs, for examples *)
Module demo.

(** The digest of this example spells the data out, one character a byte. *)
Fixpoint spell (data : list byte) : string :=
  match data with
  | [] => ""
  | b :: rest => String (ascii_of_byte b) (spell rest)
  end.

(** An engine that writes a file, except for the text ["fail"]. *)
Definition demo_engine (engine_name : string) : TTSEngine :=
  {| name := engine_name;
     synthesize := fun text out d =>
       if decide (text = "fail")
       then (Raised (Exception "RuntimeError" "no audio"), d)
       else (Ok out, write out (Raw []) d) |}.

Definition one_chunk (i : Z) (t : string) : ChunkMeta :=
  {| text := t; chapter_index := i; paragraph_index := 0; sentence_index := 0;
     is_paragraph_end := true; is_chapter_end := true |}.

(** Cleaning fails for a chapter titled ["broken"]. *)
Definition demo_collaborators : Collaborators :=
  {| sha256_hexdigest := spell;
     encode := fun _ => [];
     clean_one_chapter := fun ch out d =>
       if decide (title ch = "broken")
       then (Raised (Exception "RuntimeError" "cleaning failed"), d)
       else let p := out // "cleaned" // chapter_name (index ch) ".txt" in
            (Ok p, write p (Text (title ch)) d);
     chunk_one_chapter := fun i cleaned out t d =>
       let p := out // "chunks" // chapter_name i ".json" in
       (Ok p, write p (ChunksJson {| chunks_chapter_index := i; chapter_title := t;
                                     chunks := [one_chunk i t] |}) d);
     KokoroTTS := fun _ => demo_engine "kokoro";
     OpenAITTS := fun _ _ => demo_engine "openai";
     ElevenLabsTTS := fun _ _ => demo_engine "elevenlabs";
     ChatterboxTTS := fun _ => demo_engine "chatterbox";
     cpu_count := Some 4%Z;
     mixdown := fun _ => Some (Raw []);
     create_m4b := fun _ _ out d => (Ok out, write out (Raw []) d);
     _generate_summary_text := fun _ => "A short summary.";
     as_completed := fun A l => reverse l |}.

Definition demo_config (engine_name : string) (workers : Z) : Config :=
  {| synth := {| tts_engine := engine_name; voice := "af_heart";
                 output_format := "mp3"; parallel_workers := workers |};
     api_keys := {| openai := ""; anthropic := ""; elevenlabs := "" |} |}.

Definition demo_chapter (i : Z) (t : string) : Chapter :=
  {| index := i; title := t; sections := []; start_page := 0; end_page := 0 |}.

Definition out_dir : Path := ["out"].
Definition checkpoint_file : Path := ["out"; "checkpoint.json"].
Definition pdf_file : Path := ["book.pdf"].

(** A disk that holds only the source PDF. *)
Definition pdf_disk (data : list byte) : FS := write pdf_file (Raw data) empty_fs.

(** A checkpoint bound to no file. *)
Definition blank_checkpoint : Checkpoint :=
  {| pdf_path := "book.pdf"; pdf_hash := ""; parser_used := "";
     total_chapters := 0; chapters := ∅; _path := None |}.

Definition blank_state : State :=
  {| ckpt := blank_checkpoint; disk := empty_fs; log := [] |}.

Definition demo_pipeline (chapters : list Chapter) (workers : Z) : StreamingPipeline :=
  {| _chapters := chapters; _output_dir := out_dir;
     _config := demo_config "kokoro" workers; _max_concurrent := 2;
     _engine := demo_engine "kokoro" |}.

(** The state after [mark] of chapter [i] for each stage the scheduler runs. *)
Definition all_done_state (i : Z) : State :=
  let '(_, c, d) := mark blank_checkpoint i "cleaned" empty_fs in
  let '(_, c, d) := mark c i "chunked" d in
  let '(_, c, d) := mark c i "synthesized" d in
  {| ckpt := c; disk := d; log := [] |}.

End demo.
Export demo.

(** ** More of Python's [str], as the stages use it *)
Module pytext.

(** [len(s)]; a character of a text is one [ascii]. *)
Definition len (s : string) : Z := Z.of_nat (String.length s).

(** [s.split(sep)] for a separator that is not empty: the pieces between
    the occurrences of [sep], found left to right without overlap.  [skip]
    counts the characters of a separator still to pass; the head of the
    result is the piece being read. *)
Fixpoint split_from (sep : string) (skip : nat) (s : string) : list string :=
  match s with
  | "" => [""]
  | String c s' =>
      match skip with
      | S k => split_from sep k s'
      | O =>
          if String.prefix sep s
          then "" :: split_from sep (String.length sep - 1) s'
          else match split_from sep 0 s' with
               | piece :: pieces => String c piece :: pieces
               | [] => [String c ""]
               end
      end
  end.

Definition split (sep s : string) : list string := split_from sep 0 s.

(** [s[i:j]] for [0 <= i <= j]. *)
Definition slice (s : string) (i j : Z) : string :=
  substring (Z.to_nat i) (Z.to_nat (j - i)) s.

(** [range(0, stop, step)]: empty when [step] is negative and [stop] is
    not, as in the one place that uses it. *)
Definition range_step (stop step : Z) : list Z :=
  if (0 <? step)%Z
  then (fun k => (k * step)%Z) <$> seqZ 0 ((stop + step - 1) `div` step)
  else [].

(** [c.lower()] on the ASCII range. *)
Definition lower_char (c : ascii) : ascii :=
  let n := nat_of_ascii c in
  if (Nat.leb 65 n && Nat.leb n 90)%bool then ascii_of_nat (n + 32) else c.

Fixpoint lower (s : string) : string :=
  match s with
  | "" => ""
  | String c s' => String (lower_char c) (lower s')
  end.

(** [sub in s] *)
Fixpoint contains (sub s : string) : bool :=
  String.prefix sub s
  || match s with
     | "" => false
     | String _ s' => contains sub s'
     end.

(** [path.read_text(encoding="utf-8")].  The text of a file that is not
    plain text (a JSON document, bytes) is what [decode] makes of it. *)
Definition read_text (decode : Content -> result string) (p : Path) (d : FS)
  : result string :=
  match d p with
  | None => Raised (Exception "FileNotFoundError" (path_str p))
  | Some Dir => Raised (Exception "IsADirectoryError" (path_str p))
  | Some (Text t) => Ok t
  | Some c => decode c
  end.

End pytext.

(** ** chunk/chunker.py *)
Module chunker.
Import pytext.

(** The spaCy pipeline, as far as the chunker uses it: [nlp.max_length],
    and the texts of [nlp(text).sents]. *)
Record Nlp : Type := {
  max_length : Z;
  sents : string -> list string;
}.

(** [_split_sentences] *)
Definition _split_sentences (text : string) (nlp : Nlp) : result (list string) :=
  let max_len := max_length nlp in
  if (max_len <? len text)%Z then
    if (max_len =? 0)%Z then
      Raised (Exception "ValueError" "range() arg 3 must not be zero")
    else
      Ok (concat (map (fun i => sents nlp (slice text i (i + max_len)))
                      (range_step (len text) max_len)))
  else Ok (sents nlp text).

(** [[p.strip() for p in text.split("\n\n") if p.strip()]] *)
Definition paragraphs_of (text : string) : list string :=
  omap (fun p => if str_truthy (strip p) then Some (strip p) else None)
       (split (nl +:+ nl) text).

(** The variables of the loops of [_chunk_text]: [chunks],
    [sentence_index], [current_chunk], [chunk_start_sentence]. *)
Definition Vars : Type := list ChunkMeta * Z * string * Z.

(** One turn of [for sent_idx_in_para, sentence in enumerate(sentences)]. *)
Definition sentence_step (chapter_index max_chars para_idx : Z) (vars : Vars)
    (sentence : string) : Vars :=
  let '(chunks, sentence_index, current_chunk, chunk_start_sentence) := vars in
  let sentence := strip sentence in
  if negb (str_truthy sentence) then vars
  else
    let '(chunks, current_chunk, chunk_start_sentence) :=
      if str_truthy current_chunk
         && (max_chars <? len current_chunk + len sentence + 1)%Z
      then (chunks ++ [ {| text := strip current_chunk;
                           chapter_index := chapter_index;
                           paragraph_index := para_idx;
                           sentence_index := chunk_start_sentence;
                           is_paragraph_end := false;
                           is_chapter_end := false |} ],
            "", sentence_index)
      else (chunks, current_chunk, chunk_start_sentence) in
    let current_chunk :=
      if str_truthy current_chunk then current_chunk +:+ " " +:+ sentence
      else sentence in
    (chunks, (sentence_index + 1)%Z, current_chunk, chunk_start_sentence).

(** The loop [for para_idx, paragraph in enumerate(paragraphs)], from the
    turn of [todo] on; [n_paragraphs] is [len(paragraphs)]. *)
Fixpoint paragraphs_loop (nlp : Nlp) (chapter_index max_chars : Z) (n_paragraphs : nat)
    (todo : list (Z * string)) (chunks : list ChunkMeta) (sentence_index : Z)
  : result (list ChunkMeta) :=
  match todo with
  | [] => Ok chunks
  | (para_idx, paragraph) :: rest =>
      match _split_sentences paragraph nlp with
      | Raised e => Raised e
      | Ok sentences =>
          let '(chunks, sentence_index, current_chunk, chunk_start_sentence) :=
            foldl (sentence_step chapter_index max_chars para_idx)
                  (chunks, sentence_index, "", sentence_index) sentences in
          (* Flush remaining text for this paragraph *)
          let chunks :=
            if str_truthy (strip current_chunk) then
              chunks ++ [ {| text := strip current_chunk;
                             chapter_index := chapter_index;
                             paragraph_index := para_idx;
                             sentence_index := chunk_start_sentence;
                             is_paragraph_end := true;
                             is_chapter_end :=
                               bool_decide (para_idx = (Z.of_nat n_paragraphs - 1)%Z) |} ]
            else chunks in
          paragraphs_loop nlp chapter_index max_chars n_paragraphs rest chunks
            sentence_index
      end
  end.

(** [chunks[-1].is_chapter_end = True] *)
Definition mark_last (chunks : list ChunkMeta) : list ChunkMeta :=
  match last chunks with
  | None => chunks
  | Some c =>
      removelast chunks
      ++ [ {| text := text c; chapter_index := chapter_index c;
              paragraph_index := paragraph_index c;
              sentence_index := sentence_index c;
              is_paragraph_end := is_paragraph_end c;
              is_chapter_end := true |} ]
  end.

(** [_chunk_text] *)
Definition _chunk_text (text : string) (chapter_index max_chars : Z) (nlp : Nlp)
  : result (list ChunkMeta) :=
  let paragraphs := paragraphs_of text in
  match paragraphs_loop nlp chapter_index max_chars (length paragraphs)
          (enumerate paragraphs) [] 0 with
  | Raised e => Raised e
  | Ok chunks => Ok (mark_last chunks)
  end.

(** [ChapterChunks.save] *)
Definition ChapterChunks_save (cc : ChapterChunks) (path : Path) : M unit :=
  update_disk (fun d => write path (ChunksJson cc) (mkdir_parents (parent path) d)).

(** [chunk_one_chapter].  [get_nlp] stands for [_get_nlp(config.spacy_model)]:
    the pipeline the module holds, loaded on the first call, or what loading
    it raised.  [_nlp_lock] has no counterpart: calls run one at a time. *)
Definition chunk_one_chapter (get_nlp : result Nlp) (decode : Content -> result string)
    (max_chars : Z) (ch_idx : Z) (cleaned_path output_dir : Path) (title : string)
  : M Path :=
  let chunks_dir := output_dir // "chunks" in
  update_disk (mkdir_parents chunks_dir) ;;;
  let out_path := chunks_dir // chapter_name ch_idx ".json" in
  nlp <- lift get_nlp ;;
  d <- get_disk ;;
  text <- lift (read_text decode cleaned_path d) ;;
  chunks <- lift (_chunk_text text ch_idx max_chars nlp) ;;
  let chapter_chunks :=
    {| chunks_chapter_index := ch_idx; chapter_title := title; chunks := chunks |} in
  ChapterChunks_save chapter_chunks out_path ;;;
  ret out_path.

(** One turn of the loop of [chunk_chapters]; [n] is [len(cleaned_paths)].
    The path is appended to [result_paths] before anything can raise. *)
Definition chunk_chapters_step (nlp : Nlp) (decode : Content -> result string)
    (max_chars : Z) (chunks_dir : Path) (chapter_titles : list string) (n : nat)
    (ch_idx : Z) (cleaned_path : Path) : M unit :=
  let out_path := chunks_dir // chapter_name ch_idx ".json" in
  done <- checkpoint_is_done ch_idx "chunked" ;;
  if truthy done then
    progress "detail" ("Chapter " +:+ str ch_idx +:+ " already chunked, skipping")
  else
    let title :=
      match chapter_titles !! Z.to_nat ch_idx with
      | Some t => t
      | None => "Chapter " +:+ str (ch_idx + 1)
      end in
    progress "chapter" ("Chunking: " +:+ title) ;;;
    d <- get_disk ;;
    text <- lift (read_text decode cleaned_path d) ;;
    chunks <- lift (_chunk_text text ch_idx max_chars nlp) ;;
    ChapterChunks_save
      {| chunks_chapter_index := ch_idx; chapter_title := title; chunks := chunks |}
      out_path ;;;
    checkpoint_mark ch_idx "chunked" ;;;
    progress "chapter_done" (str ch_idx).

(** [chunk_chapters] *)
Definition chunk_chapters (get_nlp : result Nlp) (decode : Content -> result string)
    (max_chars : Z) (cleaned_paths : list Path) (output_dir : Path)
    (chapter_titles : list string) : M (list Path) :=
  let chunks_dir := output_dir // "chunks" in
  update_disk (mkdir_parents chunks_dir) ;;;
  nlp <- lift get_nlp ;;
  for_each (enumerate cleaned_paths)
    (fun '(ch_idx, cleaned_path) =>
       chunk_chapters_step nlp decode max_chars chunks_dir chapter_titles
         (length cleaned_paths) ch_idx cleaned_path) ;;;
  ret (map (fun '(ch_idx, _) => chunks_dir // chapter_name ch_idx ".json")
           (enumerate cleaned_paths)).

End chunker.

(** ** parse/pymupdf_parser.py *)
Module pymupdf.

(** Truth value of a list: the empty list is false. *)
Definition list_truthy {A : Type} (l : list A) : bool :=
  match l with [] => false | _ => true end.

(** [section.type == "heading" and section.level == 1] *)
Definition is_chapter_break (section : PySection) : bool :=
  bool_decide (type section = "heading") && bool_decide (level section = 1%Z).

(** The [Chapter(...)] that [_build_chapters] appends, in both places. *)
Definition built_chapter (chapters : list Chapter) (current_sections : list PySection)
    (current_title : string) (current_start_page : Z) : Chapter :=
  {| index := Z.of_nat (length chapters);
     title := if str_truthy current_title then current_title
              else "Chapter " +:+ str (Z.of_nat (length chapters) + 1);
     sections := current_sections;
     start_page := current_start_page;
     end_page := match last current_sections with
                 | Some s => page s
                 | None => current_start_page
                 end |}.

(** The variables of the loop of [_build_chapters]: [chapters],
    [current_sections], [current_title], [current_start_page]. *)
Definition BuildVars : Type := list Chapter * list PySection * string * Z.

(** One turn of [for section in sections]. *)
Definition build_step (vars : BuildVars) (section : PySection) : BuildVars :=
  let '(chapters, current_sections, current_title, current_start_page) := vars in
  let '(chapters, current_sections) :=
    if is_chapter_break section
       && (list_truthy current_sections || str_truthy current_title)
    then (chapters ++ [built_chapter chapters current_sections current_title
                         current_start_page],
          [])
    else (chapters, current_sections) in
  let '(current_title, current_start_page) :=
    if is_chapter_break section then (content section, page section)
    else (current_title, current_start_page) in
  (chapters, current_sections ++ [section], current_title, current_start_page).

(** [PyMuPDFParser._build_chapters] *)
Definition _build_chapters (sections : list PySection) : list Chapter :=
  let '(chapters, current_sections, current_title, current_start_page) :=
    foldl build_step ([], [], "", 0%Z) sections in
  (* Don't forget the last chapter *)
  if list_truthy current_sections
  then chapters ++ [built_chapter chapters current_sections current_title
                      current_start_page]
  else chapters.

(** One turn of the loop under "Save each chapter to disk". *)
Definition save_parsed (parsed_dir : Path) (ch : Chapter) : M unit :=
  done <- checkpoint_is_done (index ch) "parsed" ;;
  if truthy done then
    progress "detail" ("Chapter " +:+ str (index ch) +:+ " already parsed, skipping")
  else
    Chapter_save ch (parsed_dir // chapter_name (index ch) ".md") ;;;
    Chapter_save_json ch (parsed_dir // chapter_name (index ch) ".json") ;;;
    checkpoint_mark (index ch) "parsed" ;;;
    progress "chapter_done" (str (index ch)).

(** [PyMuPDFParser.parse], from the point where the two passes over the
    document have produced [all_sections]; [total_pages] is [len(doc)]. *)
Definition parse (all_sections : list PySection) (total_pages : Z) (output_dir : Path)
  : M (list Chapter) :=
  let chapters := _build_chapters all_sections in
  let chapters :=
    if list_truthy chapters then chapters
    else [ {| index := 0; title := "Full Document"; sections := all_sections;
              start_page := 0; end_page := total_pages - 1 |} ] in
  let parsed_dir := output_dir // "parsed" in
  for_each chapters (save_parsed parsed_dir) ;;;
  ret chapters.

End pymupdf.

(** ** pipeline.py: loading the parsed chapters on resume *)
Module pipeline.
Import pytext.

(** [Chapter.from_json] *)
Definition Chapter_from_json (path : Path) (d : FS) : result Chapter :=
  match d path with
  | None => Raised (Exception "FileNotFoundError" (path_str path))
  | Some Dir => Raised (Exception "IsADirectoryError" (path_str path))
  | Some (Raw _) | Some (Text _) => Raised (Exception "JSONDecodeError" (path_str path))
  | Some (ChapterJson ch) => Ok ch
  | Some (CheckpointJson _) | Some (ChunksJson _) =>
      Raised (Exception "TypeError" "unexpected keyword argument")
  end.

(** The chapter made from a Markdown file alone. *)
Definition minimal_chapter (i : Z) (text : string) : Chapter :=
  {| index := i; title := "Chapter " +:+ str (i + 1);
     sections := [ {| type := "body"; content := text; level := 0; page := 0 |} ];
     start_page := 0; end_page := 0 |}.

(** The loop of [_load_parsed_chapters], from the turn of [todo] on. *)
Fixpoint load_loop (decode : Content -> result string) (parsed_dir : Path) (d : FS)
    (todo : list Z) (chapters : list Chapter) : result (list Chapter) :=
  match todo with
  | [] => Ok chapters
  | i :: rest =>
      let json_path := parsed_dir // chapter_name i ".json" in
      if path_exists json_path d then
        match Chapter_from_json json_path d with
        | Raised e => Raised e
        | Ok ch => load_loop decode parsed_dir d rest (chapters ++ [ch])
        end
      else
        (* Fallback: create a minimal chapter from the markdown file *)
        let md_path := parsed_dir // chapter_name i ".md" in
        if path_exists md_path d then
          match read_text decode md_path d with
          | Raised e => Raised e
          | Ok text => load_loop decode parsed_dir d rest (chapters ++ [minimal_chapter i text])
          end
        else load_loop decode parsed_dir d rest chapters
  end.

(** [_load_parsed_chapters] *)
Definition _load_parsed_chapters (decode : Content -> result string) (output_dir : Path)
    (total : Z) (d : FS) : result (list Chapter) :=
  load_loop decode (output_dir // "parsed") d (seqZ 0 total) [].

End pipeline.

(** ** The language model, as the stages use it *)
Module llm.

(** [config.py]: CleanConfig, the fields read here. *)
Record CleanConfig : Type := {
  llm_model : string;
  llm_backend : string;
  skip_references : bool;
}.

(** What [litellm.completion(...)] comes to, seen through
    [response.choices[0].message.content]: a string, [None], or an
    exception (of the import, of the call, of the indexing). *)
Inductive Reply : Type :=
| Content_ (s : string)
| NoContent
| Failed (e : exn).

(** [litellm.completion(model=..., messages=[system, user], ...)] by model,
    system prompt and user text. *)
Definition Completion : Type := string -> string -> string -> Reply.

End llm.

(** ** summary.py: the text of the summary *)
Module summary_text.
Import pytext llm pymupdf.

(** [text.split("\n\n")[0].strip()]; [split] returns at least one piece. *)
Definition first_paragraph (text : string) : string :=
  match split (nl +:+ nl) text with
  | piece :: _ => strip piece
  | [] => ""
  end.

(** The loop of [_extractive_fallback], from the chapters [todo] on. *)
Fixpoint fallback_loop (todo : list Chapter) (parts : list string) : list string :=
  match todo with
  | [] => parts
  | ch :: rest =>
      let text := strip (to_markdown ch) in
      if negb (str_truthy text) then fallback_loop rest parts
      else
        let first_para := first_paragraph text in
        let parts :=
          if str_truthy first_para && (30 <? len first_para)%Z
          then parts ++ [first_para] else parts in
        if (5 <=? Z.of_nat (length parts))%Z then parts
        else fallback_loop rest parts
  end.

(** [_extractive_fallback] *)
Definition _extractive_fallback (chapters : list Chapter) : string :=
  let parts := fallback_loop chapters [] in
  if list_truthy parts then join (nl +:+ nl) parts
  else "Executive summary could not be generated.".

(** [full_text] in [_generate_summary_text], after the truncation. *)
Definition summary_prompt (chapters : list Chapter) : string :=
  let full_text :=
    join (nl +:+ nl +:+ "---" +:+ nl +:+ nl)
         (map (fun ch => "## " +:+ title ch +:+ nl +:+ nl +:+ to_markdown ch) chapters) in
  let max_chars := 100000%Z in
  if (max_chars <? len full_text)%Z
  then slice full_text 0 max_chars +:+ nl +:+ nl +:+ "[Remaining text omitted for length...]"
  else full_text.

(** [_generate_summary_text].  [system_prompt] is [SUMMARY_SYSTEM_PROMPT];
    the environment variables set from [api_keys] reach the result through
    [completion] only. *)
Definition _generate_summary_text (completion : Completion) (system_prompt : string)
    (config : CleanConfig) (chapters : list Chapter) : string :=
  let full_text := summary_prompt chapters in
  if decide (llm_backend config = "none") then _extractive_fallback chapters
  else
    match completion (llm_model config) system_prompt full_text with
    | Content_ result =>
        if str_truthy result then strip result else _extractive_fallback chapters
    | NoContent => _extractive_fallback chapters
    | Failed _ => _extractive_fallback chapters
    end.

End summary_text.

(** ** clean/cleaner.py *)
Module cleaner.
Import pytext llm.

(** [_is_references_section] *)
Definition _is_references_section (title : string) : bool :=
  let t := lower (strip title) in
  bool_decide (t ∈ ["references"; "bibliography"; "works cited"; "literature cited";
                    "reference"; "ref"; "refs"])
  || String.prefix "references" t
  || String.prefix "bibliography" t.

(** [_llm_clean]; the counters of token usage have no counterpart here. *)
Definition _llm_clean (completion : Completion) (system_prompt text model : string)
  : result string :=
  match completion model system_prompt text with
  | Content_ c => Ok (if str_truthy c then c else text)
  | NoContent => Ok text
  | Failed e => Raised e
  end.

(** [_regex_clean]; [substitute] stands for the loop over
    [FALLBACK_PATTERNS]. *)
Definition _regex_clean (substitute : string -> string) (text : string) : string :=
  strip (substitute text).

(** [clean_one_chapter]; [system_prompt] is [SYSTEM_PROMPT].  The
    environment variables [_setup_api_keys] sets reach the result through
    [completion] only. *)
Definition clean_one_chapter (completion : Completion) (system_prompt : string)
    (substitute : string -> string) (chapter : Chapter) (output_dir : Path)
    (config : CleanConfig) : M Path :=
  let cleaned_dir := output_dir // "cleaned" in
  update_disk (mkdir_parents cleaned_dir) ;;;
  let out_path := cleaned_dir // chapter_name (index chapter) ".txt" in
  let use_llm := negb (bool_decide (llm_backend config = "none")) in
  (* Skip references sections — write empty file *)
  if skip_references config && _is_references_section (title chapter) then
    update_disk (write out_path (Text "")) ;;;
    ret out_path
  else
    let raw_text := to_markdown chapter in
    let cleaned :=
      if use_llm then
        match _llm_clean completion system_prompt raw_text (llm_model config) with
        | Ok c => c
        | Raised _ => _regex_clean substitute raw_text
        end
      else _regex_clean substitute raw_text in
    update_disk (write out_path (Text (strip cleaned))) ;;;
    ret out_path.

End cleaner.

(** ** synth/stitcher.py: the helpers of the stitcher *)
Module stitcher_tools.
Import pytext.

Section audio.

(** pydub's [AudioSegment], as far as [_trim_trailing_silence] uses it:
    [len(audio)] in milliseconds, [audio[i:j]], and the test
    [audio.dBFS > threshold]. *)
Variable Audio : Type.
Variable alen : Audio -> Z.
Variable aslice : Audio -> Z -> Z -> Audio.
Variable above : Audio -> Z -> bool.

(** The loop [while end > chunk_size] of [_trim_trailing_silence]; it
    returns [end], or nothing when [fuel] turns were not enough. *)
Fixpoint trim_loop (fuel : nat) (audio : Audio) (threshold end_ : Z) : option Z :=
  match fuel with
  | O => None
  | S fuel' =>
      if (10 <? end_)%Z then
        if above (aslice audio (end_ - 10) end_) threshold then Some end_
        else trim_loop fuel' audio threshold (end_ - 10)
      else Some end_
  end.

(** [_trim_trailing_silence] *)
Definition _trim_trailing_silence (fuel : nat) (audio : Audio) (threshold : Z)
  : option Audio :=
  if (alen audio =? 0)%Z then Some audio
  else
    match trim_loop fuel audio threshold (alen audio) with
    | None => None
    | Some end_ => Some (if (0 <? end_)%Z then aslice audio 0 end_ else audio)
    end.

End audio.

Section metadata.

(** [len(AudioSegment.from_file(str(mp3_path)))]: the duration in
    milliseconds of the audio a file holds, or what the decoder raises. *)
Variable duration_ms : Content -> result Z.

(** The first loop of [_write_chapter_metadata]. *)
Fixpoint durations_of (d : FS) (mp3_paths : list Path) : result (list Z) :=
  match mp3_paths with
  | [] => Ok []
  | mp3_path :: rest =>
      match d mp3_path with
      | None => Raised (Exception "FileNotFoundError" (path_str mp3_path))
      | Some c =>
          match duration_ms c with
          | Raised e => Raised e
          | Ok duration =>
              match durations_of d rest with
              | Raised e => Raised e
              | Ok durations => Ok (duration :: durations)
              end
          end
      end
  end.

(** [titles[i] if i < len(titles) else f"Chapter {i + 1}"] *)
Definition marker_title (titles : list string) (i : Z) : string :=
  match titles !! Z.to_nat i with
  | Some t => t
  | None => "Chapter " +:+ str (i + 1)
  end.

(** What the five [f.write] calls of one turn write. *)
Definition chapter_block (start_ms end_ms : Z) (title : string) : string :=
  nl +:+ "[CHAPTER]" +:+ nl
  +:+ "TIMEBASE=1/1000" +:+ nl
  +:+ "START=" +:+ str start_ms +:+ nl
  +:+ "END=" +:+ str end_ms +:+ nl
  +:+ "title=" +:+ title +:+ nl.

(** One turn of [for i, duration in enumerate(durations_ms)], on what has
    been written and [start_ms]. *)
Definition metadata_step (titles : list string) (vars : string * Z) (entry : Z * Z)
  : string * Z :=
  let '(written, start_ms) := vars in
  let '(i, duration) := entry in
  let title := marker_title titles i in
  let end_ms := (start_ms + duration)%Z in
  (written +:+ chapter_block start_ms end_ms title, end_ms).

(** [_write_chapter_metadata] *)
Definition _write_chapter_metadata (mp3_paths : list Path) (titles : list string)
    (metadata_path : Path) : M unit :=
  d <- get_disk ;;
  durations_ms <- lift (durations_of d mp3_paths) ;;
  let '(written, _) :=
    foldl (metadata_step titles) (";FFMETADATA1" +:+ nl, 0%Z) (enumerate durations_ms) in
  update_disk (write metadata_path (Text written)).

End metadata.

End stitcher_tools.

(** ** webapp.py: the settings *)
Module webapp.
Import pytext llm.

(** The configuration object behind [_get_config()], the fields the
    settings routes touch. *)
Record WebConfig : Type := {
  cfg_clean : CleanConfig;
  cfg_synth : SynthConfig;
  cfg_api_keys : ApiKeys;
}.

(** [key[-4:]] *)
Definition last_four (key : string) : string :=
  substring (String.length key - 4) 4 key.

(** [mask] in [get_settings] *)
Definition mask (key : string) : string :=
  if negb (str_truthy key) then ""
  else if (len key <=? 8)%Z then "***"
  else slice key 0 4 +:+ "..." +:+ last_four key.

(** The JSON object [get_settings] returns. *)
Record Shown : Type := {
  shown_llm_model : string;
  shown_llm_backend : string;
  shown_tts_engine : string;
  shown_voice : string;
  shown_api_keys : gmap string string;
}.

(** [get_settings] *)
Definition get_settings (cfg : WebConfig) : Shown :=
  {| shown_llm_model := llm_model (cfg_clean cfg);
     shown_llm_backend := llm_backend (cfg_clean cfg);
     shown_tts_engine := tts_engine (cfg_synth cfg);
     shown_voice := voice (cfg_synth cfg);
     shown_api_keys :=
       <[ "openai" := mask (openai (cfg_api_keys cfg)) ]>
         (<[ "anthropic" := mask (anthropic (cfg_api_keys cfg)) ]>
            (<[ "elevenlabs" := mask (elevenlabs (cfg_api_keys cfg)) ]> ∅)) |}.

(** The body of a POST to [/settings], with strings for values: a key of
    the object may be absent. *)
Record Body : Type := {
  body_llm_model : option string;
  body_llm_backend : option string;
  body_tts_engine : option string;
  body_voice : option string;
  body_api_keys : option (gmap string string);
}.

(** [if "k" in body and body["k"]: field = body["k"]] *)
Definition set_if_truthy (posted : option string) (current : string) : string :=
  match posted with
  | Some v => if str_truthy v then v else current
  | None => current
  end.

(** [if keys.get(k) and "..." not in keys[k]: field = keys[k]] *)
Definition set_api_key (keys : gmap string string) (k : string) (current : string)
  : string :=
  match keys !! k with
  | Some v => if str_truthy v && negb (contains "..." v) then v else current
  | None => current
  end.

(** [if value: os.environ[name] = value] *)
Definition push_env (name value : string) (env : gmap string string)
  : gmap string string :=
  if str_truthy value then <[ name := value ]> env else env.

(** [update_settings], on the configuration and [os.environ]. *)
Definition update_settings (body : Body) (cfg : WebConfig) (env : gmap string string)
  : WebConfig * gmap string string :=
  let clean :=
    {| llm_model := set_if_truthy (body_llm_model body) (llm_model (cfg_clean cfg));
       llm_backend := match body_llm_backend body with
                      | Some v => v
                      | None => llm_backend (cfg_clean cfg)
                      end;
       skip_references := skip_references (cfg_clean cfg) |} in
  let synth :=
    {| tts_engine := set_if_truthy (body_tts_engine body) (tts_engine (cfg_synth cfg));
       voice := set_if_truthy (body_voice body) (voice (cfg_synth cfg));
       output_format := output_format (cfg_synth cfg);
       parallel_workers := parallel_workers (cfg_synth cfg) |} in
  (* Only update API keys if a new non-masked value is provided *)
  let keys := default ∅ (body_api_keys body) in
  let api_keys :=
    {| openai := set_api_key keys "openai" (openai (cfg_api_keys cfg));
       anthropic := set_api_key keys "anthropic" (anthropic (cfg_api_keys cfg));
       elevenlabs := set_api_key keys "elevenlabs" (elevenlabs (cfg_api_keys cfg)) |} in
  ({| cfg_clean := clean; cfg_synth := synth; cfg_api_keys := api_keys |},
   push_env "ELEVENLABS_API_KEY" (elevenlabs api_keys)
     (push_env "ANTHROPIC_API_KEY" (anthropic api_keys)
        (push_env "OPENAI_API_KEY" (openai api_keys) env))).

End webapp.

(* ================================================================== *)
(** * Part II: properties *)
(* ================================================================== *)

(** ** Attribute access on a status object *)
Module status_facts.

Lemma stage_cases (s : string) :
  s ∈ STAGES -> s = "parsed" \/ s = "cleaned" \/ s = "chunked" \/ s = "synthesized".
Proof.
  unfold STAGES. rewrite !elem_of_cons, elem_of_nil. tauto.
Qed.

Lemma setattr_field_ok (st : ChapterStatus) (s : string) :
  s ∈ STAGES -> exists st', setattr_True st s = Ok st'.
Proof.
  intros Hs. destruct (stage_cases s Hs) as [-> | [-> | [-> | ->]]];
    unfold setattr_True; simpl; eauto.
Qed.

(** What [setattr] does to a name that is no field. *)
Lemma setattr_other (st st' : ChapterStatus) (name : string) :
  name ∉ STAGES ->
  setattr_True st name = Ok st' ->
  (name ∉ read_only_names) /\
  st' = {| parsed := parsed st; cleaned := cleaned st; chunked := chunked st;
           synthesized := synthesized st;
           extra_attrs := {[ name ]} ∪ extra_attrs st |}.
Proof.
  unfold STAGES, setattr_True. intros Hs H.
  destruct (decide (name = "parsed")) as [-> | ?]; [set_solver |].
  destruct (decide (name = "cleaned")) as [-> | ?]; [set_solver |].
  destruct (decide (name = "chunked")) as [-> | ?]; [set_solver |].
  destruct (decide (name = "synthesized")) as [-> | ?]; [set_solver |].
  destruct (bool_decide (name ∈ read_only_names)) eqn:Hro; [discriminate |].
  apply bool_decide_eq_false_1 in Hro. split; [assumption | congruence].
Qed.

(** After [setattr(st, name, True)], [getattr(st, name, ...)] is [True]. *)
Lemma getattr_setattr_same (st st' : ChapterStatus) (name : string) (dflt : pyval) :
  setattr_True st name = Ok st' -> getattr st' name dflt = PyBool true.
Proof.
  intros H. destruct (decide (name ∈ STAGES)) as [Hs | Hs].
  - destruct (stage_cases name Hs) as [-> | [-> | [-> | ->]]];
      unfold setattr_True in H; simpl in H; injection H as <-; reflexivity.
  - destruct (setattr_other st st' name Hs H) as [_ ->].
    unfold getattr; simpl. unfold STAGES in Hs.
    repeat (case_decide; [set_solver |]).
    rewrite bool_decide_eq_true_2 by set_solver. reflexivity.
Qed.

(** [setattr] never turns an attribute that reads [True] into anything else. *)
Lemma getattr_setattr_mono (st st' : ChapterStatus) (t s : string) (dflt : pyval) :
  setattr_True st t = Ok st' ->
  getattr st s dflt = PyBool true -> getattr st' s dflt = PyBool true.
Proof.
  intros H Hs. destruct (decide (t ∈ STAGES)) as [Ht | Ht].
  - destruct (stage_cases t Ht) as [-> | [-> | [-> | ->]]];
      unfold setattr_True in H; simpl in H; injection H as <-;
      unfold getattr in *; simpl in *;
      repeat (case_decide; [first [ reflexivity | assumption ] |]);
      assumption.
  - destruct (setattr_other st st' t Ht H) as [_ ->].
    unfold getattr in *; simpl in *.
    repeat (case_decide; [assumption |]).
    destruct (bool_decide (s ∈ extra_attrs st)) eqn:Hin.
    + apply bool_decide_eq_true_1 in Hin.
      rewrite bool_decide_eq_true_2 by set_solver. reflexivity.
    + destruct (decide (s = t)) as [-> | Hne].
      * rewrite bool_decide_eq_true_2 by set_solver. reflexivity.
      * apply bool_decide_eq_false_1 in Hin.
        rewrite bool_decide_eq_false_2 by set_solver. assumption.
Qed.

(** A fresh status object reads [True] for nothing. *)
Lemma getattr_new_not_true (s : string) :
  getattr ChapterStatus_new s (PyBool false) <> PyBool true.
Proof.
  unfold getattr, ChapterStatus_new; simpl.
  repeat (case_decide; [discriminate |]).
  rewrite bool_decide_eq_false_2 by set_solver.
  unfold class_attr. case_decide; [discriminate |].
  destruct (bool_decide (s ∈ inherited_names)); discriminate.
Qed.

(** What [asdict] writes for a field is what [getattr] reads. *)
Lemma getattr_of_kwargs_asdict (st : ChapterStatus) (s : string) (dflt : pyval) :
  s ∈ STAGES ->
  getattr (ChapterStatus_of_kwargs (asdict st)) s dflt = getattr st s dflt.
Proof.
  intros Hs. destruct (stage_cases s Hs) as [-> | [-> | [-> | ->]]];
    reflexivity.
Qed.

Lemma asdict_kwargs_ok (st : ChapterStatus) : kwargs_ok (asdict st).
Proof.
  unfold kwargs_ok, asdict, STAGES.
  rewrite !dom_insert_L, dom_empty_L. set_solver.
Qed.

End status_facts.

(** ** checkpoint.py: [mark], [is_done], [save], [load_or_create] *)
Module checkpoint_facts.
Import status_facts.

(** [mark] with one of the four stage names does not raise, and saves. *)
Lemma mark_stage_ok (c : Checkpoint) (i : Z) (s : string) (d : FS) :
  s ∈ STAGES -> exists c', mark c i s d = (Ok tt, c', save c' d).
Proof.
  intros Hs. unfold mark.
  destruct (setattr_field_ok (default ChapterStatus_new (chapters c !! str i)) s Hs)
    as [st' ->].
  eauto.
Qed.

Lemma is_done_mark_same (c c' : Checkpoint) (i : Z) (s : string) (d d' : FS) :
  mark c i s d = (Ok tt, c', d') -> is_done c' i s = PyBool true.
Proof.
  unfold mark.
  destruct (setattr_True _ s) as [st' | e] eqn:Hset; [| discriminate].
  intros [= <- <-]. unfold is_done; simpl.
  rewrite lookup_insert_eq. eapply getattr_setattr_same; eassumption.
Qed.

(** Whatever [mark] does, and whether or not it raises, a flag that reads
    [True] before it reads [True] after it. *)
Lemma is_done_mark_mono (c c' : Checkpoint) (j : Z) (t : string) (d d' : FS)
    (r : result unit) (i : Z) (s : string) :
  mark c j t d = (r, c', d') ->
  is_done c i s = PyBool true -> is_done c' i s = PyBool true.
Proof.
  unfold mark, is_done. intros Hm Hd.
  destruct (chapters c !! str i) as [sti |] eqn:Hi; [| discriminate].
  destruct (setattr_True _ t) as [st' | e] eqn:Hset;
    injection Hm as <- <- <-; simpl.
  - destruct (decide (str j = str i)) as [Heq | Hne].
    + rewrite Heq in *. rewrite lookup_insert_eq. rewrite Hi in Hset. simpl in Hset.
      eapply getattr_setattr_mono; eassumption.
    + rewrite lookup_insert_ne by assumption. rewrite Hi. assumption.
  - destruct (decide (str j = str i)) as [Heq | Hne].
    + rewrite Heq in *. rewrite lookup_insert_eq. rewrite Hi. simpl. assumption.
    + rewrite lookup_insert_ne by assumption. rewrite Hi. assumption.
Qed.


Lemma hash_file_same_entry (C : Collaborators) (p : Path) (d d' : FS) :
  d' p = d p -> _hash_file C p d' = _hash_file C p d.
Proof.
  intros H. unfold _hash_file, read_binary. rewrite H. reflexivity.
Qed.

(** What [load_or_create] returns is bound to the checkpoint path, and
    carries the fingerprint of the source. *)
Lemma load_or_create_bound (C : Collaborators) (cpath pdf : Path) (d : FS)
    (c : Checkpoint) :
  load_or_create C cpath pdf d = Ok c ->
  _path c = Some cpath /\ _hash_file C pdf d = Ok (pdf_hash c).
Proof.
  unfold load_or_create.
  destruct (_hash_file C pdf d) as [h | e]; [| discriminate].
  destruct (path_exists cpath d).
  - destruct (read_json cpath d) as [data | e]; [| discriminate].
    destruct (decide (doc_pdf_hash data = Some h)).
    + destruct (decide (map_Forall _ _)); [| discriminate].
      intros [= <-]. split; reflexivity.
    + intros [= <-]. split; reflexivity.
  - intros [= <-]. split; reflexivity.
Qed.

(** Loading the file [save] wrote gives back every stage flag. *)
Lemma reload_saved (C : Collaborators) (cpath pdf : Path) (d : FS) (c : Checkpoint) :
  d cpath = Some (CheckpointJson (to_doc c)) ->
  _hash_file C pdf d = Ok (pdf_hash c) ->
  exists c2,
    load_or_create C cpath pdf d = Ok c2 /\
    chapters c2 = ChapterStatus_of_kwargs <$> (asdict <$> chapters c) /\
    _path c2 = Some cpath /\
    forall (j : Z) (t : string), t ∈ STAGES -> is_done c2 j t = is_done c j t.
Proof.
  intros Hfile Hhash. unfold load_or_create, path_exists, read_json.
  rewrite Hhash, Hfile. simpl.
  rewrite decide_True by reflexivity.
  rewrite decide_True.
  2:{ apply map_Forall_fmap. intros k v _. apply asdict_kwargs_ok. }
  eexists. split; [reflexivity |]. simpl. repeat split.
  intros j t Ht. unfold is_done; simpl.
  rewrite !lookup_fmap.
  destruct (chapters c !! str j) as [st |]; simpl; [| reflexivity].
  apply getattr_of_kwargs_asdict. assumption.
Qed.

Lemma save_bound_entry (c : Checkpoint) (cpath : Path) (d : FS) :
  _path c = Some cpath -> save c d cpath = Some (CheckpointJson (to_doc c)).
Proof.
  intros H. unfold save. rewrite H. unfold write.
  rewrite decide_True by reflexivity. reflexivity.
Qed.

(** C2. For a checkpoint [c0] created by [load_or_create], a chapter index
    [i] and one of the four stages [s]: [mark(i, s)] returns, after it
    [is_done(i, s)] is true on that checkpoint, and when the source file is
    unchanged, [load_or_create] on the same checkpoint path returns a
    checkpoint on which [is_done(i, s)] is true too; indeed every stage
    flag of every chapter reads on the reloaded checkpoint as it did on
    the saved one. *)
Theorem mark_then_is_done_after_reload (C : Collaborators) (cpath pdf : Path)
    (d0 : FS) (c0 : Checkpoint) (i : Z) (s : string) (d : FS) :
  load_or_create C cpath pdf d0 = Ok c0 ->
  s ∈ STAGES ->
  exists (c1 : Checkpoint) (d1 : FS),
    mark c0 i s d = (Ok tt, c1, d1) /\
    is_done c1 i s = PyBool true /\
    (d1 pdf = d0 pdf ->
     exists c2 : Checkpoint,
       load_or_create C cpath pdf d1 = Ok c2 /\
       is_done c2 i s = PyBool true /\
       forall (j : Z) (t : string), t ∈ STAGES -> is_done c2 j t = is_done c1 j t).
Proof.
  intros Hload Hs.
  destruct (load_or_create_bound _ _ _ _ _ Hload) as [Hpath Hhash].
  destruct (mark_stage_ok c0 i s d Hs) as [c1 Hmark].
  exists c1, (save c1 d). split; [assumption |].
  assert (Hdone : is_done c1 i s = PyBool true)
    by (eapply is_done_mark_same; eassumption).
  split; [assumption |].
  intros Hsrc.
  assert (Hc1 : _path c1 = Some cpath /\ pdf_hash c1 = pdf_hash c0).
  { unfold mark in Hmark. destruct (setattr_True _ s); [| discriminate].
    injection Hmark as <- _. split; [assumption | reflexivity]. }
  destruct Hc1 as [Hpath1 Hhash1].
  destruct (reload_saved C cpath pdf (save c1 d) c1) as (c2 & Hre & _ & _ & Hflags).
  - apply save_bound_entry. assumption.
  - rewrite Hhash1, <- Hhash. apply hash_file_same_entry. assumption.
  - exists c2. split; [assumption |]. split; [| assumption].
    rewrite Hflags by assumption. assumption.
Qed.



End checkpoint_facts.

(** ** checkpoint.py: concrete runs, and [is_done] on arbitrary names *)
Module checkpoint_runs.
Import status_facts checkpoint_facts.










(** A concrete run of C2: create, mark, reload. *)
Lemma mark_then_is_done_after_reload_witness :
  exists (c0 c1 : Checkpoint) (d1 : FS) (c2 : Checkpoint),
    load_or_create demo_collaborators checkpoint_file pdf_file (pdf_disk [x01]) = Ok c0 /\
    mark c0 3 "cleaned" (pdf_disk [x01]) = (Ok tt, c1, d1) /\
    is_done c1 3 "cleaned" = PyBool true /\
    load_or_create demo_collaborators checkpoint_file pdf_file d1 = Ok c2 /\
    is_done c2 3 "cleaned" = PyBool true.
Proof.
  assert (Hs : "cleaned" ∈ STAGES) by (unfold STAGES; set_solver).
  destruct (mark_then_is_done_after_reload demo_collaborators checkpoint_file pdf_file
              (pdf_disk [x01]) _ 3 "cleaned" (pdf_disk [x01]) eq_refl Hs)
    as (c1 & d1 & Hmark & Hdone & Hreload).
  assert (Hunchanged : d1 pdf_file = pdf_disk [x01] pdf_file).
  { unfold mark in Hmark. simpl in Hmark. injection Hmark as _ <-. reflexivity. }
  destruct (Hreload Hunchanged) as (c2 & Hload2 & Hdone2 & _).
  eexists _, c1, d1, c2. repeat split; try eassumption.
Defined.



End checkpoint_runs.

(** ** Stage flags only ever go from false to true *)
Module flags_monotone.
Import status_facts checkpoint_facts.

(** [c'] has every flag that reads [True] on [c]. *)
Definition keeps_flags (c c' : Checkpoint) : Prop :=
  forall (i : Z) (s : string), is_done c i s = PyBool true -> is_done c' i s = PyBool true.

(** Running [m], to a result or to an exception, clears no flag. *)
Definition monotone {A : Type} (m : M A) : Prop :=
  forall s : State, keeps_flags (ckpt s) (ckpt (snd (m s))).

Lemma keeps_flags_refl (c : Checkpoint) : keeps_flags c c.
Proof. intros i s H. exact H. Qed.

Lemma keeps_flags_trans (c1 c2 c3 : Checkpoint) :
  keeps_flags c1 c2 -> keeps_flags c2 c3 -> keeps_flags c1 c3.
Proof. intros H12 H23 i s H. apply H23, H12, H. Qed.

Lemma monotone_ret {A : Type} (a : A) : monotone (ret a).
Proof. intros s. apply keeps_flags_refl. Qed.

Lemma monotone_raise {A : Type} (e : exn) : monotone (@raise A e).
Proof. intros s. apply keeps_flags_refl. Qed.

Lemma monotone_lift {A : Type} (r : result A) : monotone (lift r).
Proof. intros s. apply keeps_flags_refl. Qed.

Lemma monotone_bind {A B : Type} (m : M A) (k : A -> M B) :
  monotone m -> (forall a, monotone (k a)) -> monotone (bind m k).
Proof.
  intros Hm Hk s. unfold bind. specialize (Hm s).
  destruct (m s) as [[a | e] s'] eqn:Hms; simpl in *.
  - eapply keeps_flags_trans; [exact Hm | apply Hk].
  - exact Hm.
Qed.

Lemma monotone_try_except {A : Type} (m : M A) (h : exn -> M A) :
  monotone m -> (forall e, monotone (h e)) -> monotone (try_except m h).
Proof.
  intros Hm Hh s. unfold try_except. specialize (Hm s).
  destruct (m s) as [[a | e] s'] eqn:Hms; simpl in *.
  - exact Hm.
  - eapply keeps_flags_trans; [exact Hm | apply Hh].
Qed.

Lemma monotone_emit_event (ev : Event) : monotone (emit_event ev).
Proof. intros s. apply keeps_flags_refl. Qed.

Lemma monotone_progress (kind msg : string) : monotone (progress kind msg).
Proof. apply monotone_emit_event. Qed.

Lemma monotone_on_disk {A : Type} (f : FS -> result A * FS) : monotone (on_disk f).
Proof. intros s. unfold on_disk. destruct (f (disk s)). apply keeps_flags_refl. Qed.

Lemma monotone_update_disk (f : FS -> FS) : monotone (update_disk f).
Proof. intros s. apply keeps_flags_refl. Qed.

Lemma monotone_get_disk : monotone get_disk.
Proof. intros s. apply keeps_flags_refl. Qed.

Lemma monotone_checkpoint_is_done (i : Z) (stage : string) :
  monotone (checkpoint_is_done i stage).
Proof. intros s. apply keeps_flags_refl. Qed.

Lemma monotone_checkpoint_save : monotone checkpoint_save.
Proof. intros s. apply keeps_flags_refl. Qed.

Lemma monotone_checkpoint_mark (j : Z) (t : string) : monotone (checkpoint_mark j t).
Proof.
  intros s i stage H. unfold checkpoint_mark.
  destruct (mark (ckpt s) j t (disk s)) as [[r c'] d'] eqn:Hm. simpl.
  eapply is_done_mark_mono; eassumption.
Qed.

Lemma monotone_for_each {A : Type} (xs : list A) (body : A -> M unit) :
  (forall x, monotone (body x)) -> monotone (for_each xs body).
Proof.
  intros Hb. induction xs as [| x xs IH]; simpl.
  - apply monotone_ret.
  - apply monotone_bind; [apply Hb | intros _; exact IH].
Qed.

(** One step of a proof that a composed action is monotone. *)
Ltac monotone_step :=
  match goal with
  | |- monotone (bind _ _) => apply monotone_bind; [| intros ?]
  | |- monotone (try_except _ _) => apply monotone_try_except; [| intros ?]
  | |- monotone (ret _) => apply monotone_ret
  | |- monotone (raise _) => apply monotone_raise
  | |- monotone (lift _) => apply monotone_lift
  | |- monotone (emit_event _) => apply monotone_emit_event
  | |- monotone (_emit _ _) => apply monotone_emit_event
  | |- monotone (progress _ _) => apply monotone_progress
  | |- monotone (on_disk _) => apply monotone_on_disk
  | |- monotone (update_disk _) => apply monotone_update_disk
  | |- monotone get_disk => apply monotone_get_disk
  | |- monotone (checkpoint_is_done _ _) => apply monotone_checkpoint_is_done
  | |- monotone (checkpoint_mark _ _) => apply monotone_checkpoint_mark
  | |- monotone checkpoint_save => apply monotone_checkpoint_save
  | |- monotone (for_each _ _) => apply monotone_for_each; intros ?
  | |- monotone (match ?x with _ => _ end) => destruct x
  | |- monotone (let '_ := ?x in _) => destruct x
  end.

Ltac monotone_auto := repeat (monotone_step; try assumption).

Lemma monotone_synth_one_chunk (engine : TTSEngine) (text : string) (out : Path) :
  monotone (_synth_one_chunk engine text out).
Proof. unfold _synth_one_chunk. monotone_auto. Qed.

Lemma monotone_from_json (p : Path) : monotone (from_json p).
Proof. unfold from_json. monotone_auto. Qed.

Lemma monotone_stitch_chapter (C : Collaborators) (dir : Path) (cc : ChapterChunks)
    (out : Path) :
  monotone (stitch_chapter C dir cc out).
Proof. unfold stitch_chapter. monotone_auto. Qed.

Lemma monotone_synth_sequential (engine : TTSEngine) (items : list WorkItem) (n : Z) :
  monotone (synth_sequential engine items n).
Proof.
  revert n. induction items as [| [[i text] wav] rest IH]; intros n; simpl.
  - apply monotone_ret.
  - apply monotone_bind; [apply monotone_synth_one_chunk |].
    intros [path err]. destruct (str_truthy err); [| apply IH].
    apply monotone_bind; [apply monotone_progress | intros _; apply IH].
Qed.

Lemma monotone_synth_pool (engine : TTSEngine) (items : list WorkItem) (n : Z) :
  monotone (synth_pool engine items n).
Proof.
  revert n. induction items as [| [[i text] wav] rest IH]; intros n; simpl.
  - apply monotone_ret.
  - apply monotone_bind; [apply monotone_synth_one_chunk |].
    intros [path err]. destruct (str_truthy err); [| apply IH].
    apply monotone_bind; [apply monotone_progress | intros _; apply IH].
Qed.

Lemma monotone_synthesize_one_chapter (C : Collaborators) (ch_idx : Z)
    (chunk_path audio_dir : Path) (config : Config) (engine : option TTSEngine) :
  monotone (synthesize_one_chapter C ch_idx chunk_path audio_dir config engine).
Proof.
  unfold synthesize_one_chapter.
  apply monotone_bind; [destruct engine; monotone_auto |]. intros e.
  apply monotone_bind; [apply monotone_from_json |]. intros cc.
  destruct (chunks cc); [apply monotone_ret |].
  apply monotone_bind; [apply monotone_get_disk |]. intros d.
  apply monotone_bind.
  - destruct (build_work_items _ _ d); [apply monotone_ret |].
    destruct (_ <=? 1)%Z; [apply monotone_synth_sequential | apply monotone_synth_pool].
  - intros n. destruct (_ && _); [apply monotone_raise |].
    apply monotone_bind; [apply monotone_stitch_chapter | intros _; apply monotone_ret].
Qed.

Lemma monotone_process_chapter (C : Collaborators) (self : StreamingPipeline)
    (chapter : Chapter) :
  monotone (_process_chapter C self chapter).
Proof.
  unfold _process_chapter.
  repeat first
    [ apply monotone_synthesize_one_chapter
    | monotone_step
    | match goal with |- monotone (if ?b then _ else _) => destruct b end ].
Qed.

Lemma monotone_collect (C : Collaborators) (self : StreamingPipeline)
    (order : list Chapter) (acc : gmap Z ChapterResult) :
  monotone (collect C self order acc).
Proof.
  revert acc. induction order as [| ch rest IH]; intros acc; simpl.
  - apply monotone_ret.
  - apply monotone_bind; [| intros acc'; apply IH].
    apply monotone_try_except.
    + apply monotone_bind; [apply monotone_process_chapter | intros r; apply monotone_ret].
    + intros e. monotone_auto.
Qed.

Lemma monotone_run (C : Collaborators) (self : StreamingPipeline) : monotone (run C self).
Proof.
  unfold run. apply monotone_bind; [apply monotone_progress | intros _].
  apply monotone_bind; [apply monotone_collect | intros acc].
  monotone_auto.
Qed.

(** C8. Once [is_done(i, s)] is true it stays true: under [mark] on any
    index and stage name (whether [mark] returns or raises; it only sets
    an attribute to [True] and clears none), under [save], under the
    scheduler's processing of any chapter, and under a whole [run]. *)
Theorem stage_flags_monotonic (C : Collaborators) (self : StreamingPipeline)
    (chapter : Chapter) (st : State) (i : Z) (s : string) :
  is_done (ckpt st) i s = PyBool true ->
  (forall (j : Z) (t : string) (r : result unit) (c' : Checkpoint) (d' : FS),
     mark (ckpt st) j t (disk st) = (r, c', d') -> is_done c' i s = PyBool true) /\
  is_done (ckpt (snd (checkpoint_save st))) i s = PyBool true /\
  is_done (ckpt (snd (_process_chapter C self chapter st))) i s = PyBool true /\
  is_done (ckpt (snd (run C self st))) i s = PyBool true.
Proof.
  intros H. repeat split.
  - intros j t r c' d' Hm. eapply is_done_mark_mono; eassumption.
  - exact H.
  - apply monotone_process_chapter. exact H.
  - apply monotone_run. exact H.
Qed.

End flags_monotone.

(** ** streaming.py: a chapter whose stages are all done *)
Module skip_if_done.
Import flags_monotone.

(** The events that record a call of a stage function, of the engine, or of
    the stitcher. *)
Definition is_call (ev : Event) : bool :=
  match ev with
  | StageCall _ _ | EngineCall _ _ | StitchCall _ _ => true
  | Emit _ _ | ProgressMsg _ _ => false
  end.

Example format_0d_examples :
  format_0d 3 7 = "007" /\ format_0d 3 42 = "042" /\ format_0d 3 1234 = "1234"
  /\ chapter_name 7 ".txt" = "chapter_007.txt".
Proof. repeat split; reflexivity. Qed.

(** C1. When [cleaned], [chunked] and [synthesized] are all marked done for
    the chapter's index [i], [_process_chapter] calls no stage function (nor
    the engine, nor the stitcher): it returns a [ChapterResult] whose three
    paths are [cleaned/chapter_{i:03d}.txt], [chunks/chapter_{i:03d}.json]
    and [audio/chapter_{i:03d}.mp3] under the output directory, with
    [error = None]; the checkpoint and the disk are untouched, and only
    notifications are added to the log. *)
Theorem process_chapter_skips_done (C : Collaborators) (self : StreamingPipeline)
    (chapter : Chapter) (st : State) :
  truthy (is_done (ckpt st) (index chapter) "cleaned") = true ->
  truthy (is_done (ckpt st) (index chapter) "chunked") = true ->
  truthy (is_done (ckpt st) (index chapter) "synthesized") = true ->
  exists notifications : list Event,
    _process_chapter C self chapter st
    = (Ok {| result_index := index chapter;
             cleaned_path :=
               Some (_output_dir self // "cleaned"
                     // ("chapter_" +:+ format_0d 3 (index chapter) +:+ ".txt"));
             chunk_path :=
               Some (_output_dir self // "chunks"
                     // ("chapter_" +:+ format_0d 3 (index chapter) +:+ ".json"));
             audio_path :=
               Some (_output_dir self // "audio"
                     // ("chapter_" +:+ format_0d 3 (index chapter) +:+ ".mp3"));
             error := None |},
       {| ckpt := ckpt st; disk := disk st; log := log st ++ notifications |})
    /\ Forall (fun ev => is_call ev = false) notifications.
Proof.
  intros Hclean Hchunk Hsynth.
  unfold _process_chapter, bind, checkpoint_is_done, _emit, emit_event, progress, ret.
  simpl. rewrite Hclean. simpl. rewrite Hchunk. simpl. rewrite Hsynth. simpl.
  eexists. split.
  - rewrite <- !app_assoc. simpl. reflexivity.
  - repeat constructor.
Qed.

(** A resumed chapter: all three stages were marked in an earlier run. *)
Lemma process_chapter_skips_done_witness :
  exists notifications : list Event,
    _process_chapter demo_collaborators (demo_pipeline [demo_chapter 5 "Five"] 1)
      (demo_chapter 5 "Five") (all_done_state 5)
    = (Ok {| result_index := 5;
             cleaned_path := Some ["out"; "cleaned"; "chapter_005.txt"];
             chunk_path := Some ["out"; "chunks"; "chapter_005.json"];
             audio_path := Some ["out"; "audio"; "chapter_005.mp3"];
             error := None |},
       {| ckpt := ckpt (all_done_state 5); disk := disk (all_done_state 5);
          log := log (all_done_state 5) ++ notifications |})
    /\ Forall (fun ev => is_call ev = false) notifications.
Proof.
  exact (process_chapter_skips_done demo_collaborators
           (demo_pipeline [demo_chapter 5 "Five"] 1) (demo_chapter 5 "Five")
           (all_done_state 5) eq_refl eq_refl eq_refl).
Defined.

(** A flag set in an earlier run is still set after the chapter, and the
    other chapters, have been processed. *)
Lemma stage_flags_monotonic_witness :
  is_done (ckpt (snd (run demo_collaborators
                        (demo_pipeline [demo_chapter 4 "Four"; demo_chapter 5 "Five"] 1)
                        (all_done_state 5))))
          5 "cleaned" = PyBool true.
Proof.
  apply (stage_flags_monotonic demo_collaborators
           (demo_pipeline [demo_chapter 4 "Four"; demo_chapter 5 "Five"] 1)
           (demo_chapter 5 "Five") (all_done_state 5) 5 "cleaned" eq_refl).
Defined.

End skip_if_done.

(** ** streaming.py: a failing chapter is a result, not an exception *)
Module failure_isolation.

(** What the loop of [run] stores for a chapter whose work ended in [r]. *)
Definition stored (ch_idx : Z) (r : result ChapterResult) : ChapterResult :=
  match r with
  | Ok res => res
  | Raised e => failed_result ch_idx e
  end.

(** The state after the loop's turn for [ch]: that of the chapter's work,
    with the two notifications of the handler when the work raised. *)
Definition after_turn (C : Collaborators) (self : StreamingPipeline) (ch : Chapter)
    (s : State) : State :=
  match _process_chapter C self ch s with
  | (Ok _, s1) => s1
  | (Raised e, s1) =>
      {| ckpt := ckpt s1; disk := disk s1;
         log := (log s1
                 ++ [ProgressMsg "error"
                       ("Chapter " +:+ str (index ch) +:+ " failed: " +:+ exn_str e)])
                ++ [Emit "chapter_error"
                      [("index", str (index ch)); ("error", exn_str e)]] |}
  end.

(** The start of [run]: the message that announces the pool. *)
Definition announced (self : StreamingPipeline) (s : State) : State :=
  snd (progress "detail"
         ("Streaming pipeline: " +:+ str (Z.of_nat (length (_chapters self)))
          +:+ " chapters, " +:+ str (_max_concurrent self) +:+ " concurrent workers") s).

Section loop.
Variable C : Collaborators.
Variable self : StreamingPipeline.

(** One turn of the loop never raises, whatever the chapter's work did. *)
Lemma collect_cons (ch : Chapter) (rest : list Chapter) (acc : gmap Z ChapterResult)
    (s : State) :
  collect C self (ch :: rest) acc s
  = collect C self rest
      (<[ index ch := stored (index ch) (fst (_process_chapter C self ch s)) ]> acc)
      (after_turn C self ch s).
Proof.
  cbn [collect]. unfold bind at 1. unfold try_except, after_turn.
  unfold bind at 1.
  destruct (_process_chapter C self ch s) as [[res | e] s1]; reflexivity.
Qed.

Lemma collect_returns (order : list Chapter) (acc : gmap Z ChapterResult) (s : State) :
  exists (acc' : gmap Z ChapterResult) (s' : State),
    collect C self order acc s = (Ok acc', s').
Proof.
  revert acc s. induction order as [| ch rest IH]; intros acc s.
  - eexists _, _. reflexivity.
  - rewrite collect_cons. apply IH.
Qed.

Lemma collect_app (pre post : list Chapter) (acc acc_k : gmap Z ChapterResult)
    (s s_k : State) :
  collect C self pre acc s = (Ok acc_k, s_k) ->
  collect C self (pre ++ post) acc s = collect C self post acc_k s_k.
Proof.
  revert acc s. induction pre as [| ch pre IH]; intros acc s H.
  - cbn in H. injection H as <- <-. reflexivity.
  - rewrite <- app_comm_cons, collect_cons. rewrite collect_cons in H.
    apply IH. exact H.
Qed.

(** The loop changes only the entries of the chapters it is given. *)
Lemma collect_lookup_other (order : list Chapter) (acc acc' : gmap Z ChapterResult)
    (s s' : State) (idx : Z) :
  (forall ch, ch ∈ order -> index ch <> idx) ->
  collect C self order acc s = (Ok acc', s') ->
  acc' !! idx = acc !! idx.
Proof.
  revert acc s. induction order as [| ch rest IH]; intros acc s Hne H.
  - cbn in H. injection H as <- <-. reflexivity.
  - rewrite collect_cons in H. rewrite (IH _ _ ltac:(intros; apply Hne; set_solver) H).
    apply lookup_insert_ne. apply Hne. set_solver.
Qed.

Lemma collect_domain (order : list Chapter) (acc acc' : gmap Z ChapterResult)
    (s s' : State) (idx : Z) :
  collect C self order acc s = (Ok acc', s') ->
  is_Some (acc' !! idx)
  <-> is_Some (acc !! idx) \/ exists ch, ch ∈ order /\ index ch = idx.
Proof.
  revert acc s. induction order as [| ch rest IH]; intros acc s H.
  - cbn in H. injection H as <- <-. split; [auto |].
    intros [? | (ch & Hin & _)]; [assumption | set_solver].
  - rewrite collect_cons in H. rewrite (IH _ _ H).
    destruct (decide (index ch = idx)) as [Heq | Hne].
    + rewrite <- Heq, lookup_insert_eq. split.
      * intros _. right. exists ch. split; [set_solver | reflexivity].
      * intros _. left. eauto.
    + rewrite lookup_insert_ne by assumption. split.
      * intros [? | (ch' & Hin & Hidx)]; [auto |].
        right. exists ch'. split; [set_solver | assumption].
      * intros [? | (ch' & Hin & Hidx)]; [auto |].
        apply elem_of_cons in Hin as [-> | Hin]; [contradiction |].
        right. eauto.
Qed.

(** The chapter whose turn comes after [pre] is processed in the state the
    turns of [pre] left, and its entry holds what that processing gave
    unless a later chapter has the same index. *)
Lemma collect_entry (pre post : list Chapter) (ch : Chapter)
    (acc acc' : gmap Z ChapterResult) (s s' : State) :
  collect C self (pre ++ ch :: post) acc s = (Ok acc', s') ->
  exists (acc_k : gmap Z ChapterResult) (s_k : State),
    collect C self pre acc s = (Ok acc_k, s_k) /\
    ((forall ch', ch' ∈ post -> index ch' <> index ch) ->
     acc' !! index ch = Some (stored (index ch) (fst (_process_chapter C self ch s_k)))).
Proof.
  intros H.
  destruct (collect_returns pre acc s) as (acc_k & s_k & Hpre).
  exists acc_k, s_k. split; [exact Hpre |].
  intros Hlast.
  rewrite (collect_app _ _ _ _ _ _ Hpre), collect_cons in H.
  rewrite (collect_lookup_other _ _ _ _ _ _ Hlast H).
  apply lookup_insert_eq.
Qed.

End loop.

(** C4. [run] returns and does not raise, whatever the chapters' work
    raises.  The result map has an entry for the index of every chapter,
    and for no other index.  Each chapter is processed when its turn comes,
    in the state the earlier turns left, whether those succeeded or failed;
    and, unless a chapter that completes later has the same index, the
    entry of its index is the result of its processing when that returned,
    and a [ChapterResult] with [error = str(e)] and no paths when it raised
    [e]. *)
Theorem run_isolates_failures (C : Collaborators) (self : StreamingPipeline) (st : State) :
  fair C ->
  exists (results : gmap Z ChapterResult) (st' : State),
    run C self st = (Ok results, st') /\
    (forall ch, ch ∈ _chapters self -> is_Some (results !! index ch)) /\
    (forall idx, is_Some (results !! idx) ->
                 exists ch, ch ∈ _chapters self /\ index ch = idx) /\
    (forall (pre post : list Chapter) (ch : Chapter),
       as_completed C Chapter (_chapters self) = pre ++ ch :: post ->
       exists (acc_k : gmap Z ChapterResult) (s_k : State),
         collect C self pre ∅ (announced self st) = (Ok acc_k, s_k) /\
         ((forall ch', ch' ∈ post -> index ch' <> index ch) ->
          match fst (_process_chapter C self ch s_k) with
          | Ok res => results !! index ch = Some res
          | Raised e =>
              results !! index ch
              = Some {| result_index := index ch; cleaned_path := None;
                        chunk_path := None; audio_path := None;
                        error := Some (exn_str e) |}
          end)).
Proof.
  intros Hfair.
  destruct (collect_returns C self (as_completed C Chapter (_chapters self)) ∅
              (announced self st)) as (results & s1 & Hcollect).
  eexists results, _. split.
  { unfold run. unfold bind at 1. unfold progress at 1, emit_event at 1.
    unfold bind at 1. unfold announced, progress, emit_event in Hcollect.
    cbn [snd] in Hcollect. rewrite Hcollect.
    unfold bind, _emit, emit_event, ret. reflexivity. }
  assert (Hmem : forall ch, ch ∈ as_completed C Chapter (_chapters self)
                            <-> ch ∈ _chapters self).
  { intros ch. rewrite (Hfair Chapter (_chapters self)). reflexivity. }
  split.
  { intros ch Hin. apply (collect_domain _ _ _ _ _ _ _ _ Hcollect).
    right. exists ch. split; [apply Hmem; exact Hin | reflexivity]. }
  split.
  { intros idx Hsome. apply (collect_domain _ _ _ _ _ _ _ _ Hcollect) in Hsome.
    destruct Hsome as [Hempty | (ch & Hin & Hidx)].
    - rewrite lookup_empty in Hempty. destruct Hempty as [? [=]].
    - exists ch. split; [apply Hmem; exact Hin | exact Hidx]. }
  intros pre post ch Horder. rewrite Horder in Hcollect.
  destruct (collect_entry _ _ _ _ _ _ _ _ _ Hcollect) as (acc_k & s_k & Hpre & Hentry).
  exists acc_k, s_k. split; [exact Hpre |].
  intros Hlast. specialize (Hentry Hlast).
  destruct (fst (_process_chapter C self ch s_k)); exact Hentry.
Qed.

Lemma demo_collaborators_fair : fair demo_collaborators.
Proof. intros A l. apply reverse_Permutation. Qed.

(** Three chapters, the second of which cannot be cleaned: the run returns,
    the failure is the entry of index 1, and the other two went through. *)
Lemma run_isolates_failures_witness :
  exists (results : gmap Z ChapterResult) (st' : State),
    run demo_collaborators
      (demo_pipeline [demo_chapter 0 "A"; demo_chapter 1 "broken"; demo_chapter 2 "B"] 1)
      blank_state = (Ok results, st') /\
    error <$> results !! 1%Z = Some (Some "cleaning failed") /\
    error <$> results !! 0%Z = Some None /\
    error <$> results !! 2%Z = Some None.
Proof.
  destruct (run_isolates_failures demo_collaborators
              (demo_pipeline [demo_chapter 0 "A"; demo_chapter 1 "broken"; demo_chapter 2 "B"] 1)
              blank_state demo_collaborators_fair)
    as (results & st' & Hrun & _).
  exists results, st'. split; [exact Hrun |].
  vm_compute in Hrun. injection Hrun as <- _.
  repeat split; reflexivity.
Defined.

End failure_isolation.

(** ** synth/synthesizer.py: when a chapter's synthesis is given up *)
Module escalation.

(** What one call of [_synth_one_chunk] does to the disk, and the error
    string it returns: empty when the engine returned. *)
Definition attempt (engine : TTSEngine) (text : string) (out : Path) (d : FS)
  : string * FS :=
  match synthesize engine text out (mkdir_parents (parent out) d) with
  | (Ok _, d') => ("", d')
  | (Raised e, d') => (exn_str e, d')
  end.




Lemma synth_one_chunk_spec (engine : TTSEngine) (text : string) (out : Path) (s : State) :
  _synth_one_chunk engine text out s
  = (Ok (out, fst (attempt engine text out (disk s))),
     {| ckpt := ckpt s; disk := snd (attempt engine text out (disk s));
        log := log s ++ [EngineCall text out] |}).
Proof.
  unfold _synth_one_chunk, try_except, bind, update_disk, emit_event, on_disk, attempt, ret.
  simpl. destruct (synthesize engine text out _) as [[p | e] d']; reflexivity.
Qed.









End escalation.

(** ** synth/synthesizer.py: concrete chapters *)
Module escalation_runs.
Import failure_isolation escalation.

Definition audio : Path := ["out"; "audio"].






End escalation_runs.

(** ** synth/synthesizer.py: a chapter without chunks *)
Module empty_chapter.
Import status_facts checkpoint_facts flags_monotone escalation_runs.














End empty_chapter.

(** ** Threads: how many engine calls can be in flight *)
Module serialization.

(** The sum of a weight over the chapters' phases. *)
Definition total (f : Phase -> nat) (ps : list Phase) : nat :=
  foldr (fun p n => f p + n) 0 ps.














(** The default configuration on a machine with four processors gives the
    pool four threads. *)
Example default_worker_count :
  _get_worker_count demo_collaborators (demo_config "kokoro" 0) = 4%Z.
Proof. reflexivity. Qed.




End serialization.

(** ** Artifact names: [chapter_{i:03d}{ext}] can be read back *)
Module names.

(** The value of a decimal digit: the characters from code 48 to 57. *)
Definition digit_value (c : ascii) : option N :=
  let code := N_of_ascii c in
  if ((48 <=? code) && (code <=? 57))%N then Some (code - 48)%N else None.

(** Reads the longest run of digits at the head of [s]: the number it
    denotes after [acc], and what follows it. *)
Fixpoint read_number (acc : N) (s : string) : N * string :=
  match s with
  | "" => (acc, "")
  | String c s' =>
      match digit_value c with
      | Some d => read_number (acc * 10 + d) s'
      | None => (acc, s)
      end
  end.

(** A string at which reading a number stops: an extension, or nothing. *)
Definition stops (e : string) : Prop :=
  match e with
  | "" => True
  | String c _ => digit_value c = None
  end.

Lemma append_cons (c : ascii) (s t : string) : String c s +:+ t = String c (s +:+ t).
Proof. reflexivity. Qed.

Lemma digit_value_char (x : N) :
  (x < 10)%N -> digit_value (pretty_N_char x) = Some x.
Proof.
  intros Hx.
  assert (x = 0 \/ x = 1 \/ x = 2 \/ x = 3 \/ x = 4 \/ x = 5 \/ x = 6 \/ x = 7
          \/ x = 8 \/ x = 9)%N as Hcases by lia.
  repeat (destruct Hcases as [-> | Hcases]; [reflexivity |]). subst. reflexivity.
Qed.

Lemma pretty_N_go_app (x : N) (s e : string) :
  pretty_N_go x s +:+ e = pretty_N_go x (s +:+ e).
Proof.
  revert s. induction (N.lt_wf_0 x) as [x _ IH]; intros s.
  destruct (N.eq_dec x 0%N) as [-> | Hx].
  - rewrite !pretty_N_go_0. reflexivity.
  - rewrite (pretty_N_go_step x s), (pretty_N_go_step x (s +:+ e)) by lia.
    rewrite IH by (apply N.div_lt; lia). reflexivity.
Qed.

Lemma read_number_go (x : N) :
  exists k : N, forall (acc : N) (s : string),
    read_number acc (pretty_N_go x s) = read_number (acc * 10 ^ k + x) s.
Proof.
  induction (N.lt_wf_0 x) as [x _ IH].
  destruct (N.eq_dec x 0%N) as [-> | Hx].
  - exists 0%N. intros acc s. rewrite pretty_N_go_0. f_equal. lia.
  - destruct (IH (x `div` 10)%N) as [k Hk]; [apply N.div_lt; lia |].
    exists (N.succ k). intros acc s.
    rewrite pretty_N_go_step by lia. rewrite Hk. cbn [read_number].
    rewrite digit_value_char by (apply N.mod_lt; lia).
    f_equal. rewrite N.pow_succ_r'.
    pose proof (N.div_mod x 10%N ltac:(lia)) as Hdm. lia.
Qed.

Lemma read_number_stops (acc : N) (e : string) :
  stops e -> read_number acc e = (acc, e).
Proof.
  destruct e as [| c e]; intros He; [reflexivity |].
  cbn in *. rewrite He. reflexivity.
Qed.

Lemma read_number_pretty_N (x : N) (e : string) :
  stops e -> read_number 0%N (pretty x +:+ e) = (x, e).
Proof.
  intros He. unfold pretty, pretty_N. case_decide as Hx.
  - subst. exact (read_number_stops 0%N e He).
  - rewrite pretty_N_go_app. destruct (read_number_go x) as [k Hk].
    rewrite Hk. cbn [String.app]. rewrite N.mul_0_l, N.add_0_l.
    apply read_number_stops, He.
Qed.

Lemma read_number_zeros (n : nat) (s : string) :
  read_number 0%N (zeros n +:+ s) = read_number 0%N s.
Proof.
  induction n as [| n IH]; [reflexivity |].
  cbn [zeros]. rewrite append_cons. exact IH.
Qed.

Lemma pretty_Z_nonneg (i : Z) : (0 <= i)%Z -> pretty i = pretty (Z.to_N i).
Proof.
  intros Hi. destruct i as [| p | p]; [reflexivity | reflexivity | lia].
Qed.

Lemma append_assoc (a b c : string) : (a +:+ b) +:+ c = a +:+ (b +:+ c).
Proof.
  induction a as [| x a IH]; [reflexivity |].
  change (String x ((a +:+ b) +:+ c) = String x (a +:+ (b +:+ c))).
  f_equal. exact IH.
Qed.

(** The number of a file name is read back from its digits, whatever the
    padding. *)
Lemma read_number_format (w : nat) (i : Z) (e : string) :
  (0 <= i)%Z -> stops e ->
  read_number 0%N (format_0d w i +:+ e) = (Z.to_N i, e).
Proof.
  intros Hi He. unfold format_0d.
  destruct (Z.ltb_spec i 0) as [Hneg | _]; [lia |].
  rewrite Z.abs_eq by exact Hi.
  rewrite append_assoc, read_number_zeros, pretty_Z_nonneg by exact Hi.
  apply read_number_pretty_N, He.
Qed.

Lemma format_0d_inj (w : nat) (i j : Z) (e e' : string) :
  (0 <= i)%Z -> (0 <= j)%Z -> stops e -> stops e' ->
  format_0d w i +:+ e = format_0d w j +:+ e' -> i = j /\ e = e'.
Proof.
  intros Hi Hj He He' Heq.
  pose proof (read_number_format w i e Hi He) as Hl.
  rewrite Heq, (read_number_format w j e' Hj He') in Hl.
  injection Hl as Hn ->. split; [lia | reflexivity].
Qed.

(** Two artifact names are equal only for the same index and extension. *)
Lemma chapter_name_inj (i j : Z) (e e' : string) :
  (0 <= i)%Z -> (0 <= j)%Z -> stops e -> stops e' ->
  chapter_name i e = chapter_name j e' -> i = j /\ e = e'.
Proof.
  intros Hi Hj He He' Heq. unfold chapter_name in Heq. cbn in Heq.
  injection Heq as Heq. exact (format_0d_inj 3 i j e e' Hi Hj He He' Heq).
Qed.

Lemma prefix_app (s t : string) : String.prefix s (s +:+ t) = true.
Proof.
  induction s as [| c s IH].
  - destruct t; reflexivity.
  - rewrite append_cons. cbn [String.prefix].
    destruct (ascii_dec c c) as [_ | Hne]; [exact IH | contradiction].
Qed.





End names.

(** ** summary.py: what the renaming loops do to the disk *)
Module shifting.
Import names.






(** *** The descending range *)



(** *** Paths *)








(** *** One rename *)






(** *** The loops of one directory *)







(** *** All the directories *)









End shifting.

(** ** summary.py: the index fields and the checkpoint keys *)
Module reindexing.
Import names shifting.





(** *** Index fields *)












(** *** The parsed JSON files stay JSON through the renames *)

Section json_files.
Variable output_dir : Path.
Variable n : Z.





End json_files.

(** *** The keys of the checkpoint *)

Lemma str_inj (i j : Z) : str i = str j -> i = j.
Proof. apply pretty_Z_inj. Qed.









End reindexing.

(** ** summary.py: the summary is inserted at the front, once *)
Module summary_insertion.
Import names shifting reindexing.












(** *** The run *)




(** *** The checkpoint afterwards *)






(** *** The disk afterwards *)

Lemma write_other (p q : Path) (c : Content) (fs : FS) :
  q <> p -> write p c fs q = fs q.
Proof. intros Hne. unfold write. rewrite decide_False by exact Hne. reflexivity. Qed.

Lemma mkdir_parents_longer (p q : Path) (fs : FS) :
  length p < length q -> mkdir_parents p fs q = fs q.
Proof.
  intros Hlen. unfold mkdir_parents. destruct (fs q); [reflexivity |].
  rewrite bool_decide_eq_false_2; [reflexivity |].
  intros Hpre%prefix_length. lia.
Qed.

Lemma parent_div (d : Path) (name : string) : parent (d // name) = d.
Proof. unfold parent, path_div. apply removelast_last. Qed.

Lemma save_other (c : Checkpoint) (output_dir : Path) (fs : FS) (q : Path) :
  _path c = Some (output_dir // "checkpoint.json") ->
  length output_dir + 1 < length q ->
  save c fs q = fs q.
Proof.
  intros Hpath Hlen. unfold save. rewrite Hpath, parent_div.
  rewrite write_other.
  - apply mkdir_parents_longer. lia.
  - intros ->. unfold path_div in Hlen. rewrite length_app in Hlen. cbn in Hlen. lia.
Qed.








(** *** A second call *)


End summary_insertion.

(** ** summary.py: front insertion, stated for a whole run *)
Module summary_runs.
Import names shifting reindexing summary_insertion.












End summary_runs.

(** ** checkpoint.py: repeated and concurrent marks, what is persisted,
       what [load_or_create] refuses, and what [mark] leaves alone *)
Module checkpoint_edges.
Import status_facts checkpoint_facts.

(** The status after [setattr(st, s, True)] when it does not raise. *)
Definition flagged (st : ChapterStatus) (s : string) : ChapterStatus :=
  match setattr_True st s with
  | Ok st' => st'
  | Raised _ => st
  end.

(** The checkpoint after [mark(i, s)] for a stage name. *)
Definition marked (c : Checkpoint) (i : Z) (s : string) : Checkpoint :=
  with_chapters c
    (<[ str i := flagged (default ChapterStatus_new (chapters c !! str i)) s ]> (chapters c)).

Lemma mark_stage (c : Checkpoint) (i : Z) (s : string) (d : FS) :
  s ∈ STAGES -> mark c i s d = (Ok tt, marked c i s, save (marked c i s) d).
Proof.
  intros Hs. unfold mark, marked, flagged.
  destruct (setattr_field_ok (default ChapterStatus_new (chapters c !! str i)) s Hs)
    as [st' ->].
  reflexivity.
Qed.

Lemma flagged_twice (st : ChapterStatus) (s : string) :
  s ∈ STAGES -> flagged (flagged st s) s = flagged st s.
Proof.
  intros Hs. destruct (stage_cases s Hs) as [-> | [-> | [-> | ->]]]; reflexivity.
Qed.


Lemma marked_twice (c : Checkpoint) (i : Z) (s : string) :
  s ∈ STAGES -> marked (marked c i s) i s = marked c i s.
Proof.
  intros Hs. unfold marked, with_chapters. simpl.
  rewrite lookup_insert_eq. simpl. rewrite flagged_twice by exact Hs.
  rewrite insert_insert_eq. reflexivity.
Qed.


(** Saving over a save of a checkpoint bound to the same file is saving
    once. *)
Lemma save_over_save (c1 c2 : Checkpoint) (d : FS) (q : Path) :
  _path c1 = _path c2 -> save c2 (save c1 d) q = save c2 d q.
Proof.
  intros Hp. unfold save. rewrite Hp. destruct (_path c2) as [p |]; [| reflexivity].
  unfold write, mkdir_parents.
  destruct (decide (q = p)) as [-> | Hne]; [reflexivity |].
  destruct (d q) as [x |]; [reflexivity |].
  destruct (bool_decide (q `prefix_of` parent p)); reflexivity.
Qed.

(** What [save] does at a path other than the checkpoint file. *)
Lemma save_elsewhere (c : Checkpoint) (d : FS) (q : Path) :
  _path c <> Some q ->
  save c d q
  = match d q with
    | Some x => Some x
    | None =>
        match _path c with
        | Some p => if bool_decide (q `prefix_of` parent p) then Some Dir else None
        | None => None
        end
    end.
Proof.
  intros Hq. unfold save. destruct (_path c) as [p |].
  - unfold write, mkdir_parents. rewrite decide_False by congruence. reflexivity.
  - destruct (d q); reflexivity.
Qed.

Lemma mark_path (c c' : Checkpoint) (i : Z) (s : string) (d d' : FS) (r : result unit) :
  mark c i s d = (r, c', d') -> _path c' = _path c.
Proof.
  unfold mark. destruct (setattr_True _ s); intros [= _ <- _]; reflexivity.
Qed.

Lemma mark_disk (c c' : Checkpoint) (i : Z) (s : string) (d d' : FS) (r : result unit) :
  mark c i s d = (r, c', d') -> d' = save c' d \/ d' = d.
Proof.
  unfold mark. destruct (setattr_True _ s); intros [= _ <- <-]; [left | right]; reflexivity.
Qed.


(** X1. [mark] is idempotent on the four stages: a second [mark(i, s)]
    returns, leaves the checkpoint object as the first one made it, and
    leaves every path of the disk as the first one left it. *)
Theorem mark_idempotent (c : Checkpoint) (i : Z) (s : string) (d : FS) :
  s ∈ STAGES ->
  exists (c1 : Checkpoint) (d1 d2 : FS),
    mark c i s d = (Ok tt, c1, d1) /\
    mark c1 i s d1 = (Ok tt, c1, d2) /\
    forall q : Path, d2 q = d1 q.
Proof.
  intros Hs. exists (marked c i s), (save (marked c i s) d),
    (save (marked c i s) (save (marked c i s) d)).
  split; [apply mark_stage, Hs |]. split.
  - rewrite (mark_stage _ _ _ _ Hs), marked_twice by exact Hs. reflexivity.
  - intros q. apply save_over_save. reflexivity.
Qed.

Lemma mark_idempotent_witness :
  exists (c1 : Checkpoint) (d1 d2 : FS),
    mark (fresh checkpoint_file pdf_file "00") 2 "chunked" empty_fs = (Ok tt, c1, d1) /\
    mark c1 2 "chunked" d1 = (Ok tt, c1, d2) /\
    forall q : Path, d2 q = d1 q.
Proof.
  apply (mark_idempotent (fresh checkpoint_file pdf_file "00") 2 "chunked" empty_fs).
  unfold STAGES. set_solver.
Defined.






(** X5. [mark] leaves the chapters' files alone.  Whether it returns or
    raises, an entry of the disk other than the checkpoint file is after
    [mark] what it was before, and a path that appears is the checkpoint
    file or one of the directories above it. *)
Theorem mark_touches_only_checkpoint_file (c c' : Checkpoint) (i : Z) (s : string)
    (d d' : FS) (r : result unit) (q : Path) :
  mark c i s d = (r, c', d') ->
  (forall x : Content, d q = Some x -> _path c <> Some q -> d' q = Some x) /\
  (d q = None -> d' q <> None ->
   exists p : Path, _path c = Some p /\ (q = p \/ q `prefix_of` parent p)).
Proof.
  intros Hmark.
  pose proof (mark_path _ _ _ _ _ _ _ Hmark) as Hp.
  destruct (mark_disk _ _ _ _ _ _ _ Hmark) as [-> | ->].
  - split.
    + intros x Hx Hq. rewrite save_elsewhere by (rewrite Hp; exact Hq).
      rewrite Hx. reflexivity.
    + intros Hnone Hnew. destruct (_path c) as [p |] eqn:Hpc.
      * exists p. split; [reflexivity |].
        destruct (decide (q = p)) as [-> | Hne]; [left; reflexivity | right].
        rewrite save_elsewhere in Hnew by (rewrite Hp; congruence).
        rewrite Hnone, Hp in Hnew.
        destruct (bool_decide (q `prefix_of` parent p)) eqn:Hpre; [| contradiction].
        apply bool_decide_eq_true_1 in Hpre. exact Hpre.
      * exfalso. apply Hnew. unfold save. rewrite Hp. exact Hnone.
  - split; [intros x Hx _; exact Hx | intros Hnone Hnew; contradiction].
Qed.

Lemma mark_touches_only_checkpoint_file_witness :
  (forall x : Content,
     pdf_disk [x01] pdf_file = Some x ->
     _path (fresh checkpoint_file pdf_file "01") <> Some pdf_file ->
     save (marked (fresh checkpoint_file pdf_file "01") 0 "parsed" ) (pdf_disk [x01]) pdf_file
     = Some x) /\
  (pdf_disk [x01] pdf_file = None ->
   save (marked (fresh checkpoint_file pdf_file "01") 0 "parsed") (pdf_disk [x01]) pdf_file
   <> None ->
   exists p : Path,
     _path (fresh checkpoint_file pdf_file "01") = Some p /\
     (pdf_file = p \/ pdf_file `prefix_of` parent p)).
Proof.
  apply (mark_touches_only_checkpoint_file (fresh checkpoint_file pdf_file "01")
           (marked (fresh checkpoint_file pdf_file "01") 0 "parsed") 0 "parsed"
           (pdf_disk [x01])
           (save (marked (fresh checkpoint_file pdf_file "01") 0 "parsed") (pdf_disk [x01]))
           (Ok tt) pdf_file).
  reflexivity.
Defined.

End checkpoint_edges.

(** ** synth/synthesizer.py and synth/stitcher.py: worker count, what a
       failed chunk costs, the batch variant, and the final output *)
Module synthesizer_edges.
Import status_facts checkpoint_facts escalation escalation_runs.











(** X6. The number of synthesis workers.  With [os.cpu_count()] not
    negative, [_get_worker_count] is at least 1; a positive
    [parallel_workers] is returned as it is; otherwise the count is 8 for
    the engines ["openai"] and ["elevenlabs"] and at most 4 for every other
    engine name. *)
Theorem worker_count_bounds (C : Collaborators) (config : Config) :
  (forall n : Z, cpu_count C = Some n -> (0 <= n)%Z) ->
  (1 <= _get_worker_count C config)%Z /\
  ((0 < parallel_workers (synth config))%Z ->
   _get_worker_count C config = parallel_workers (synth config)) /\
  ((parallel_workers (synth config) <= 0)%Z ->
   if bool_decide (tts_engine (synth config) ∈ ["openai"; "elevenlabs"])
   then _get_worker_count C config = 8%Z
   else (_get_worker_count C config <= 4)%Z).
Proof.
  intros Hcpu. unfold _get_worker_count.
  destruct (Z.ltb_spec 0 (parallel_workers (synth config))) as [Hpos | Hnon].
  - split; [lia |]. split; [reflexivity | lia].
  - destruct (bool_decide (tts_engine (synth config) ∈ ["openai"; "elevenlabs"])).
    + split; [lia |]. split; [lia | reflexivity].
    + destruct (cpu_count C) as [n |] eqn:Hn.
      * specialize (Hcpu n eq_refl).
        destruct (Z.eqb_spec n 0); split; try lia; split; lia.
      * split; [lia |]. split; lia.
Qed.

Lemma worker_count_bounds_witness :
  (1 <= _get_worker_count demo_collaborators (demo_config "kokoro" 0))%Z /\
  ((0 < parallel_workers (synth (demo_config "kokoro" 0)))%Z ->
   _get_worker_count demo_collaborators (demo_config "kokoro" 0)
   = parallel_workers (synth (demo_config "kokoro" 0))) /\
  ((parallel_workers (synth (demo_config "kokoro" 0)) <= 0)%Z ->
   if bool_decide (tts_engine (synth (demo_config "kokoro" 0)) ∈ ["openai"; "elevenlabs"])
   then _get_worker_count demo_collaborators (demo_config "kokoro" 0) = 8%Z
   else (_get_worker_count demo_collaborators (demo_config "kokoro" 0) <= 4)%Z).
Proof.
  apply (worker_count_bounds demo_collaborators (demo_config "kokoro" 0)).
  intros n [= <-]. lia.
Defined.

(** X7. [_synth_one_chunk] never raises.  Whatever the engine does, the
    call returns the output path with an error string, leaves the
    checkpoint alone and records one engine call; the error string is
    empty exactly when the engine returned or raised an exception whose
    message is empty, so such an exception is not counted as a failure. *)
Theorem synth_one_chunk_never_raises (engine : TTSEngine) (text : string)
    (output_path : Path) (s : State) :
  exists (err : string) (s' : State),
    _synth_one_chunk engine text output_path s = (Ok (output_path, err), s') /\
    ckpt s' = ckpt s /\
    log s' = log s ++ [EngineCall text output_path] /\
    (err = ""
     <-> match fst (synthesize engine text output_path
                      (mkdir_parents (parent output_path) (disk s))) with
         | Ok _ => True
         | Raised e => exn_str e = ""
         end).
Proof.
  rewrite synth_one_chunk_spec. eexists _, _. split; [reflexivity |].
  split; [reflexivity |]. split; [reflexivity |].
  unfold attempt.
  destruct (synthesize engine text output_path _) as [[p | e] d']; cbn [fst]; tauto.
Qed.



(** X9. The final output of [synthesize_all], by [output_format].  For
    ["mp3"] the audio directory is returned and the directory [final]
    exists.  For ["m4b"] the path [final/audiobook.m4b] is returned when
    [create_m4b] returns; when it raises [CalledProcessError] or
    [FileNotFoundError] the output falls back to MP3 and the audio
    directory is returned; any other exception propagates.  For every
    other format [final_path] is never bound and the function raises
    [UnboundLocalError], the disk unchanged. *)
Theorem final_output_by_format (C : Collaborators) (config : Config)
    (audio_dir final_dir : Path) (chapter_mp3s : list Path)
    (chapter_titles : list string) (s : State) :
  let m4b := final_dir // "audiobook.m4b" in
  let out := produce_final_output C config audio_dir final_dir chapter_mp3s
               chapter_titles s in
  (output_format (synth config) = "mp3" ->
   fst out = Ok audio_dir /\
   disk (snd out) = mkdir_parents final_dir (disk s)) /\
  (output_format (synth config) = "m4b" ->
   match create_m4b C chapter_mp3s chapter_titles m4b (disk s) with
   | (Ok _, d') => fst out = Ok m4b /\ disk (snd out) = d'
   | (Raised e, d') =>
       if bool_decide (exn_cls e ∈ ["CalledProcessError"; "FileNotFoundError"])
       then fst out = Ok audio_dir /\ disk (snd out) = mkdir_parents final_dir d'
       else fst out = Raised e /\ disk (snd out) = d'
   end) /\
  (output_format (synth config) <> "m4b" -> output_format (synth config) <> "mp3" ->
   fst out = Raised (Exception "UnboundLocalError" "final_path") /\
   disk (snd out) = disk s).
Proof.
  intros m4b out.
  assert (output_format (synth config) = "mp3" ->
          fst out = Ok audio_dir /\ disk (snd out) = mkdir_parents final_dir (disk s))
    as Hmp3.
  { intros Hfmt. subst out. unfold produce_final_output. rewrite Hfmt.
    rewrite decide_False by discriminate.
    unfold bind at 1, ret at 1. rewrite decide_True by reflexivity.
    split; reflexivity. }
  assert (output_format (synth config) = "m4b" ->
          match create_m4b C chapter_mp3s chapter_titles m4b (disk s) with
          | (Ok _, d') => fst out = Ok m4b /\ disk (snd out) = d'
          | (Raised e, d') =>
              if bool_decide (exn_cls e ∈ ["CalledProcessError"; "FileNotFoundError"])
              then fst out = Ok audio_dir /\ disk (snd out) = mkdir_parents final_dir d'
              else fst out = Raised e /\ disk (snd out) = d'
          end) as Hm4b.
  { intros Hfmt. subst out. unfold produce_final_output. rewrite Hfmt.
    rewrite decide_True by reflexivity.
    cbv [bind progress emit_event try_except on_disk]. cbn [disk ckpt log].
    fold m4b.
    destruct (create_m4b C chapter_mp3s chapter_titles m4b (disk s)) as [[p | e] d'].
    - cbv [ret]. rewrite decide_False by discriminate. split; reflexivity.
    - destruct (bool_decide (exn_cls e ∈ ["CalledProcessError"; "FileNotFoundError"])).
      + cbv [ret]. rewrite decide_True by reflexivity. split; reflexivity.
      + split; reflexivity. }
  split; [exact Hmp3 |]. split; [exact Hm4b |].
  intros Hn4 Hn3. subst out. unfold produce_final_output.
  rewrite !decide_False by exact Hn4.
  cbv [bind ret]. rewrite !decide_False by exact Hn3.
  split; reflexivity.
Qed.




End synthesizer_edges.

(** ** [str.strip]: what a stripped string looks like *)
Module strip_facts.
Import names.

Lemma append_nil_r (s : string) : s +:+ "" = s.
Proof.
  induction s as [| c s IH]; [reflexivity |]. rewrite append_cons, IH. reflexivity.
Qed.

Lemma rev_string_acc (acc s : string) : rev_string acc s = rev_string "" s +:+ acc.
Proof.
  revert acc. induction s as [| c s IH]; intros acc; [reflexivity |].
  cbn [rev_string]. rewrite (IH (String c acc)), (IH (String c "")).
  rewrite append_assoc. reflexivity.
Qed.

Lemma rev_string_app (a b : string) :
  rev_string "" (a +:+ b) = rev_string "" b +:+ rev_string "" a.
Proof.
  induction a as [| c a IH].
  - change ("" +:+ b) with b. cbn [rev_string]. rewrite append_nil_r. reflexivity.
  - rewrite append_cons. cbn [rev_string].
    rewrite (rev_string_acc (String c "") (a +:+ b)), (rev_string_acc (String c "") a).
    rewrite IH, append_assoc. reflexivity.
Qed.

Lemma rev_string_involutive (s : string) : rev_string "" (rev_string "" s) = s.
Proof.
  induction s as [| c s IH]; [reflexivity |].
  cbn [rev_string]. rewrite (rev_string_acc (String c "") s), rev_string_app, IH.
  reflexivity.
Qed.

(** A string that starts with a character that is no white space. *)
Definition clean_start (s : string) : Prop :=
  match s with
  | "" => False
  | String c _ => isspace c = false
  end.

(** A string that ends with a character that is no white space. *)
Definition clean_end (s : string) : Prop := clean_start (rev_string "" s).

(** A string that is not empty and has no white space at either end. *)
Definition tidy (s : string) : Prop := clean_start s /\ clean_end s.

Lemma clean_start_app (a b : string) : clean_start a -> clean_start (a +:+ b).
Proof. destruct a as [| c a]; [intros [] |]. rewrite append_cons. exact id. Qed.

Lemma clean_end_app (a b : string) : clean_end b -> clean_end (a +:+ b).
Proof. unfold clean_end. rewrite rev_string_app. apply clean_start_app. Qed.

Lemma lstrip_clean (s : string) : clean_start s -> lstrip s = s.
Proof.
  destruct s as [| c s]; [intros [] |]. cbn [clean_start lstrip]. intros ->. reflexivity.
Qed.

Lemma rstrip_clean (s : string) : clean_end s -> rstrip s = s.
Proof.
  intros H. unfold rstrip. rewrite (lstrip_clean _ H). apply rev_string_involutive.
Qed.

Lemma strip_tidy (s : string) : tidy s -> strip s = s.
Proof.
  intros [Hs He]. unfold strip. rewrite (lstrip_clean s Hs). apply rstrip_clean, He.
Qed.

Lemma clean_start_truthy (s : string) : clean_start s -> str_truthy s = true.
Proof. destruct s; [intros [] | reflexivity]. Qed.

Lemma tidy_truthy (s : string) : tidy s -> str_truthy s = true.
Proof. intros [Hs _]. apply clean_start_truthy, Hs. Qed.

Lemma lstrip_result (s : string) : lstrip s = "" \/ clean_start (lstrip s).
Proof.
  induction s as [| c s IH]; [left; reflexivity |].
  cbn [lstrip]. destruct (isspace c) eqn:Hc; [exact IH | right; exact Hc].
Qed.

Lemma lstrip_split (s : string) : exists w : string, s = w +:+ lstrip s.
Proof.
  induction s as [| c s [w IH]]; [exists ""; reflexivity |].
  cbn [lstrip]. destruct (isspace c).
  - exists (String c w). rewrite append_cons, <- IH. reflexivity.
  - exists "". reflexivity.
Qed.

Lemma rev_string_empty (s : string) : rev_string "" s = "" -> s = "".
Proof.
  intros H. rewrite <- (rev_string_involutive s), H. reflexivity.
Qed.

(** What [strip] returns is empty or tidy. *)
Lemma strip_result (s : string) : strip s = "" \/ tidy (strip s).
Proof.
  unfold strip, rstrip.
  set (u := lstrip s). set (v := lstrip (rev_string "" u)).
  destruct (lstrip_result (rev_string "" u)) as [Hv | Hv]; fold v in Hv.
  { left. rewrite Hv. reflexivity. }
  right. split.
  - destruct (lstrip_split (rev_string "" u)) as [w Hw]. fold v in Hw.
    assert (u = rev_string "" v +:+ rev_string "" w) as Hu.
    { rewrite <- (rev_string_involutive u), Hw, rev_string_app. reflexivity. }
    destruct (rev_string "" v) as [| c r] eqn:Hr.
    + apply rev_string_empty in Hr. rewrite Hr in Hv. destruct Hv.
    + rewrite append_cons in Hu.
      destruct (lstrip_result s) as [He | Hc].
      * fold u in He. rewrite He in Hu. discriminate.
      * fold u in Hc. rewrite Hu in Hc. exact Hc.
  - unfold clean_end. rewrite rev_string_involutive. exact Hv.
Qed.

Lemma strip_truthy_tidy (s : string) : str_truthy (strip s) = true -> tidy (strip s).
Proof.
  intros H. destruct (strip_result s) as [He | Ht]; [| exact Ht].
  rewrite He in H. discriminate.
Qed.

(** Tidy strings joined by anything stay tidy. *)
Lemma tidy_app (a x b : string) : tidy a -> tidy b -> tidy (a +:+ x +:+ b).
Proof.
  intros [Ha _] [_ Hb]. split.
  - apply clean_start_app, Ha.
  - apply clean_end_app, clean_end_app, Hb.
Qed.

Lemma join_cons2 (sep x y : string) (rest : list string) :
  join sep (x :: y :: rest) = x +:+ sep +:+ join sep (y :: rest).
Proof. reflexivity. Qed.

Lemma tidy_join (sep : string) (parts : list string) :
  parts <> [] -> Forall tidy parts -> tidy (join sep parts).
Proof.
  induction parts as [| x [| y rest] IH]; intros Hne Hall.
  - contradiction.
  - apply Forall_cons in Hall as [Hx _]. exact Hx.
  - apply Forall_cons in Hall as [Hx Hrest]. rewrite join_cons2.
    apply tidy_app; [exact Hx |]. apply IH; [discriminate | exact Hrest].
Qed.

Lemma join_snoc (sep : string) (parts : list string) (x : string) :
  parts <> [] -> join sep (parts ++ [x]) = join sep parts +:+ sep +:+ x.
Proof.
  induction parts as [| y [| z rest] IH]; intros Hne.
  - contradiction.
  - reflexivity.
  - change ((y :: z :: rest) ++ [x]) with (y :: (z :: rest) ++ [x]).
    change ((z :: rest) ++ [x]) with (z :: rest ++ [x]) at 1.
    rewrite join_cons2.
    change (z :: rest ++ [x]) with ((z :: rest) ++ [x]).
    rewrite IH by discriminate. rewrite join_cons2, !append_assoc. reflexivity.
Qed.

Lemma length_append (a b : string) :
  String.length (a +:+ b) = String.length a + String.length b.
Proof.
  induction a as [| c a IH]; [reflexivity |].
  rewrite append_cons. cbn [String.length]. rewrite IH. reflexivity.
Qed.

End strip_facts.

(** ** chunk/chunker.py: the chunks of a text are groups of its sentences *)
Module chunking.
Import pytext chunker names strip_facts.

(** The sentences of a paragraph that the inner loop keeps: stripped, and
    not empty. *)
Definition kept (sentences : list string) : list string :=
  omap (fun s => if str_truthy (strip s) then Some (strip s) else None) sentences.

(** The chunk made of the sentences [g]. *)
Definition group_chunk (ci p start : Z) (para_end chapter_end : bool) (g : list string)
  : ChunkMeta :=
  {| text := join " " g; chapter_index := ci; paragraph_index := p;
     sentence_index := start; is_paragraph_end := para_end;
     is_chapter_end := chapter_end |}.

(** The chunks flushed inside a paragraph, for the groups [gs]. *)
Fixpoint flushed (ci p start : Z) (gs : list (list string)) : list ChunkMeta :=
  match gs with
  | [] => []
  | g :: rest =>
      group_chunk ci p start false false g
      :: flushed ci p (start + Z.of_nat (length g)) rest
  end.

(** The chunks of a paragraph whose groups are [gs]: the last one closes
    the paragraph. *)
Fixpoint para_chunks (ci p : Z) (last_para : bool) (start : Z) (gs : list (list string))
  : list ChunkMeta :=
  match gs with
  | [] => []
  | [g] => [group_chunk ci p start true last_para g]
  | g :: rest =>
      group_chunk ci p start false false g
      :: para_chunks ci p last_para (start + Z.of_nat (length g)) rest
  end.

(** The chunks of the paragraphs numbered and grouped as [pgs] says. *)
Fixpoint chapter_chunks (ci : Z) (n : nat) (start : Z)
    (pgs : list (Z * list (list string))) : list ChunkMeta :=
  match pgs with
  | [] => []
  | (p, gs) :: rest =>
      para_chunks ci p (bool_decide (p = (Z.of_nat n - 1)%Z)) start gs
      ++ chapter_chunks ci n (start + Z.of_nat (length (concat gs))) rest
  end.

(** A group fits: it is one sentence, or its text is within the limit. *)
Definition fits (max_chars : Z) (g : list string) : Prop :=
  length g = 1 \/ (len (join " " g) <= max_chars)%Z.

Definition good_group (max_chars : Z) (g : list string) : Prop :=
  g <> [] /\ Forall tidy g /\ fits max_chars g.

Lemma kept_cons_skip (s : string) (rest : list string) :
  str_truthy (strip s) = false -> kept (s :: rest) = kept rest.
Proof. intros H. unfold kept. cbn [omap list_omap]. rewrite H. reflexivity. Qed.

Lemma kept_cons_keep (s : string) (rest : list string) :
  str_truthy (strip s) = true -> kept (s :: rest) = strip s :: kept rest.
Proof. intros H. unfold kept. cbn [omap list_omap]. rewrite H. reflexivity. Qed.

Lemma join_group_truthy (g : list string) :
  g <> [] -> Forall tidy g -> str_truthy (join " " g) = true.
Proof. intros Hne Hall. apply tidy_truthy, tidy_join; assumption. Qed.

Lemma len_join_snoc (g : list string) (t : string) :
  g <> [] -> len (join " " (g ++ [t])) = (len (join " " g) + len t + 1)%Z.
Proof.
  intros Hne. unfold len. rewrite join_snoc by exact Hne.
  rewrite !length_append. cbn [String.length]. lia.
Qed.

(** The four ways a turn of the inner loop can go. *)
Lemma step_skip (ci max p : Z) (vars : Vars) (s : string) :
  str_truthy (strip s) = false -> sentence_step ci max p vars s = vars.
Proof.
  intros H. destruct vars as [[[chunks si] cur] start].
  unfold sentence_step. rewrite H. reflexivity.
Qed.

Lemma step_first (ci max p : Z) (chunks : list ChunkMeta) (si start : Z) (s : string) :
  str_truthy (strip s) = true ->
  sentence_step ci max p (chunks, si, "", start) s
  = (chunks, (si + 1)%Z, strip s, start).
Proof. intros H. unfold sentence_step. rewrite H. reflexivity. Qed.

Lemma step_flush (ci max p : Z) (chunks : list ChunkMeta) (si start : Z)
    (cur s : string) :
  str_truthy (strip s) = true ->
  str_truthy cur = true ->
  (max <? len cur + len (strip s) + 1)%Z = true ->
  sentence_step ci max p (chunks, si, cur, start) s
  = (chunks ++ [ {| text := strip cur; chapter_index := ci; paragraph_index := p;
                    sentence_index := start; is_paragraph_end := false;
                    is_chapter_end := false |} ],
     (si + 1)%Z, strip s, si).
Proof.
  intros Hs Hcur Hover. unfold sentence_step. rewrite Hs, Hcur, Hover. reflexivity.
Qed.

Lemma step_extend (ci max p : Z) (chunks : list ChunkMeta) (si start : Z)
    (cur s : string) :
  str_truthy (strip s) = true ->
  str_truthy cur = true ->
  (max <? len cur + len (strip s) + 1)%Z = false ->
  sentence_step ci max p (chunks, si, cur, start) s
  = (chunks, (si + 1)%Z, cur +:+ " " +:+ strip s, start).
Proof.
  intros Hs Hcur Hover. unfold sentence_step. rewrite Hs, Hcur, Hover. cbn.
  rewrite Hcur. reflexivity.
Qed.

Lemma vars_eq (a a' : list ChunkMeta) (b b' : Z) (c c' : string) (d d' : Z) :
  a = a' -> b = b' -> c = c' -> d = d' -> (a, b, c, d) = (a', b', c', d').
Proof. intros -> -> -> ->. reflexivity. Qed.

(** The inner loop, started with the sentences [g] in [current_chunk]:
    it flushes the groups [gs] and ends with [g'] in [current_chunk]. *)
Lemma sentences_loop (ci max p : Z) (sentences : list string) :
  forall (chunks : list ChunkMeta) (si start : Z) (g : list string),
    Forall tidy g ->
    si = (start + Z.of_nat (length g))%Z ->
    (g = [] \/ fits max g) ->
    exists (gs : list (list string)) (g' : list string),
      foldl (sentence_step ci max p) (chunks, si, join " " g, start) sentences
      = (chunks ++ flushed ci p start gs,
         (si + Z.of_nat (length (kept sentences)))%Z,
         join " " g',
         (start + Z.of_nat (length (concat gs)))%Z) /\
      concat gs ++ g' = g ++ kept sentences /\
      Forall (good_group max) gs /\
      Forall tidy g' /\
      (g' = [] \/ fits max g') /\
      (g' = [] -> gs = []).
Proof.
  induction sentences as [| s rest IH]; intros chunks si start g Htidy Hsi Hfit.
  - exists [], g. cbn [foldl flushed kept omap list_omap concat length].
    rewrite !app_nil_r, !Z.add_0_r.
    split; [reflexivity |]. split; [reflexivity |]. split; [constructor |].
    split; [exact Htidy |]. split; [exact Hfit | reflexivity].
  - cbn [foldl]. destruct (str_truthy (strip s)) eqn:Hs.
    2:{ rewrite step_skip by exact Hs. rewrite kept_cons_skip by exact Hs.
        apply IH; assumption. }
    rewrite kept_cons_keep by exact Hs.
    pose proof (strip_truthy_tidy s Hs) as Ht.
    destruct g as [| x g0].
    + (* nothing in the current chunk *)
      cbn [join]. rewrite step_first by exact Hs.
      destruct (IH chunks (si + 1)%Z start [strip s]) as
        (gs & g' & Hrun & Hcat & Hgood & Htidy' & Hfit' & Hnil).
      { constructor; [exact Ht | constructor]. }
      { cbn [length] in *. lia. }
      { right. left. reflexivity. }
      exists gs, g'. cbn [join] in Hrun. rewrite Hrun.
      split; [| split; [exact Hcat | tauto]].
      apply vars_eq; [reflexivity | cbn [length]; lia | reflexivity | reflexivity].
    + assert (x :: g0 <> []) as Hne by discriminate.
      pose proof (join_group_truthy (x :: g0) Hne Htidy) as Hcur.
      destruct (max <? len (join " " (x :: g0)) + len (strip s) + 1)%Z eqn:Hover.
      * (* the current chunk is flushed *)
        rewrite step_flush by assumption.
        rewrite (strip_tidy _ (tidy_join " " (x :: g0) Hne Htidy)).
        destruct (IH (chunks ++ [group_chunk ci p start false false (x :: g0)])
                     (si + 1)%Z si [strip s]) as
          (gs & g' & Hrun & Hcat & Hgood & Htidy' & Hfit' & Hnil).
        { constructor; [exact Ht | constructor]. }
        { cbn [length]. lia. }
        { right. left. reflexivity. }
        exists ((x :: g0) :: gs), g'.
        cbn [join] in Hrun. unfold group_chunk in Hrun at 1. rewrite Hrun.
        split; [| split; [| split; [| split; [exact Htidy' | split; [exact Hfit' |]]]]].
        -- apply vars_eq.
           ++ cbn [flushed]. rewrite <- Hsi, <- app_assoc. reflexivity.
           ++ cbn [length]. lia.
           ++ reflexivity.
           ++ cbn [concat]. rewrite length_app. lia.
        -- cbn [concat]. rewrite <- app_assoc, Hcat. reflexivity.
        -- constructor; [| exact Hgood].
           split; [exact Hne |]. split; [exact Htidy |].
           destruct Hfit as [Hnil' | Hfit]; [discriminate | exact Hfit].
        -- intros Hg'. specialize (Hnil Hg'). subst gs g'.
           cbn [concat app] in Hcat. discriminate.
      * (* the sentence joins the current chunk *)
        rewrite step_extend by assumption.
        rewrite <- (join_snoc " " (x :: g0) (strip s) Hne).
        destruct (IH chunks (si + 1)%Z start ((x :: g0) ++ [strip s])) as
          (gs & g' & Hrun & Hcat & Hgood & Htidy' & Hfit' & Hnil).
        { apply Forall_app. split; [exact Htidy | constructor; [exact Ht | constructor]]. }
        { rewrite length_app. cbn [length] in *. lia. }
        { right. right. rewrite len_join_snoc by exact Hne.
          apply Z.ltb_ge in Hover. lia. }
        exists gs, g'. rewrite Hrun.
        split; [| split; [| tauto]].
        -- apply vars_eq; [reflexivity | cbn [length]; lia | reflexivity | reflexivity].
        -- rewrite Hcat, <- app_assoc. reflexivity.
Qed.

Lemma para_chunks_cons (ci p : Z) (last_para : bool) (start : Z) (g : list string)
    (gs : list (list string)) :
  gs <> [] ->
  para_chunks ci p last_para start (g :: gs)
  = group_chunk ci p start false false g
    :: para_chunks ci p last_para (start + Z.of_nat (length g)) gs.
Proof. destruct gs; [contradiction | reflexivity]. Qed.

Lemma para_chunks_snoc (ci p : Z) (last_para : bool) (gs : list (list string))
    (g : list string) :
  forall start : Z,
    para_chunks ci p last_para start (gs ++ [g])
    = flushed ci p start gs
      ++ [group_chunk ci p (start + Z.of_nat (length (concat gs))) true last_para g].
Proof.
  induction gs as [| g1 rest IH]; intros start.
  - cbn. rewrite Z.add_0_r. reflexivity.
  - change ((g1 :: rest) ++ [g]) with (g1 :: (rest ++ [g])).
    rewrite para_chunks_cons by (destruct rest; discriminate).
    rewrite IH. cbn [flushed concat]. rewrite length_app.
    change ((?x :: ?l) ++ ?r) with (x :: (l ++ r)).
    do 4 f_equal. lia.
Qed.

Lemma strip_empty : strip "" = "".
Proof. reflexivity. Qed.

(** The loop over the paragraphs: when the sentence splitter returns the
    sentences [sss], the chunks appended are those of some grouping of the
    kept sentences of each paragraph into groups that fit. *)
Lemma paragraphs_loop_groups (nlp : Nlp) (ci max : Z) (n : nat) :
  forall (todo : list (Z * string)) (sss : list (list string))
         (chunks : list ChunkMeta) (si : Z),
    Forall2 (fun entry ss => _split_sentences (snd entry) nlp = Ok ss) todo sss ->
    exists gss : list (list (list string)),
      Forall2 (fun ss gs => concat gs = kept ss /\ Forall (good_group max) gs) sss gss /\
      paragraphs_loop nlp ci max n todo chunks si
      = Ok (chunks ++ chapter_chunks ci n si (zip (fst <$> todo) gss)).
Proof.
  intros todo sss chunks si H. revert chunks si.
  induction H as [| [p para] ss todo sss Hsplit _ IH]; intros chunks si.
  - exists []. split; [constructor |]. cbn. rewrite app_nil_r. reflexivity.
  - cbn [snd] in Hsplit. cbn [paragraphs_loop]. rewrite Hsplit.
    destruct (sentences_loop ci max p ss chunks si si []) as
      (gs & g' & Hrun & Hcat & Hgood & Htidy' & Hfit' & Hnil).
    { constructor. } { cbn [length]. lia. } { left. reflexivity. }
    cbn [join] in Hrun. rewrite Hrun. cbn [app] in Hcat.
    destruct g' as [| y g0].
    + specialize (Hnil eq_refl). subst gs. cbn [concat app] in Hcat.
      cbn [join]. rewrite strip_empty. cbn [str_truthy flushed].
      rewrite app_nil_r.
      destruct (IH chunks (si + Z.of_nat (length (kept ss)))%Z) as (gss & Hall & Hloop).
      exists ([] :: gss). split.
      * constructor; [| exact Hall]. split; [exact Hcat | constructor].
      * rewrite Hloop. cbn [fmap list_fmap fst zip zip_with chapter_chunks para_chunks
                              concat app length].
        rewrite <- Hcat. cbn [length]. reflexivity.
    + assert (y :: g0 <> []) as Hne by discriminate.
      rewrite (strip_tidy _ (tidy_join " " (y :: g0) Hne Htidy')).
      rewrite (join_group_truthy (y :: g0) Hne Htidy').
      match goal with
      | |- context [paragraphs_loop nlp ci max n todo ?cs ?k] =>
          destruct (IH cs k) as (gss & Hall & Hloop)
      end.
      exists ((gs ++ [y :: g0]) :: gss). split.
      * constructor; [| exact Hall]. split.
        -- rewrite concat_app. cbn [concat]. rewrite app_nil_r. exact Hcat.
        -- apply Forall_app. split; [exact Hgood |].
           constructor; [| constructor].
           split; [exact Hne |]. split; [exact Htidy' |].
           destruct Hfit' as [Hx | Hx]; [discriminate | exact Hx].
      * rewrite Hloop. cbn [fmap list_fmap fst zip zip_with chapter_chunks].
        rewrite para_chunks_snoc, <- !app_assoc.
        rewrite concat_app. cbn [concat]. rewrite app_nil_r, Hcat.
        reflexivity.
Qed.

Lemma fst_enumerate_from {A : Type} (xs : list A) :
  forall k : nat,
    fst <$> imap (fun i x => (Z.of_nat (k + i), x)) xs = Z.of_nat <$> seq k (length xs).
Proof.
  induction xs as [| x xs IH]; intros k; [reflexivity |].
  cbn [imap fmap list_fmap length seq fst]. rewrite Nat.add_0_r. f_equal.
  rewrite <- (IH (S k)). f_equal. apply imap_ext. intros i y _. cbn.
  f_equal. f_equal. lia.
Qed.

Lemma snd_enumerate_from {A : Type} (xs : list A) :
  forall k : nat, snd <$> imap (fun i x => (Z.of_nat (k + i), x)) xs = xs.
Proof.
  induction xs as [| x xs IH]; intros k; [reflexivity |].
  cbn [imap fmap list_fmap snd]. f_equal.
  rewrite <- (IH (S k)) at 2. f_equal. apply imap_ext. intros i y _. cbn.
  f_equal. f_equal. lia.
Qed.

Lemma fst_enumerate {A : Type} (xs : list A) :
  fst <$> enumerate xs = Z.of_nat <$> seq 0 (length xs).
Proof. apply (fst_enumerate_from xs 0). Qed.

Lemma snd_enumerate {A : Type} (xs : list A) : snd <$> enumerate xs = xs.
Proof. apply (snd_enumerate_from xs 0). Qed.

(** The paragraph numbers [0 .. n - 1]. *)
Definition numbers (k n : nat) : list Z := Z.of_nat <$> seq k n.

(** [_chunk_text], when the sentence splitter returns the sentences [sss]
    for the paragraphs of the text. *)
Lemma chunk_text_groups (text : string) (ci max : Z) (nlp : Nlp)
    (sss : list (list string)) :
  Forall2 (fun para ss => _split_sentences para nlp = Ok ss) (paragraphs_of text) sss ->
  exists gss : list (list (list string)),
    Forall2 (fun ss gs => concat gs = kept ss /\ Forall (good_group max) gs) sss gss /\
    _chunk_text text ci max nlp
    = Ok (mark_last (chapter_chunks ci (length gss) 0 (zip (numbers 0 (length gss)) gss))).
Proof.
  intros Hsplit. unfold _chunk_text.
  destruct (paragraphs_loop_groups nlp ci max (length (paragraphs_of text))
              (enumerate (paragraphs_of text)) sss [] 0) as (gss & Hall & Hloop).
  { rewrite <- (snd_enumerate (paragraphs_of text)) in Hsplit.
    apply Forall2_fmap_l in Hsplit. exact Hsplit. }
  exists gss. split; [exact Hall |]. rewrite Hloop. cbn [app].
  rewrite fst_enumerate.
  assert (length gss = length (paragraphs_of text)) as ->.
  { apply Forall2_length in Hsplit, Hall. lia. }
  reflexivity.
Qed.

End chunking.

(** ** chunk/chunker.py: what [_chunk_text] returns *)
Module chunk_facts.
Import pytext chunker names strip_facts chunking.

(** A chunk with [is_chapter_end] set. *)
Definition ended (c : ChunkMeta) : ChunkMeta :=
  {| text := text c; chapter_index := chapter_index c;
     paragraph_index := paragraph_index c; sentence_index := sentence_index c;
     is_paragraph_end := is_paragraph_end c; is_chapter_end := true |}.

(** The value of [sentence_index] when a chunk starts, for chunks made of
    the groups [gs] in turn. *)
Fixpoint starts (k : Z) (gs : list (list string)) : list Z :=
  match gs with
  | [] => []
  | g :: rest => k :: starts (k + Z.of_nat (length g)) rest
  end.

(** Every element of a list stands in [R] to the one that follows it. *)
Fixpoint linked {A : Type} (R : A -> option A -> Prop) (l : list A) : Prop :=
  match l with
  | [] => True
  | x :: rest => R x (head rest) /\ linked R rest
  end.

(** The flags of a chunk, given the chunk after it in the loop's list. *)
Definition flags_ok (c : ChunkMeta) (next : option ChunkMeta) : Prop :=
  match next with
  | None => is_paragraph_end c = true
  | Some c' =>
      is_chapter_end c = false /\
      (paragraph_index c <= paragraph_index c')%Z /\
      (is_paragraph_end c = true <-> paragraph_index c' <> paragraph_index c)
  end.

Lemma mark_last_snoc (l : list ChunkMeta) (c : ChunkMeta) :
  mark_last (l ++ [c]) = l ++ [ended c].
Proof. unfold mark_last. rewrite last_snoc, removelast_last. reflexivity. Qed.

Lemma list_snoc_cases {A : Type} (l : list A) :
  l = [] \/ exists (l' : list A) (x : A), l = l' ++ [x].
Proof.
  destruct (last l) as [x |] eqn:H.
  - right. apply last_Some in H as [l' ->]. exists l', x. reflexivity.
  - left. apply last_None in H. exact H.
Qed.

Lemma mark_last_proj {A : Type} (f : ChunkMeta -> A) (l : list ChunkMeta) :
  (forall c, f (ended c) = f c) -> f <$> mark_last l = f <$> l.
Proof.
  intros Hf. destruct (list_snoc_cases l) as [-> | (l' & c & ->)]; [reflexivity |].
  rewrite mark_last_snoc, !fmap_app. cbn. rewrite Hf. reflexivity.
Qed.

Lemma mark_last_length (l : list ChunkMeta) : length (mark_last l) = length l.
Proof.
  rewrite <- (length_fmap text (mark_last l)), <- (length_fmap text l).
  rewrite mark_last_proj by reflexivity. reflexivity.
Qed.

(** *** The sentence splitter returns, unless [max_length] is 0 *)

Lemma split_sentences_returns (para : string) (nlp : Nlp) :
  max_length nlp <> 0%Z -> exists ss, _split_sentences para nlp = Ok ss.
Proof.
  intros Hmax. unfold _split_sentences.
  destruct (max_length nlp <? len para)%Z; [| eexists; reflexivity].
  destruct (max_length nlp =? 0)%Z eqn:Hz; [| eexists; reflexivity].
  apply Z.eqb_eq in Hz. contradiction.
Qed.

Lemma split_paragraphs_returns (paras : list string) (nlp : Nlp) :
  max_length nlp <> 0%Z ->
  exists sss, Forall2 (fun para ss => _split_sentences para nlp = Ok ss) paras sss.
Proof.
  intros Hmax. induction paras as [| para rest [sss IH]].
  - exists []. constructor.
  - destruct (split_sentences_returns para nlp Hmax) as [ss Hss].
    exists (ss :: sss). constructor; assumption.
Qed.

(** *** The fields of the chunks, read off the groups *)

Lemma para_chunks_text (ci p : Z) (lp : bool) (gs : list (list string)) :
  forall start, text <$> para_chunks ci p lp start gs = join " " <$> gs.
Proof.
  induction gs as [| g rest IH]; intros start; [reflexivity |].
  destruct rest as [| g2 rest]; [reflexivity |].
  rewrite para_chunks_cons by discriminate.
  rewrite !fmap_cons, IH. reflexivity.
Qed.

Lemma para_chunks_starts (ci p : Z) (lp : bool) (gs : list (list string)) :
  forall start, sentence_index <$> para_chunks ci p lp start gs = starts start gs.
Proof.
  induction gs as [| g rest IH]; intros start; [reflexivity |].
  destruct rest as [| g2 rest]; [reflexivity |].
  rewrite para_chunks_cons by discriminate.
  rewrite fmap_cons, IH. reflexivity.
Qed.

Lemma para_chunks_para (ci p : Z) (lp : bool) (gs : list (list string)) :
  forall start,
    paragraph_index <$> para_chunks ci p lp start gs = replicate (length gs) p.
Proof.
  induction gs as [| g rest IH]; intros start; [reflexivity |].
  destruct rest as [| g2 rest]; [reflexivity |].
  rewrite para_chunks_cons by discriminate.
  rewrite fmap_cons, IH. reflexivity.
Qed.

Lemma para_chunks_chapter (ci p : Z) (lp : bool) (gs : list (list string)) :
  forall start,
    Forall (fun c => chapter_index c = ci) (para_chunks ci p lp start gs).
Proof.
  induction gs as [| g rest IH]; intros start; [constructor |].
  destruct rest as [| g2 rest]; [repeat constructor |].
  rewrite para_chunks_cons by discriminate.
  constructor; [reflexivity | apply IH].
Qed.

Lemma starts_app (a b : list (list string)) :
  forall k, starts k (a ++ b) = starts k a ++ starts (k + Z.of_nat (length (concat a))) b.
Proof.
  induction a as [| g rest IH]; intros k.
  - cbn. rewrite Z.add_0_r. reflexivity.
  - cbn [app starts concat]. rewrite IH, length_app. cbn [app].
    do 3 f_equal. lia.
Qed.

Lemma starts_lookup (gs : list (list string)) :
  forall (k : Z) (i : nat) (v : Z),
    starts k gs !! i = Some v ->
    v = (k + Z.of_nat (length (concat (take i gs))))%Z.
Proof.
  induction gs as [| g rest IH]; intros k i v H; [destruct i; discriminate |].
  destruct i as [| i].
  - cbn in H. injection H as <-. cbn. lia.
  - cbn [starts lookup list_lookup] in H. apply IH in H.
    cbn [take concat]. rewrite length_app. lia.
Qed.

Lemma chapter_chunks_text (ci : Z) (n : nat) (pgs : list (Z * list (list string))) :
  forall start,
    text <$> chapter_chunks ci n start pgs = join " " <$> concat (snd <$> pgs).
Proof.
  induction pgs as [| [p gs] rest IH]; intros start; [reflexivity |].
  cbn [chapter_chunks fmap list_fmap snd concat].
  rewrite !fmap_app, para_chunks_text. f_equal. apply IH.
Qed.

Lemma chapter_chunks_starts (ci : Z) (n : nat) (pgs : list (Z * list (list string))) :
  forall start,
    sentence_index <$> chapter_chunks ci n start pgs
    = starts start (concat (snd <$> pgs)).
Proof.
  induction pgs as [| [p gs] rest IH]; intros start; [reflexivity |].
  cbn [chapter_chunks fmap list_fmap snd concat].
  rewrite fmap_app, para_chunks_starts, starts_app. f_equal. apply IH.
Qed.

Lemma chapter_chunks_para (ci : Z) (n : nat) (pgs : list (Z * list (list string))) :
  forall start,
    paragraph_index <$> chapter_chunks ci n start pgs
    = concat ((fun pg => replicate (length (snd pg)) (fst pg)) <$> pgs).
Proof.
  induction pgs as [| [p gs] rest IH]; intros start; [reflexivity |].
  cbn [chapter_chunks fmap list_fmap snd fst concat].
  rewrite fmap_app, para_chunks_para. f_equal. apply IH.
Qed.

Lemma chapter_chunks_chapter (ci : Z) (n : nat) (pgs : list (Z * list (list string))) :
  forall start, Forall (fun c => chapter_index c = ci) (chapter_chunks ci n start pgs).
Proof.
  induction pgs as [| [p gs] rest IH]; intros start; [constructor |].
  cbn [chapter_chunks]. apply Forall_app. split; [apply para_chunks_chapter | apply IH].
Qed.

Lemma numbers_length (k n : nat) : length (numbers k n) = n.
Proof. unfold numbers. rewrite length_fmap, length_seq. reflexivity. Qed.

Lemma numbered_groups (gss : list (list (list string))) :
  forall k,
    (fun pg : Z * list (list string) => replicate (length (snd pg)) (fst pg))
      <$> zip (numbers k (length gss)) gss
    = imap (fun p gs => replicate (length gs) (Z.of_nat (k + p))) gss.
Proof.
  induction gss as [| gs rest IH]; intros k; [reflexivity |].
  cbn [length numbers seq fmap list_fmap zip zip_with snd fst imap].
  rewrite Nat.add_0_r. f_equal.
  unfold numbers in IH. rewrite (IH (S k)). apply imap_ext. intros i y _. cbn.
  do 2 f_equal. lia.
Qed.

(** *** The shape of the result *)

(** With a sentence splitter that returns, [_chunk_text] returns the chunks
    of a grouping of the kept sentences of each paragraph. *)
Lemma chunk_text_shape (t : string) (ci max : Z) (nlp : Nlp) :
  max_length nlp <> 0%Z ->
  exists (sss : list (list string)) (gss : list (list (list string))),
    Forall2 (fun para ss => _split_sentences para nlp = Ok ss) (paragraphs_of t) sss /\
    Forall2 (fun ss gs => concat gs = kept ss /\ Forall (good_group max) gs) sss gss /\
    _chunk_text t ci max nlp
    = Ok (mark_last (chapter_chunks ci (length gss) 0 (zip (numbers 0 (length gss)) gss))).
Proof.
  intros Hmax.
  destruct (split_paragraphs_returns (paragraphs_of t) nlp Hmax) as [sss Hsss].
  destruct (chunk_text_groups t ci max nlp sss Hsss) as (gss & Hgss & Hrun).
  exists sss, gss. split; [exact Hsss |]. split; [exact Hgss | exact Hrun].
Qed.

(** X11.  With a sentence splitter whose [max_length] is not 0,
    [_chunk_text] returns, and loses nothing: the texts of the chunks are,
    in order, groups of consecutive kept sentences (stripped, not empty)
    joined by one space; no group is empty and none spans two paragraphs;
    the groups of a paragraph put end to end are its kept sentences; a
    chunk's [paragraph_index] is the number of its paragraph, and its
    [sentence_index] the number of kept sentences in the chunks before
    it. *)
Theorem chunks_keep_every_sentence (t : string) (ci max : Z) (nlp : Nlp) :
  max_length nlp <> 0%Z ->
  exists (chunks : list ChunkMeta) (sss : list (list string))
         (gss : list (list (list string))),
    _chunk_text t ci max nlp = Ok chunks /\
    Forall2 (fun para ss => _split_sentences para nlp = Ok ss) (paragraphs_of t) sss /\
    Forall2 (fun ss gs => concat gs = kept ss /\ Forall (fun g => g <> []) gs) sss gss /\
    text <$> chunks = join " " <$> concat gss /\
    paragraph_index <$> chunks
    = concat (imap (fun p gs => replicate (length gs) (Z.of_nat p)) gss) /\
    forall (k : nat) (c : ChunkMeta),
      chunks !! k = Some c ->
      sentence_index c = Z.of_nat (length (concat (take k (concat gss)))).
Proof.
  intros Hmax.
  destruct (chunk_text_shape t ci max nlp Hmax) as (sss & gss & Hsss & Hgss & Hrun).
  eexists _, sss, gss. split; [exact Hrun |]. split; [exact Hsss |].
  assert (snd <$> zip (numbers 0 (length gss)) gss = gss) as Hsnd.
  { apply snd_zip. rewrite numbers_length. lia. }
  split; [| split; [| split]].
  - eapply Forall2_impl; [exact Hgss |]. intros ss gs [Hcat Hgood].
    split; [exact Hcat |]. eapply Forall_impl; [exact Hgood |].
    intros g (Hne & _). exact Hne.
  - rewrite mark_last_proj by reflexivity. rewrite chapter_chunks_text, Hsnd.
    reflexivity.
  - rewrite mark_last_proj by reflexivity.
    rewrite chapter_chunks_para, numbered_groups. reflexivity.
  - intros k c Hk.
    apply (list_lookup_fmap_Some_2 sentence_index) in Hk.
    rewrite mark_last_proj in Hk by reflexivity.
    rewrite chapter_chunks_starts, Hsnd in Hk.
    apply starts_lookup in Hk. rewrite Hk. lia.
Qed.

(** A toy sentence splitter: a sentence ends at a full stop followed by a
    space. *)
Definition stop_nlp : Nlp :=
  {| max_length := 1000000; sents := split ". " |}.

Definition two_paragraphs : string :=
  "One. Two is longer. Three" +:+ nl +:+ nl +:+ "  Four.  " +:+ nl.

Lemma chunks_keep_every_sentence_witness :
  exists (chunks : list ChunkMeta) (sss : list (list string))
         (gss : list (list (list string))),
    _chunk_text two_paragraphs 0 12 stop_nlp = Ok chunks /\
    Forall2 (fun para ss => _split_sentences para stop_nlp = Ok ss)
            (paragraphs_of two_paragraphs) sss /\
    Forall2 (fun ss gs => concat gs = kept ss /\ Forall (fun g => g <> []) gs) sss gss /\
    text <$> chunks = join " " <$> concat gss /\
    paragraph_index <$> chunks
    = concat (imap (fun p gs => replicate (length gs) (Z.of_nat p)) gss) /\
    forall (k : nat) (c : ChunkMeta),
      chunks !! k = Some c ->
      sentence_index c = Z.of_nat (length (concat (take k (concat gss)))).
Proof.
  apply (chunks_keep_every_sentence two_paragraphs 0 12 stop_nlp).
  cbn. discriminate.
Defined.

(** *** The size of a chunk *)

Lemma kept_elem (ss : list string) (x : string) :
  x ∈ kept ss -> exists s, s ∈ ss /\ x = strip s.
Proof.
  unfold kept. rewrite list_elem_of_omap. intros (s & Hs & Hx).
  exists s. split; [exact Hs |].
  destruct (str_truthy (strip s)); [| discriminate]. injection Hx as <-. reflexivity.
Qed.

Lemma Forall2_elem_r {A B : Type} (P : A -> B -> Prop) (l : list A) (k : list B) (y : B) :
  Forall2 P l k -> y ∈ k -> exists x, x ∈ l /\ P x y.
Proof.
  intros H Hy. apply list_elem_of_lookup_1 in Hy as [i Hi].
  destruct (Forall2_lookup_r P l k i y H Hi) as (x & Hx & HP).
  exists x. split; [eapply list_elem_of_lookup_2; exact Hx | exact HP].
Qed.

Lemma elem_of_concat {A : Type} (x : A) (ls : list (list A)) :
  x ∈ concat ls <-> exists l, x ∈ l /\ l ∈ ls.
Proof.
  induction ls as [| l0 ls IH]; cbn [concat].
  - split; [intros H; inversion H | intros (l & _ & H); inversion H].
  - rewrite elem_of_app, IH. split.
    + intros [H | (l & Hx & Hl)].
      * exists l0. split; [exact H | left].
      * exists l. split; [exact Hx | right; exact Hl].
    + intros (l & Hx & Hl). apply elem_of_cons in Hl as [-> | Hl].
      * left. exact Hx.
      * right. exists l. split; assumption.
Qed.

(** X12.  Every chunk text is stripped and not empty, and a chunk is
    longer than [max_chars] only when it is one single sentence: either
    [len(text) <= max_chars], or the text is one sentence of the splitter,
    stripped. *)
Theorem chunk_size_bound (t : string) (ci max : Z) (nlp : Nlp) :
  max_length nlp <> 0%Z ->
  exists chunks : list ChunkMeta,
    _chunk_text t ci max nlp = Ok chunks /\
    forall c : ChunkMeta,
      c ∈ chunks ->
      tidy (text c) /\
      ((len (text c) <= max)%Z \/
       exists (para : string) (ss : list string) (s : string),
         para ∈ paragraphs_of t /\ _split_sentences para nlp = Ok ss /\
         s ∈ ss /\ text c = strip s).
Proof.
  intros Hmax.
  destruct (chunk_text_shape t ci max nlp Hmax) as (sss & gss & Hsss & Hgss & Hrun).
  eexists. split; [exact Hrun |]. intros c Hc.
  apply (list_elem_of_fmap_2 text) in Hc.
  rewrite mark_last_proj in Hc by reflexivity.
  rewrite chapter_chunks_text, snd_zip in Hc by (rewrite numbers_length; lia).
  apply list_elem_of_fmap in Hc as (g & -> & Hg).
  apply elem_of_concat in Hg as (gs & Hg & Hgs).
  destruct (Forall2_elem_r _ _ _ gs Hgss Hgs) as (ss & Hss & Hcat & Hgood).
  destruct (Forall2_elem_r _ _ _ ss Hsss Hss) as (para & Hpara & Hsplit).
  rewrite Forall_forall in Hgood. destruct (Hgood g Hg) as (Hne & Htidy & Hfit).
  split; [apply tidy_join; assumption |].
  destruct Hfit as [Hone | Hlen]; [| left; exact Hlen].
  right. destruct g as [| x [| y g]]; try discriminate.
  assert (x ∈ kept ss) as Hx.
  { rewrite <- Hcat. apply elem_of_concat. exists [x]. split; [set_solver | exact Hg]. }
  apply kept_elem in Hx as (s & Hs & ->).
  exists para, ss, s. cbn [join]. auto.
Qed.

Lemma chunk_size_bound_witness :
  exists chunks : list ChunkMeta,
    _chunk_text two_paragraphs 0 12 stop_nlp = Ok chunks /\
    forall c : ChunkMeta,
      c ∈ chunks ->
      tidy (text c) /\
      ((len (text c) <= 12)%Z \/
       exists (para : string) (ss : list string) (s : string),
         para ∈ paragraphs_of two_paragraphs /\ _split_sentences para stop_nlp = Ok ss /\
         s ∈ ss /\ text c = strip s).
Proof.
  apply (chunk_size_bound two_paragraphs 0 12 stop_nlp).
  cbn. discriminate.
Defined.

(** *** The flags of a chunk *)

Lemma linked_lookup {A : Type} (R : A -> option A -> Prop) (l : list A) :
  forall (k : nat) (x : A), linked R l -> l !! k = Some x -> R x (l !! S k).
Proof.
  induction l as [| y rest IH]; intros k x Hl Hk; [destruct k; discriminate |].
  destruct Hl as [Hy Hrest]. destruct k as [| k].
  - injection Hk as <-. rewrite head_lookup in Hy. exact Hy.
  - apply (IH k x Hrest Hk).
Qed.

Lemma para_chunks_same_para (ci p : Z) (lp : bool) (gs : list (list string)) :
  forall start,
    Forall (fun c => paragraph_index c = p) (para_chunks ci p lp start gs).
Proof.
  induction gs as [| g rest IH]; intros start; [constructor |].
  destruct rest as [| g2 rest]; [repeat constructor |].
  rewrite para_chunks_cons by discriminate.
  constructor; [reflexivity | apply IH].
Qed.

Lemma para_chunks_head (ci p : Z) (lp : bool) (start : Z) (gs : list (list string))
    (rest : list ChunkMeta) :
  gs <> [] ->
  exists c, head (para_chunks ci p lp start gs ++ rest) = Some c /\ paragraph_index c = p.
Proof.
  destruct gs as [| g [| g2 gs]]; [contradiction | |]; intros _; eexists;
    (split; [reflexivity |]); reflexivity.
Qed.

Lemma para_chunks_linked (ci p : Z) (lp : bool) (gs : list (list string))
    (rest : list ChunkMeta) :
  linked flags_ok rest ->
  (forall c', head rest = Some c' -> (p < paragraph_index c')%Z /\ lp = false) ->
  forall start, linked flags_ok (para_chunks ci p lp start gs ++ rest).
Proof.
  intros Hrest Hhead. induction gs as [| g gs IH]; intros start; [exact Hrest |].
  destruct gs as [| g2 gs].
  - cbn [para_chunks app linked]. split; [| exact Hrest].
    unfold flags_ok. destruct (head rest) as [c' |]; [| reflexivity].
    destruct (Hhead c' eq_refl) as [Hlt ->]. cbn.
    split; [reflexivity |]. split; [lia |]. split; [intros _; lia | reflexivity].
  - rewrite para_chunks_cons by discriminate.
    change ((?x :: ?l) ++ ?r) with (x :: (l ++ r)). cbn [linked].
    split; [| apply IH].
    destruct (para_chunks_head ci p lp (start + Z.of_nat (length g)) (g2 :: gs) rest)
      as (c' & -> & Hp); [discriminate |].
    unfold flags_ok. cbn. rewrite Hp.
    split; [reflexivity |]. split; [lia |]. split; [discriminate | intros H; contradiction].
Qed.

Lemma chapter_chunks_range (ci : Z) (n : nat) (gss : list (list (list string))) :
  forall (k : nat) (start : Z),
    Forall (fun c => (Z.of_nat k <= paragraph_index c < Z.of_nat (k + length gss))%Z)
           (chapter_chunks ci n start (zip (numbers k (length gss)) gss)).
Proof.
  induction gss as [| gs rest IH]; intros k start; [constructor |].
  cbn [length numbers seq fmap list_fmap zip zip_with chapter_chunks].
  apply Forall_app. split.
  - eapply Forall_impl; [apply para_chunks_same_para |]. cbn. intros c ->. lia.
  - eapply Forall_impl; [apply (IH (S k)) |]. cbn. intros c Hc. lia.
Qed.

Lemma chapter_chunks_linked (ci : Z) (n : nat) (gss : list (list (list string))) :
  forall (k : nat) (start : Z),
    k + length gss <= n ->
    linked flags_ok (chapter_chunks ci n start (zip (numbers k (length gss)) gss)).
Proof.
  induction gss as [| gs rest IH]; intros k start Hn; [exact I |].
  cbn [length numbers seq fmap list_fmap zip zip_with chapter_chunks].
  cbn [length] in Hn. apply para_chunks_linked.
  - apply (IH (S k)). lia.
  - intros c' Hc'.
    match type of Hc' with head ?l = _ =>
      assert (c' ∈ l) as Hin by (destruct l; [discriminate | injection Hc' as ->; left])
    end.
    pose proof (chapter_chunks_range ci n rest (S k)
                  (start + Z.of_nat (length (concat gs)))) as Hr.
    rewrite Forall_forall in Hr. unfold numbers in Hr. apply Hr in Hin.
    split; [lia |]. apply bool_decide_eq_false. lia.
Qed.

(** The chunk at [k] after [chunks[-1].is_chapter_end = True]. *)
Lemma mark_last_lookup (l : list ChunkMeta) (k : nat) (c : ChunkMeta) :
  mark_last l !! k = Some c ->
  exists c0,
    l !! k = Some c0 /\
    chapter_index c = chapter_index c0 /\
    paragraph_index c = paragraph_index c0 /\
    is_paragraph_end c = is_paragraph_end c0 /\
    is_chapter_end c = (if bool_decide (S k = length l) then true else is_chapter_end c0).
Proof.
  destruct (list_snoc_cases l) as [-> | (l' & c0 & ->)]; [destruct k; discriminate |].
  rewrite mark_last_snoc, length_app. cbn [length]. intros H.
  destruct (decide (k < length l')) as [Hlt | Hge].
  - rewrite lookup_app_l in H by exact Hlt. exists c.
    rewrite lookup_app_l by exact Hlt. split; [exact H |].
    rewrite bool_decide_eq_false_2 by lia. auto.
  - rewrite lookup_app_r in H by lia.
    destruct (k - length l') as [| j] eqn:Hj; [| destruct j; discriminate].
    injection H as <-. exists c0. rewrite lookup_app_r by lia. rewrite Hj.
    split; [reflexivity |]. rewrite bool_decide_eq_true_2 by lia. auto.
Qed.

(** X13.  The flags of the chunks returned: every chunk carries the
    chapter index passed in and the number of one of the paragraphs;
    [is_chapter_end] is set on the last chunk and on no other;
    paragraph numbers never decrease along the list, and
    [is_paragraph_end] is set exactly on the chunks that are followed by a
    chunk of another paragraph or by nothing. *)
Theorem chunk_flags (t : string) (ci max : Z) (nlp : Nlp) :
  max_length nlp <> 0%Z ->
  exists chunks : list ChunkMeta,
    _chunk_text t ci max nlp = Ok chunks /\
    forall (k : nat) (c : ChunkMeta),
      chunks !! k = Some c ->
      chapter_index c = ci /\
      (0 <= paragraph_index c < Z.of_nat (length (paragraphs_of t)))%Z /\
      is_chapter_end c = bool_decide (S k = length chunks) /\
      match chunks !! S k with
      | None => is_paragraph_end c = true
      | Some c' =>
          (paragraph_index c <= paragraph_index c')%Z /\
          (is_paragraph_end c = true <-> paragraph_index c' <> paragraph_index c)
      end.
Proof.
  intros Hmax.
  destruct (chunk_text_shape t ci max nlp Hmax) as (sss & gss & Hsss & Hgss & Hrun).
  eexists. split; [exact Hrun |].
  set (L := chapter_chunks ci (length gss) 0 (zip (numbers 0 (length gss)) gss)).
  assert (length gss = length (paragraphs_of t)) as Hlen.
  { apply Forall2_length in Hsss, Hgss. lia. }
  pose proof (chapter_chunks_chapter ci (length gss)
                (zip (numbers 0 (length gss)) gss) 0) as Hci.
  pose proof (chapter_chunks_range ci (length gss) gss 0 0) as Hrange.
  pose proof (chapter_chunks_linked ci (length gss) gss 0 0 (le_n _)) as Hlinked.
  fold L in Hci, Hrange, Hlinked. rewrite Forall_forall in Hci, Hrange.
  intros k c Hk.
  destruct (mark_last_lookup L k c Hk) as (c0 & Hk0 & Eci & Epi & Epe & Ece).
  pose proof (list_elem_of_lookup_2 L k c0 Hk0) as Hin.
  pose proof (linked_lookup flags_ok L k c0 Hlinked Hk0) as Hflags.
  rewrite mark_last_length.
  split; [rewrite Eci; apply Hci, Hin |].
  split; [rewrite Epi, <- Hlen; apply Hrange in Hin; cbn in Hin; lia |].
  split.
  - rewrite Ece. case_bool_decide as Hlast; [reflexivity |].
    destruct (L !! S k) as [c1 |] eqn:Hnext.
    + destruct Hflags as (Hfalse & _). exact Hfalse.
    + apply lookup_ge_None in Hnext. apply lookup_lt_Some in Hk0. lia.
  - destruct (mark_last L !! S k) as [c' |] eqn:Hnext.
    + destruct (mark_last_lookup L (S k) c' Hnext) as (c1 & Hk1 & _ & Epi' & _).
      rewrite Hk1 in Hflags. destruct Hflags as (_ & Hle & Hiff).
      rewrite Epi, Epi', Epe. split; [exact Hle | exact Hiff].
    + apply lookup_ge_None in Hnext. rewrite mark_last_length in Hnext.
      rewrite (proj2 (lookup_ge_None L (S k)) Hnext) in Hflags.
      rewrite Epe. exact Hflags.
Qed.

Lemma chunk_flags_witness :
  exists chunks : list ChunkMeta,
    _chunk_text two_paragraphs 0 12 stop_nlp = Ok chunks /\
    forall (k : nat) (c : ChunkMeta),
      chunks !! k = Some c ->
      chapter_index c = 0%Z /\
      (0 <= paragraph_index c < Z.of_nat (length (paragraphs_of two_paragraphs)))%Z /\
      is_chapter_end c = bool_decide (S k = length chunks) /\
      match chunks !! S k with
      | None => is_paragraph_end c = true
      | Some c' =>
          (paragraph_index c <= paragraph_index c')%Z /\
          (is_paragraph_end c = true <-> paragraph_index c' <> paragraph_index c)
      end.
Proof.
  apply (chunk_flags two_paragraphs 0 12 stop_nlp).
  cbn. discriminate.
Defined.

(** *** A text of white space *)

Fixpoint all_space (s : string) : Prop :=
  match s with
  | "" => True
  | String c rest => isspace c = true /\ all_space rest
  end.

Lemma lstrip_all_space (s : string) : lstrip s = "" <-> all_space s.
Proof.
  induction s as [| c s IH]; [cbn; tauto |].
  cbn [lstrip all_space]. destruct (isspace c).
  - rewrite IH. tauto.
  - split; [discriminate | intros [H _]; discriminate].
Qed.

Lemma all_space_rev (s : string) :
  forall acc, all_space (rev_string acc s) <-> all_space s /\ all_space acc.
Proof.
  induction s as [| c s IH]; intros acc; cbn [rev_string all_space]; [tauto |].
  rewrite IH. cbn [all_space]. tauto.
Qed.

Lemma all_space_strip (s : string) : all_space s -> strip s = "".
Proof.
  intros H. apply lstrip_all_space in H. unfold strip. rewrite H. reflexivity.
Qed.

Lemma strip_all_space (s : string) : strip s = "" -> all_space s.
Proof.
  unfold strip, rstrip. intros H. apply rev_string_empty in H.
  apply lstrip_all_space, all_space_rev in H as [Hu _].
  apply lstrip_all_space.
  destruct (lstrip_result s) as [He | Hc]; [exact He |].
  destruct (lstrip s) as [| c u]; [reflexivity |].
  cbn in Hc, Hu. destruct Hu as [Hu _]. congruence.
Qed.

(** The pieces of a string of white space are strings of white space. *)
Lemma split_from_all_space (sep s : string) :
  all_space s -> forall skip, Forall all_space (split_from sep skip s).
Proof.
  induction s as [| c s IH]; intros Hs skip; [repeat constructor |].
  destruct Hs as [Hc Hs]. specialize (IH Hs).
  cbn [split_from]. destruct skip as [| k]; [| apply IH].
  destruct (String.prefix sep (String c s)).
  - constructor; [exact I | apply IH].
  - specialize (IH 0). destruct (split_from sep 0 s) as [| piece pieces].
    + repeat constructor. exact Hc.
    + apply Forall_cons in IH as [Hp Hps]. constructor; [| exact Hps].
      split; assumption.
Qed.

(** X14.  A text of white space only (empty, blank lines) has no chunks,
    whatever the chapter, the limit and the pipeline: the sentence
    splitter is not consulted. *)
Theorem blank_text_has_no_chunks (t : string) (ci max : Z) (nlp : Nlp) :
  strip t = "" -> _chunk_text t ci max nlp = Ok [].
Proof.
  intros H. apply strip_all_space in H.
  assert (paragraphs_of t = []) as Hp.
  { unfold paragraphs_of, split.
    pose proof (split_from_all_space (nl +:+ nl) t H 0) as Hall.
    induction Hall as [| piece pieces Hpiece _ IH]; [reflexivity |].
    cbn [omap list_omap]. rewrite (all_space_strip piece Hpiece). exact IH. }
  unfold _chunk_text. rewrite Hp. reflexivity.
Qed.

Lemma blank_text_has_no_chunks_witness :
  _chunk_text (" " +:+ nl +:+ nl +:+ nl +:+ "  ") 3 250 stop_nlp = Ok [].
Proof.
  apply (blank_text_has_no_chunks (" " +:+ nl +:+ nl +:+ nl +:+ "  ") 3 250 stop_nlp).
  reflexivity.
Defined.

End chunk_facts.

(** ** chunk/chunker.py: [chunk_one_chapter] on the disk *)
Module chunk_files.
Import pytext chunker names strip_facts chunking chunk_facts.

Lemma mkdir_parents_kept (p q : Path) (d : FS) (x : Content) :
  d q = Some x -> mkdir_parents p d q = Some x.
Proof. intros H. unfold mkdir_parents. rewrite H. reflexivity. Qed.



Definition cleaned_file : Path := ["out"; "cleaned"; "chapter_000.txt"].

Definition cleaned_state : State :=
  {| ckpt := fresh ["out"; "checkpoint.json"] ["book.pdf"] "00";
     disk := write cleaned_file (Text two_paragraphs) empty_fs;
     log := [] |}.


(** X16.  [chunk_one_chapter] leaves no partial result: when it raises
    (the pipeline cannot be loaded, the cleaned file cannot be read, the
    sentence splitter fails), no chunk file has been written; the disk
    differs from the one before by the directory [output_dir/chunks] and
    its ancestors only, and the checkpoint is the same. *)
Theorem chunk_one_chapter_failure (get_nlp : result Nlp)
    (decode : Content -> result string) (max_chars ch_idx : Z)
    (cleaned_path output_dir : Path) (title : string) (s s' : State) (e : exn) :
  chunk_one_chapter get_nlp decode max_chars ch_idx cleaned_path output_dir title s
  = (Raised e, s') ->
  ckpt s' = ckpt s /\ log s' = log s /\
  disk s' = mkdir_parents (output_dir // "chunks") (disk s).
Proof.
  unfold chunk_one_chapter, ChapterChunks_save.
  cbv [bind update_disk lift get_disk ret]. cbn [disk ckpt log].
  destruct get_nlp as [nlp | e0]; [| intros [= <- <-]; auto].
  destruct (read_text decode cleaned_path _) as [t | e0]; [| intros [= <- <-]; auto].
  destruct (_chunk_text t ch_idx max_chars nlp) as [chunks | e0];
    [discriminate | intros [= <- <-]; auto].
Qed.

Definition missing_run : result Path * State :=
  chunk_one_chapter (Ok stop_nlp) (fun _ => Ok "") 12 1
    ["out"; "cleaned"; "chapter_001.txt"] ["out"] "Two" cleaned_state.

Lemma chunk_one_chapter_failure_witness :
  fst missing_run = Raised (Exception "FileNotFoundError" "out/cleaned/chapter_001.txt") /\
  ckpt (snd missing_run) = ckpt cleaned_state /\
  log (snd missing_run) = log cleaned_state /\
  disk (snd missing_run) = mkdir_parents (["out"] // "chunks") (disk cleaned_state).
Proof.
  assert (missing_run
          = (Raised (Exception "FileNotFoundError" "out/cleaned/chapter_001.txt"),
             snd missing_run)) as H by (vm_compute; reflexivity).
  split; [exact (f_equal fst H) |].
  apply (chunk_one_chapter_failure (Ok stop_nlp) (fun _ => Ok "") 12 1
           ["out"; "cleaned"; "chapter_001.txt"] ["out"] "Two" cleaned_state
           (snd missing_run) _ H).
Defined.

End chunk_files.

(** ** parse/pymupdf_parser.py: the chapters [_build_chapters] makes *)
Module chapters_built.
Import pymupdf.

(** A loop keeps an invariant that may mention the elements consumed so
    far. *)
Lemma foldl_consumed {A B : Type} (f : B -> A -> B) (I : list A -> B -> Prop) :
  (forall (seen : list A) (b : B) (a : A), I seen b -> I (seen ++ [a]) (f b a)) ->
  forall (l seen : list A) (b : B), I seen b -> I (seen ++ l) (foldl f b l).
Proof.
  intros Hstep l. induction l as [| a l IH]; intros seen b Hb.
  - rewrite app_nil_r. exact Hb.
  - cbn [foldl]. rewrite (cons_middle a seen l), app_assoc.
    apply IH, Hstep, Hb.
Qed.

(** What the sections of a chapter and its other fields have to do with
    each other: the chapter opens with [h], no section after [h] is a
    chapter break, the last section gives [end_page], and [h] gives the
    title and [start_page] when it is a chapter break. *)
Definition opens_with (ch : Chapter) (h : PySection) (rest : list PySection) : Prop :=
  sections ch = h :: rest /\
  Forall (fun s => is_chapter_break s = false) rest /\
  page <$> last (h :: rest) = Some (end_page ch) /\
  (index ch <> 0%Z -> is_chapter_break h = true) /\
  (is_chapter_break h = true ->
   title ch = (if str_truthy (content h) then content h
               else "Chapter " +:+ str (index ch + 1)) /\
   start_page ch = page h) /\
  (is_chapter_break h = false ->
   index ch = 0%Z /\ title ch = "Chapter 1" /\ start_page ch = 0%Z).

Definition well_built (ch : Chapter) : Prop :=
  exists (h : PySection) (rest : list PySection), opens_with ch h rest.

(** The chapter the current variables would give is well built. *)
Definition current_ok (chapters : list Chapter) (current_sections : list PySection)
    (current_title : string) (current_start_page : Z) : Prop :=
  match current_sections with
  | [] => chapters = [] /\ current_title = "" /\ current_start_page = 0%Z
  | h :: rest =>
      Forall (fun s => is_chapter_break s = false) rest /\
      (chapters <> [] -> is_chapter_break h = true) /\
      (is_chapter_break h = true ->
       current_title = content h /\ current_start_page = page h) /\
      (is_chapter_break h = false ->
       chapters = [] /\ current_title = "" /\ current_start_page = 0%Z)
  end.

Definition build_invariant (seen : list PySection) (vars : BuildVars) : Prop :=
  let '(chapters, current_sections, current_title, current_start_page) := vars in
  concat (sections <$> chapters) ++ current_sections = seen /\
  (forall (k : nat) (ch : Chapter), chapters !! k = Some ch -> index ch = Z.of_nat k) /\
  Forall well_built chapters /\
  current_ok chapters current_sections current_title current_start_page.

Lemma last_cons_Some {A : Type} (l : list A) (x : A) : exists y, last (x :: l) = Some y.
Proof.
  destruct (last (x :: l)) as [y |] eqn:H; [exists y; reflexivity |].
  apply last_None in H. discriminate.
Qed.

(** The chapter built from variables that are in order is well built. *)
Lemma built_chapter_well_built (chapters : list Chapter) (h : PySection)
    (rest : list PySection) (t : string) (sp : Z) :
  current_ok chapters (h :: rest) t sp ->
  opens_with (built_chapter chapters (h :: rest) t sp) h rest.
Proof.
  intros (Hrest & Hne & Hbreak & Hplain).
  unfold opens_with, built_chapter. cbn [sections end_page index title start_page].
  split; [reflexivity |]. split; [exact Hrest |]. split.
  { destruct (last_cons_Some rest h) as [y Hy]. rewrite Hy. reflexivity. }
  split.
  { intros Hidx. apply Hne. intros ->. apply Hidx. reflexivity. }
  split.
  - intros Hb. destruct (Hbreak Hb) as [-> ->]. split; reflexivity.
  - intros Hb. destruct (Hplain Hb) as (-> & -> & ->). cbn. auto.
Qed.

Lemma lookup_snoc_index (chapters : list Chapter) (new : Chapter) :
  (forall (k : nat) (ch : Chapter), chapters !! k = Some ch -> index ch = Z.of_nat k) ->
  index new = Z.of_nat (length chapters) ->
  forall (k : nat) (ch : Chapter),
    (chapters ++ [new]) !! k = Some ch -> index ch = Z.of_nat k.
Proof.
  intros Hold Hnew k ch Hk.
  destruct (decide (k < length chapters)) as [Hlt | Hge].
  - rewrite lookup_app_l in Hk by exact Hlt. apply Hold, Hk.
  - rewrite lookup_app_r in Hk by lia.
    destruct (k - length chapters) as [| j] eqn:Hj; [| destruct j; discriminate].
    injection Hk as <-. rewrite Hnew. f_equal. lia.
Qed.

Lemma build_step_invariant (seen : list PySection) (vars : BuildVars) (s : PySection) :
  build_invariant seen vars -> build_invariant (seen ++ [s]) (build_step vars s).
Proof.
  destruct vars as [[[chapters cur] t] sp]. intros (Hcat & Hidx & Hwell & Hcur).
  unfold build_step.
  destruct (is_chapter_break s) eqn:Hs; cbn [andb].
  - destruct cur as [| h rest].
    + (* the first section is a chapter break *)
      destruct Hcur as (-> & -> & ->). cbn [list_truthy str_truthy orb app].
      cbn in Hcat. subst seen.
      split; [reflexivity |]. split; [exact Hidx |]. split; [exact Hwell |].
      cbn. split; [constructor |]. split; [auto |]. split; [auto |].
      intros H. rewrite Hs in H. discriminate.
    + cbn [list_truthy orb app].
      split; [| split; [| split]].
      * rewrite fmap_app, concat_app. cbn. rewrite app_nil_r, Hcat. reflexivity.
      * apply lookup_snoc_index; [exact Hidx | reflexivity].
      * apply Forall_app. split; [exact Hwell |]. constructor; [| constructor].
        exists h, rest. apply built_chapter_well_built, Hcur.
      * cbn. split; [constructor |]. split; [auto |]. split; [auto |].
        intros H. rewrite Hs in H. discriminate.
  - split; [| split; [exact Hidx | split; [exact Hwell |]]].
    + rewrite app_assoc, Hcat. reflexivity.
    + destruct cur as [| h rest].
      * destruct Hcur as (-> & -> & ->). cbn.
        split; [constructor |]. split; [intros H; contradiction |].
        split; [intros H; rewrite Hs in H; discriminate | auto].
      * destruct Hcur as (Hrest & Hrem). cbn [app current_ok].
        split; [| exact Hrem].
        apply Forall_app. split; [exact Hrest | constructor; [exact Hs | constructor]].
Qed.

Lemma build_chapters_invariant (ss : list PySection) :
  concat (sections <$> _build_chapters ss) = ss /\
  (forall (k : nat) (ch : Chapter),
     _build_chapters ss !! k = Some ch -> index ch = Z.of_nat k) /\
  Forall well_built (_build_chapters ss).
Proof.
  pose proof (foldl_consumed build_step build_invariant build_step_invariant ss []
                ([], [], "", 0%Z)) as H.
  unfold _build_chapters. cbn [app] in H.
  destruct (foldl build_step ([], [], "", 0%Z) ss) as [[[chapters cur] t] sp].
  destruct H as (Hcat & Hidx & Hwell & Hcur).
  { cbn. split; [reflexivity |]. split; [intros k ch H; destruct k; discriminate |].
    split; [constructor | auto]. }
  destruct cur as [| h rest]; cbn [list_truthy].
  - rewrite app_nil_r in Hcat. auto.
  - split; [| split].
    + rewrite fmap_app, concat_app. cbn. rewrite app_nil_r. exact Hcat.
    + apply lookup_snoc_index; [exact Hidx | reflexivity].
    + apply Forall_app. split; [exact Hwell |]. constructor; [| constructor].
      exists h, rest. apply built_chapter_well_built, Hcur.
Qed.

(** X17.  [_build_chapters] loses no section: the sections of the
    chapters, put end to end, are the sections passed in, in their order;
    the chapter at position [k] has index [k]; and no chapter is without
    sections, so the result is empty only for no sections at all. *)
Theorem build_chapters_partition (ss : list PySection) :
  concat (sections <$> _build_chapters ss) = ss /\
  (forall (k : nat) (ch : Chapter),
     _build_chapters ss !! k = Some ch ->
     index ch = Z.of_nat k /\ sections ch <> []) /\
  (_build_chapters ss = [] <-> ss = []).
Proof.
  destruct (build_chapters_invariant ss) as (Hcat & Hidx & Hwell).
  split; [exact Hcat |]. split.
  - intros k ch Hk. split; [apply Hidx, Hk |].
    rewrite Forall_forall in Hwell.
    destruct (Hwell ch (list_elem_of_lookup_2 _ _ _ Hk)) as (h & rest & Hs & _).
    rewrite Hs. discriminate.
  - split.
    + intros H. rewrite H in Hcat. cbn in Hcat. symmetry. exact Hcat.
    + intros ->. reflexivity.
Qed.

(** X18.  Chapters begin at level-1 headings and nowhere else: a chapter
    opens with a section [h] after which no section is a level-1 heading;
    every chapter but the first opens with a level-1 heading; such a
    chapter takes its title from the heading (["Chapter N"] when the
    heading is empty) and its [start_page] from the heading's page; a
    first chapter that opens otherwise is ["Chapter 1"] from page 0; and
    [end_page] is the page of the chapter's last section. *)
Theorem build_chapters_heads (ss : list PySection) (k : nat) (ch : Chapter) :
  _build_chapters ss !! k = Some ch ->
  exists (h : PySection) (rest : list PySection),
    sections ch = h :: rest /\
    Forall (fun s => is_chapter_break s = false) rest /\
    page <$> last (h :: rest) = Some (end_page ch) /\
    (k <> 0 -> is_chapter_break h = true) /\
    (is_chapter_break h = true ->
     title ch = (if str_truthy (content h) then content h
                 else "Chapter " +:+ str (Z.of_nat k + 1)) /\
     start_page ch = page h) /\
    (is_chapter_break h = false ->
     k = 0 /\ title ch = "Chapter 1" /\ start_page ch = 0%Z).
Proof.
  intros Hk. destruct (build_chapters_invariant ss) as (_ & Hidx & Hwell).
  rewrite Forall_forall in Hwell.
  destruct (Hwell ch (list_elem_of_lookup_2 _ _ _ Hk))
    as (h & rest & Hs & Hrest & Hend & Hnz & Hbreak & Hplain).
  specialize (Hidx k ch Hk).
  exists h, rest. split; [exact Hs |]. split; [exact Hrest |]. split; [exact Hend |].
  split; [intros Hne; apply Hnz; lia |]. split.
  - intros Hb. rewrite <- Hidx. apply Hbreak, Hb.
  - intros Hb. destruct (Hplain Hb) as (H0 & Ht & Hp).
    split; [lia | auto].
Qed.

Definition heading (lvl : Z) (c : string) (p : Z) : PySection :=
  {| type := "heading"; content := c; level := lvl; page := p |}.

Definition body (c : string) (p : Z) : PySection :=
  {| type := "body"; content := c; level := 0; page := p |}.

Definition sample_sections : list PySection :=
  [ body "Title page" 0; heading 1 "Introduction" 1; body "Text." 1;
    heading 2 "Scope" 2; body "More." 3; heading 1 "" 4; body "End." 5 ].

Lemma build_chapters_heads_witness :
  exists (h : PySection) (rest : list PySection),
    [heading 1 "" 4; body "End." 5] = h :: rest /\
    Forall (fun s => is_chapter_break s = false) rest /\
    page <$> last (h :: rest) = Some 5%Z /\
    (2 <> 0 -> is_chapter_break h = true) /\
    (is_chapter_break h = true ->
     "Chapter 3" = (if str_truthy (content h) then content h
                    else "Chapter " +:+ str (Z.of_nat 2 + 1)) /\
     4%Z = page h) /\
    (is_chapter_break h = false -> 2 = 0 /\ "Chapter 3" = "Chapter 1" /\ 4%Z = 0%Z).
Proof.
  apply (build_chapters_heads sample_sections 2
           {| index := 2; title := "Chapter 3";
              sections := [heading 1 "" 4; body "End." 5];
              start_page := 4; end_page := 5 |}).
  reflexivity.
Defined.

End chapters_built.

(** ** Parsing, then resuming: the chapters saved are the chapters loaded *)
Module parse_resume.
Import pytext pymupdf pipeline names status_facts checkpoint_facts checkpoint_edges
       summary_insertion chapters_built.

(** The state after the turn of the saving loop for a chapter that is not
    marked as parsed. *)
Definition after_save (output_dir : Path) (ch : Chapter) (s : State) : State :=
  let parsed_dir := output_dir // "parsed" in
  let md := parsed_dir // chapter_name (index ch) ".md" in
  let json := parsed_dir // chapter_name (index ch) ".json" in
  let c := marked (ckpt s) (index ch) "parsed" in
  {| ckpt := c;
     disk := save c (write json (ChapterJson ch)
                       (mkdir_parents (parent json)
                          (write md (Text (to_markdown ch))
                             (mkdir_parents (parent md) (disk s)))));
     log := log s ++ [ProgressMsg "chapter_done" (str (index ch))] |}.

Lemma parsed_stage : "parsed" ∈ STAGES.
Proof. unfold STAGES. set_solver. Qed.

Lemma save_parsed_fresh (output_dir : Path) (ch : Chapter) (s : State) :
  chapters (ckpt s) !! str (index ch) = None ->
  save_parsed (output_dir // "parsed") ch s = (Ok tt, after_save output_dir ch s).
Proof.
  intros Hnone. unfold save_parsed, Chapter_save, Chapter_save_json.
  cbv [bind checkpoint_is_done]. unfold is_done. rewrite Hnone. cbn [truthy].
  cbv [update_disk checkpoint_mark progress emit_event]. cbn [ckpt disk log].
  rewrite (mark_stage _ _ _ _ parsed_stage). reflexivity.
Qed.

Lemma json_stops : stops ".json".
Proof. reflexivity. Qed.

Lemma md_stops : stops ".md".
Proof. reflexivity. Qed.

Lemma parsed_path_length (output_dir : Path) (name : string) :
  length output_dir + 1 < length (output_dir // "parsed" // name).
Proof. unfold path_div. rewrite !length_app. cbn. lia. Qed.

Lemma div_inj (p : Path) (a b : string) : p // a = p // b -> a = b.
Proof. unfold path_div. intros H. apply app_inv_head in H. congruence. Qed.

(** The turn writes the chapter's JSON file. *)
Lemma after_save_written (output_dir : Path) (ch : Chapter) (s : State) :
  _path (ckpt s) = Some (output_dir // "checkpoint.json") ->
  disk (after_save output_dir ch s)
       (output_dir // "parsed" // chapter_name (index ch) ".json")
  = Some (ChapterJson ch).
Proof.
  intros Hpath. unfold after_save. cbn [disk].
  rewrite (save_other _ output_dir) by (exact Hpath || apply parsed_path_length).
  unfold write. rewrite decide_True by reflexivity. reflexivity.
Qed.

(** The turn leaves the JSON files of the other chapters alone. *)
Lemma after_save_other (output_dir : Path) (ch : Chapter) (s : State) (j : Z)
    (x : Content) :
  _path (ckpt s) = Some (output_dir // "checkpoint.json") ->
  (0 <= index ch)%Z -> (0 <= j)%Z -> j <> index ch ->
  disk s (output_dir // "parsed" // chapter_name j ".json") = Some x ->
  disk (after_save output_dir ch s) (output_dir // "parsed" // chapter_name j ".json")
  = Some x.
Proof.
  intros Hpath Hi Hj Hne Hx. unfold after_save. cbn [disk].
  rewrite (save_other _ output_dir) by (exact Hpath || apply parsed_path_length).
  rewrite write_other.
  2:{ intros Heq%div_inj.
      apply (chapter_name_inj j (index ch) ".json" ".json") in Heq as [Heq _];
        auto using json_stops. }
  apply chunk_files.mkdir_parents_kept. rewrite write_other.
  2:{ intros Heq%div_inj.
      apply (chapter_name_inj j (index ch) ".json" ".md") in Heq as [_ Heq];
        auto using json_stops, md_stops. discriminate. }
  apply chunk_files.mkdir_parents_kept, Hx.
Qed.

Lemma after_save_chapters (output_dir : Path) (ch : Chapter) (s : State) (i : Z) :
  i <> index ch ->
  chapters (ckpt (after_save output_dir ch s)) !! str i = chapters (ckpt s) !! str i.
Proof.
  intros Hne. unfold after_save, marked. cbn [ckpt chapters with_chapters].
  apply lookup_insert_ne. intros Heq%reindexing.str_inj. congruence.
Qed.

Lemma after_save_done (output_dir : Path) (ch : Chapter) (s : State) :
  is_done (ckpt (after_save output_dir ch s)) (index ch) "parsed" = PyBool true.
Proof.
  unfold after_save. cbn [ckpt].
  eapply is_done_mark_same. apply (mark_stage _ _ _ (disk s) parsed_stage).
Qed.

Lemma after_save_mono (output_dir : Path) (ch : Chapter) (s : State) (i : Z) :
  is_done (ckpt s) i "parsed" = PyBool true ->
  is_done (ckpt (after_save output_dir ch s)) i "parsed" = PyBool true.
Proof.
  unfold after_save. cbn [ckpt].
  eapply is_done_mark_mono. apply (mark_stage _ _ _ (disk s) parsed_stage).
Qed.

(** The saving loop, for chapters numbered from [k0] on and a checkpoint
    with no entry from [k0] on. *)
Lemma save_loop (output_dir : Path) (chs : list Chapter) :
  forall (k0 : nat) (s : State),
    _path (ckpt s) = Some (output_dir // "checkpoint.json") ->
    (forall (j : nat) (ch : Chapter), chs !! j = Some ch -> index ch = Z.of_nat (k0 + j)) ->
    (forall i : nat, k0 <= i -> chapters (ckpt s) !! str (Z.of_nat i) = None) ->
    exists s' : State,
      for_each chs (save_parsed (output_dir // "parsed")) s = (Ok tt, s') /\
      _path (ckpt s') = Some (output_dir // "checkpoint.json") /\
      (forall (j : nat) (ch : Chapter),
         chs !! j = Some ch ->
         disk s' (output_dir // "parsed" // chapter_name (Z.of_nat (k0 + j)) ".json")
         = Some (ChapterJson ch) /\
         is_done (ckpt s') (Z.of_nat (k0 + j)) "parsed" = PyBool true) /\
      (forall (i : nat) (x : Content),
         i < k0 ->
         disk s (output_dir // "parsed" // chapter_name (Z.of_nat i) ".json") = Some x ->
         disk s' (output_dir // "parsed" // chapter_name (Z.of_nat i) ".json") = Some x) /\
      (forall i : Z,
         is_done (ckpt s) i "parsed" = PyBool true ->
         is_done (ckpt s') i "parsed" = PyBool true).
Proof.
  induction chs as [| ch rest IH]; intros k0 s Hpath Hidx Hnone.
  - exists s. cbn. split; [reflexivity |]. split; [exact Hpath |].
    split; [intros j ch H; destruct j; discriminate | auto].
  - pose proof (Hidx 0 ch eq_refl) as Hch. rewrite Nat.add_0_r in Hch.
    cbn [for_each]. unfold bind at 1.
    rewrite save_parsed_fresh by (rewrite Hch; apply Hnone; lia).
    set (s1 := after_save output_dir ch s).
    assert (_path (ckpt s1) = Some (output_dir // "checkpoint.json")) as Hpath1.
    { exact Hpath. }
    destruct (IH (S k0) s1 Hpath1) as (s' & Hrun & Hpath' & Hfiles & Hkept & Hmono).
    { intros j c Hj. rewrite (Hidx (S j) c Hj). f_equal. lia. }
    { intros i Hi. unfold s1. rewrite after_save_chapters by (rewrite Hch; lia).
      apply Hnone. lia. }
    exists s'. split; [exact Hrun |]. split; [exact Hpath' |].
    split; [| split].
    + intros [| j] c Hj.
      * injection Hj as <-. rewrite Nat.add_0_r. split.
        -- apply Hkept; [lia |]. rewrite <- Hch. apply after_save_written, Hpath.
        -- apply Hmono. rewrite <- Hch. apply after_save_done.
      * replace (k0 + S j) with (S k0 + j) by lia. apply Hfiles, Hj.
    + intros i x Hi Hx. apply Hkept; [lia |].
      apply after_save_other; [exact Hpath | lia | lia | lia | exact Hx].
    + intros i Hi. apply Hmono, after_save_mono, Hi.
Qed.

(** The loading loop finds the chapters whose JSON files are there. *)
Lemma load_loop_all (decode : Content -> result string) (output_dir : Path) (d : FS)
    (chs : list Chapter) :
  forall (k0 : nat) (acc : list Chapter),
    (forall (j : nat) (ch : Chapter),
       chs !! j = Some ch ->
       d (output_dir // "parsed" // chapter_name (Z.of_nat (k0 + j)) ".json")
       = Some (ChapterJson ch)) ->
    load_loop decode (output_dir // "parsed") d
      (seqZ (Z.of_nat k0) (Z.of_nat (length chs))) acc
    = Ok (acc ++ chs).
Proof.
  induction chs as [| ch rest IH]; intros k0 acc Hfiles.
  - cbn. rewrite app_nil_r. reflexivity.
  - rewrite seqZ_cons by (cbn [length]; lia). cbn [load_loop].
    pose proof (Hfiles 0 ch eq_refl) as Hch. rewrite Nat.add_0_r in Hch.
    unfold path_exists, Chapter_from_json. rewrite Hch.
    replace (Z.succ (Z.of_nat k0)) with (Z.of_nat (S k0)) by lia.
    replace (Z.pred (Z.of_nat (length (ch :: rest)))) with (Z.of_nat (length rest))
      by (cbn [length]; lia).
    rewrite IH.
    + rewrite <- app_assoc. reflexivity.
    + intros j c Hj. replace (S k0 + j) with (k0 + S j) by lia. apply Hfiles, Hj.
Qed.

(** X19.  Parsing, then resuming.  From a checkpoint without entries,
    kept in [output_dir/checkpoint.json], [parse] returns at least one
    chapter, marks every chapter as parsed, and leaves a disk from which
    [_load_parsed_chapters] returns the same chapters: a resumed run
    continues with what the first run parsed. *)
Theorem parsed_chapters_load_back (decode : Content -> result string)
    (all_sections : list PySection) (total_pages : Z) (output_dir : Path) (s : State) :
  chapters (ckpt s) = ∅ ->
  _path (ckpt s) = Some (output_dir // "checkpoint.json") ->
  exists (chs : list Chapter) (s' : State),
    parse all_sections total_pages output_dir s = (Ok chs, s') /\
    chs <> [] /\
    _load_parsed_chapters decode output_dir (Z.of_nat (length chs)) (disk s') = Ok chs /\
    forall k : nat,
      k < length chs -> is_done (ckpt s') (Z.of_nat k) "parsed" = PyBool true.
Proof.
  intros Hempty Hpath. unfold parse.
  set (chs := if list_truthy (_build_chapters all_sections)
              then _build_chapters all_sections
              else [ {| index := 0; title := "Full Document"; sections := all_sections;
                        start_page := 0; end_page := total_pages - 1 |} ]).
  assert (chs <> []) as Hne.
  { unfold chs. destruct (_build_chapters all_sections); discriminate. }
  assert (forall (j : nat) (ch : Chapter), chs !! j = Some ch -> index ch = Z.of_nat (0 + j))
    as Hidx.
  { unfold chs. destruct (_build_chapters all_sections) as [| c0 cs] eqn:Hb.
    - intros [| j] ch Hj; [injection Hj as <-; reflexivity | destruct j; discriminate].
    - cbn [list_truthy]. rewrite <- Hb. intros j ch Hj.
      destruct (build_chapters_invariant all_sections) as (_ & Hi & _).
      apply Hi, Hj. }
  destruct (save_loop output_dir chs 0 s Hpath Hidx) as
    (s' & Hrun & _ & Hfiles & _ & _).
  { intros i _. rewrite Hempty. apply lookup_empty. }
  exists chs, s'. unfold bind. rewrite Hrun. split; [reflexivity |].
  split; [exact Hne |]. split.
  - unfold _load_parsed_chapters.
    apply (load_loop_all decode output_dir (disk s') chs 0 []).
    intros j ch Hj. apply Hfiles, Hj.
  - intros k Hk. destruct (lookup_lt_is_Some_2 chs k Hk) as [ch Hch].
    apply (Hfiles k ch Hch).
Qed.

Definition start_state : State :=
  {| ckpt := fresh (["out"] // "checkpoint.json") ["book.pdf"] "00";
     disk := empty_fs; log := [] |}.

Lemma parsed_chapters_load_back_witness :
  exists (chs : list Chapter) (s' : State),
    parse sample_sections 6 ["out"] start_state = (Ok chs, s') /\
    chs <> [] /\
    _load_parsed_chapters (fun _ => Ok "") ["out"] (Z.of_nat (length chs)) (disk s')
    = Ok chs /\
    forall k : nat,
      k < length chs -> is_done (ckpt s') (Z.of_nat k) "parsed" = PyBool true.
Proof.
  apply (parsed_chapters_load_back (fun _ => Ok "") sample_sections 6 ["out"] start_state);
    reflexivity.
Defined.

End parse_resume.

(** ** pipeline.py: what [_load_parsed_chapters] does without the JSON files *)
Module load_edges.
Import pytext pymupdf pipeline names.

Lemma load_loop_nothing (decode : Content -> result string) (parsed_dir : Path) (d : FS)
    (todo : list Z) (acc : list Chapter) :
  Forall (fun i => d (parsed_dir // chapter_name i ".json") = None /\
                   d (parsed_dir // chapter_name i ".md") = None) todo ->
  load_loop decode parsed_dir d todo acc = Ok acc.
Proof.
  intros H. revert acc. induction H as [| i rest [Hj Hm] _ IH]; intros acc; [reflexivity |].
  cbn [load_loop]. unfold path_exists. rewrite Hj, Hm. apply IH.
Qed.

Lemma load_loop_markdown (decode : Content -> result string) (parsed_dir : Path) (d : FS)
    (t : Z -> string) (todo : list Z) (acc : list Chapter) :
  Forall (fun i => d (parsed_dir // chapter_name i ".json") = None /\
                   d (parsed_dir // chapter_name i ".md") = Some (Text (t i))) todo ->
  load_loop decode parsed_dir d todo acc
  = Ok (acc ++ ((fun i => minimal_chapter i (t i)) <$> todo)).
Proof.
  intros H. revert acc. induction H as [| i rest [Hj Hm] _ IH]; intros acc.
  - cbn. rewrite app_nil_r. reflexivity.
  - cbn [load_loop]. unfold path_exists, read_text. rewrite Hj, Hm, IH.
    rewrite <- app_assoc. reflexivity.
Qed.

Lemma Forall_seqZ (P : Z -> Prop) (total : Z) :
  (forall i : Z, (0 <= i < total)%Z -> P i) -> Forall P (seqZ 0 total).
Proof.
  intros H. apply Forall_forall. intros i Hi. apply elem_of_seqZ in Hi. apply H. lia.
Qed.

(** X20.  Chapter files that are missing are passed over in silence: when
    neither [chapter_NNN.json] nor [chapter_NNN.md] exists for any index
    below [total] (the directory [parsed] was removed, say),
    [_load_parsed_chapters] returns the empty list and raises nothing. *)
Theorem load_without_files (decode : Content -> result string) (output_dir : Path)
    (total : Z) (d : FS) :
  (forall i : Z,
     (0 <= i < total)%Z ->
     d (output_dir // "parsed" // chapter_name i ".json") = None /\
     d (output_dir // "parsed" // chapter_name i ".md") = None) ->
  _load_parsed_chapters decode output_dir total d = Ok [].
Proof.
  intros H. unfold _load_parsed_chapters.
  apply load_loop_nothing, Forall_seqZ, H.
Qed.

Lemma load_without_files_witness :
  _load_parsed_chapters (fun _ => Ok "") ["out"] 3 empty_fs = Ok [].
Proof.
  apply (load_without_files (fun _ => Ok "") ["out"] 3 empty_fs).
  intros i _. split; reflexivity.
Defined.

(** X21.  With the Markdown files alone, the chapters loaded are minimal:
    when no [chapter_NNN.json] exists and [chapter_NNN.md] holds the text
    [t i], chapter [i] comes back titled ["Chapter i+1"], with the whole
    text as one body section and pages 0 to 0, whatever title and sections
    the parser had found. *)
Theorem load_markdown_only (decode : Content -> result string) (output_dir : Path)
    (total : Z) (d : FS) (t : Z -> string) :
  (forall i : Z,
     (0 <= i < total)%Z ->
     d (output_dir // "parsed" // chapter_name i ".json") = None /\
     d (output_dir // "parsed" // chapter_name i ".md") = Some (Text (t i))) ->
  _load_parsed_chapters decode output_dir total d
  = Ok ((fun i =>
           {| index := i; title := "Chapter " +:+ str (i + 1);
              sections := [ {| type := "body"; content := t i; level := 0; page := 0 |} ];
              start_page := 0; end_page := 0 |}) <$> seqZ 0 total).
Proof.
  intros H. unfold _load_parsed_chapters.
  rewrite (load_loop_markdown decode _ d t) by (apply Forall_seqZ, H).
  reflexivity.
Qed.

Definition markdown_disk : FS :=
  write (["out"] // "parsed" // chapter_name 0 ".md") (Text "# Introduction") empty_fs.

Lemma load_markdown_only_witness :
  _load_parsed_chapters (fun _ => Ok "") ["out"] 1 markdown_disk
  = Ok ((fun i =>
           {| index := i; title := "Chapter " +:+ str (i + 1);
              sections := [ {| type := "body"; content := "# Introduction";
                               level := 0; page := 0 |} ];
              start_page := 0; end_page := 0 |}) <$> seqZ 0 1).
Proof.
  apply (load_markdown_only (fun _ => Ok "") ["out"] 1 markdown_disk
           (fun _ => "# Introduction")).
  intros i Hi. assert (i = 0%Z) as -> by lia. split; reflexivity.
Defined.

End load_edges.

(** ** summary.py: the text of the summary *)
Module summary_facts.
Import pytext llm pymupdf summary_text names strip_facts.

(** What [_extractive_fallback] keeps of a chapter. *)
Definition extract_of (chapters : list Chapter) (p : string) : Prop :=
  tidy p /\ (30 < len p)%Z /\
  exists ch, ch ∈ chapters /\ p = first_paragraph (strip (to_markdown ch)).

Lemma first_paragraph_tidy (text : string) :
  str_truthy (first_paragraph text) = true -> tidy (first_paragraph text).
Proof.
  unfold first_paragraph. destruct (split (nl +:+ nl) text) as [| piece pieces];
    [discriminate |]. apply strip_truthy_tidy.
Qed.

Lemma fallback_loop_parts (chapters todo : list Chapter) :
  forall parts : list string,
    Forall (fun ch => ch ∈ chapters) todo ->
    length parts < 5 ->
    Forall (extract_of chapters) parts ->
    length (fallback_loop todo parts) <= 5 /\
    Forall (extract_of chapters) (fallback_loop todo parts).
Proof.
  induction todo as [| ch rest IH]; intros parts Hin Hlen Hparts.
  - cbn. split; [lia | exact Hparts].
  - apply Forall_cons in Hin as [Hch Hin]. cbn [fallback_loop].
    destruct (str_truthy (strip (to_markdown ch))); cbn [negb]; [| apply IH; assumption].
    set (fp := first_paragraph (strip (to_markdown ch))).
    destruct (str_truthy fp && (30 <? len fp)%Z) eqn:Hkeep.
    + apply andb_true_iff in Hkeep as [Htr Hlong]. apply Z.ltb_lt in Hlong.
      assert (Forall (extract_of chapters) (parts ++ [fp])) as Hparts'.
      { apply Forall_app. split; [exact Hparts |]. constructor; [| constructor].
        split; [apply first_paragraph_tidy, Htr |]. split; [exact Hlong |].
        exists ch. split; [exact Hch | reflexivity]. }
      destruct (5 <=? Z.of_nat (length (parts ++ [fp])))%Z eqn:Hfull.
      * split; [| exact Hparts']. rewrite length_app. cbn. lia.
      * apply IH; [exact Hin | | exact Hparts'].
        apply Z.leb_gt in Hfull. lia.
    + destruct (5 <=? Z.of_nat (length parts))%Z eqn:Hfull.
      * split; [lia | exact Hparts].
      * apply IH; assumption.
Qed.

Lemma message_tidy : tidy "Executive summary could not be generated.".
Proof. split; reflexivity. Qed.

Lemma extractive_fallback_tidy (chapters : list Chapter) :
  tidy (_extractive_fallback chapters).
Proof.
  unfold _extractive_fallback.
  destruct (fallback_loop_parts chapters chapters []) as [_ Hparts].
  { apply Forall_forall. auto. } { cbn. lia. } { constructor. }
  destruct (fallback_loop chapters []) as [| p parts] eqn:Hloop; cbn [list_truthy].
  - apply message_tidy.
  - apply tidy_join; [discriminate |].
    eapply Forall_impl; [exact Hparts |]. intros q (Hq & _). exact Hq.
Qed.

(** X22.  The extractive summary is never blank and never long: it is
    made of at most five paragraphs joined by blank lines, each the
    stripped first paragraph of a chapter's Markdown and longer than 30
    characters, or it is the sentence "Executive summary could not be
    generated." when no chapter has such a paragraph; either way it has
    no white space at its ends. *)
Theorem extractive_fallback_parts (chapters : list Chapter) :
  exists parts : list string,
    length parts <= 5 /\
    Forall (fun p =>
              tidy p /\ (30 < len p)%Z /\
              exists ch, ch ∈ chapters /\ p = first_paragraph (strip (to_markdown ch)))
           parts /\
    _extractive_fallback chapters
    = (if list_truthy parts then join (nl +:+ nl) parts
       else "Executive summary could not be generated.") /\
    tidy (_extractive_fallback chapters).
Proof.
  exists (fallback_loop chapters []).
  destruct (fallback_loop_parts chapters chapters []) as [Hlen Hparts].
  { apply Forall_forall. auto. } { cbn. lia. } { constructor. }
  split; [exact Hlen |]. split; [exact Hparts |]. split; [reflexivity |].
  apply extractive_fallback_tidy.
Qed.

Lemma strip_strip (s : string) : strip (strip s) = strip s.
Proof.
  destruct (strip_result s) as [-> | H]; [reflexivity | apply strip_tidy, H].
Qed.

Lemma tidy_not_empty (s : string) : tidy s -> s <> "".
Proof. intros [H _] ->. exact H. Qed.

(** X23.  The text [_generate_summary_text] returns is always stripped,
    and it is empty in one case only: the backend is not ["none"] and the
    model answered with a string that is not empty but is all white space.
    Without a model, after a failure, and after an empty answer the
    extractive summary is returned, which is never empty. *)
Theorem summary_text_empty_only_from_model (completion : Completion)
    (system_prompt : string) (config : CleanConfig) (chapters : list Chapter) :
  let summary_text := _generate_summary_text completion system_prompt config chapters in
  strip summary_text = summary_text /\
  (summary_text = "" <->
   llm_backend config <> "none" /\
   exists r : string,
     completion (llm_model config) system_prompt (summary_prompt chapters) = Content_ r /\
     r <> "" /\ strip r = "").
Proof.
  pose proof (extractive_fallback_tidy chapters) as Hfb.
  pose proof (strip_tidy _ Hfb) as Hstrip.
  pose proof (tidy_not_empty _ Hfb) as Hne.
  unfold _generate_summary_text. cbv zeta.
  destruct (decide (llm_backend config = "none")) as [Hnone | Hllm].
  { split; [exact Hstrip |]. split; [intros H; contradiction | intros [H _]; contradiction]. }
  destruct (completion (llm_model config) system_prompt (summary_prompt chapters))
    as [r | | e].
  - destruct r as [| c r]; cbn [str_truthy].
    + split; [exact Hstrip |]. split; [intros H; contradiction |].
      intros (_ & r' & [= <-] & Hr & _). contradiction.
    + split; [apply strip_strip |]. split.
      * intros H. split; [exact Hllm |]. exists (String c r).
        split; [reflexivity |]. split; [discriminate | exact H].
      * intros (_ & r' & [= <-] & _ & H). exact H.
  - split; [exact Hstrip |]. split; [intros H; contradiction |].
    intros (_ & r' & [=] & _).
  - split; [exact Hstrip |]. split; [intros H; contradiction |].
    intros (_ & r' & [=] & _).
Qed.

Lemma substring_length (s : string) :
  forall n m : nat, String.length (substring n m s) <= m \/ n <> 0.
Proof.
  induction s as [| c s IH]; intros n m.
  - destruct n; [left; destruct m; cbn; lia | right; lia].
  - destruct n; [left | right; lia].
    destruct m; cbn [substring String.length]; [lia |].
    destruct (IH 0 m) as [H | H]; [lia | contradiction].
Qed.

(** X24.  The text sent to the model is bounded: [summary_prompt] is at
    most 100 000 characters long, plus the 40 characters of the note that
    the rest was omitted. *)
Theorem summary_prompt_bounded (chapters : list Chapter) :
  (len (summary_prompt chapters) <= 100040)%Z.
Proof.
  unfold summary_prompt. cbv zeta.
  match goal with |- context [(100000 <? len ?t)%Z] => set (full := t) end.
  destruct (100000 <? len full)%Z eqn:Hlong.
  - unfold len, slice. rewrite !length_append.
    destruct (substring_length full (Z.to_nat 0) (Z.to_nat (100000 - 0))) as [H | H];
      [| exfalso; apply H; reflexivity].
    change (String.length nl) with 1.
    change (String.length "[Remaining text omitted for length...]") with 38.
    lia.
  - apply Z.ltb_ge in Hlong. lia.
Qed.

End summary_facts.

(** ** summary.py: the summary chapter, without a language model *)
Module summary_offline.
Import pytext llm pymupdf summary_text names strip_facts summary_facts reindexing
       summary_insertion.








End summary_offline.

(** ** clean/cleaner.py: [clean_one_chapter] *)
Module cleaning.
Import pytext llm cleaner chunker names strip_facts summary_facts.

Lemma regex_clean_stripped (substitute : string -> string) (text : string) :
  strip (_regex_clean substitute text) = _regex_clean substitute text.
Proof. apply strip_strip. Qed.

(** X26.  [clean_one_chapter] does not fail on the language model:
    whatever [completion] does (a reply, no content, an exception) the
    call returns [output_dir/cleaned/chapter_NNN.txt], which then holds a
    text without white space at its ends; after an exception of the model
    that text is the one of the regex fallback, and for a references
    chapter under [skip_references] it is empty; the checkpoint and the
    log are untouched and every other existing file is unchanged. *)
Theorem clean_one_chapter_returns (completion : Completion) (system_prompt : string)
    (substitute : string -> string) (chapter : Chapter) (output_dir : Path)
    (config : CleanConfig) (s : State) :
  let out_path := output_dir // "cleaned" // chapter_name (index chapter) ".txt" in
  exists (t : string) (s' : State),
    clean_one_chapter completion system_prompt substitute chapter output_dir config s
    = (Ok out_path, s') /\
    disk s' out_path = Some (Text t) /\
    strip t = t /\
    (skip_references config && _is_references_section (title chapter) = true -> t = "") /\
    (skip_references config && _is_references_section (title chapter) = false ->
     llm_backend config <> "none" ->
     forall e : exn,
       completion (llm_model config) system_prompt (to_markdown chapter) = Failed e ->
       t = _regex_clean substitute (to_markdown chapter)) /\
    ckpt s' = ckpt s /\ log s' = log s /\
    forall (q : Path) (x : Content),
      disk s q = Some x -> q <> out_path -> disk s' q = Some x.
Proof.
  intros out_path. unfold clean_one_chapter. cbv zeta. fold out_path.
  destruct (skip_references config && _is_references_section (title chapter)) eqn:Href.
  - exists "". eexists. cbv [bind update_disk ret]. cbn [disk ckpt log].
    split; [reflexivity |]. cbn [disk ckpt log].
    split; [unfold write; rewrite decide_True by reflexivity; reflexivity |].
    split; [reflexivity |]. split; [reflexivity |]. split; [discriminate |].
    split; [reflexivity |]. split; [reflexivity |].
    intros q x Hq Hne. cbn [disk]. unfold write. rewrite decide_False by exact Hne.
    apply chunk_files.mkdir_parents_kept, Hq.
  - eexists _, _. cbv [bind update_disk ret]. cbn [disk ckpt log].
    split; [reflexivity |]. cbn [disk ckpt log].
    split; [unfold write; rewrite decide_True by reflexivity; reflexivity |].
    split; [apply strip_strip |]. split; [discriminate |].
    split.
    { intros _ Hllm e He. rewrite bool_decide_eq_false_2 by exact Hllm. cbn [negb].
      unfold _llm_clean. rewrite He. apply regex_clean_stripped. }
    split; [reflexivity |]. split; [reflexivity |].
    intros q x Hq Hne. cbn [disk]. unfold write. rewrite decide_False by exact Hne.
    apply chunk_files.mkdir_parents_kept, Hq.
Qed.

(** X27.  A references chapter is silent from end to end.  Under
    [skip_references], for a chapter whose title names the references,
    [clean_one_chapter] followed by [chunk_one_chapter] on the path it
    returned gives a chunk file without chunks, whatever the language
    model and the sentence splitter are. *)
Theorem references_chapter_has_no_chunks (completion : Completion)
    (system_prompt : string) (substitute : string -> string) (chapter : Chapter)
    (output_dir : Path) (config : CleanConfig) (nlp : Nlp)
    (decode : Content -> result string) (max_chars : Z) (s : State) :
  skip_references config = true ->
  _is_references_section (title chapter) = true ->
  exists (cleaned_path chunk_path : Path) (s1 s2 : State),
    clean_one_chapter completion system_prompt substitute chapter output_dir config s
    = (Ok cleaned_path, s1) /\
    chunk_one_chapter (Ok nlp) decode max_chars (index chapter) cleaned_path output_dir
      (title chapter) s1
    = (Ok chunk_path, s2) /\
    from_json chunk_path s2
    = (Ok {| chunks_chapter_index := index chapter; chapter_title := title chapter;
             chunks := [] |}, s2).
Proof.
  intros Hskip Href. unfold clean_one_chapter. rewrite Hskip, Href. cbn [andb].
  eexists _, _, _, _. cbv [bind update_disk ret]. cbn [disk ckpt log].
  split; [reflexivity |].
  unfold chunk_one_chapter, ChapterChunks_save.
  cbv [bind update_disk lift get_disk ret read_text]. cbn [disk ckpt log].
  rewrite (chunk_files.mkdir_parents_kept _ _ _ (Text ""))
    by (unfold write; rewrite decide_True by reflexivity; reflexivity).
  change (_chunk_text "" (index chapter) max_chars nlp) with (Ok (@nil ChunkMeta)).
  split; [reflexivity |].
  unfold from_json. cbv [bind get_disk]. cbn [disk]. unfold write at 1.
  rewrite decide_True by reflexivity. reflexivity.
Qed.

Definition references_chapter : Chapter :=
  {| index := 7; title := "  References and Notes ";
     sections := [ {| type := "body"; content := "[1] A. Author, A Paper, 1999.";
                      level := 0; page := 40 |} ];
     start_page := 40; end_page := 41 |}.

Lemma references_chapter_has_no_chunks_witness :
  exists (cleaned_path chunk_path : Path) (s1 s2 : State),
    clean_one_chapter (fun _ _ _ => Failed (Exception "APIError" "no key")) "" id
      references_chapter ["out"]
      {| llm_model := "gpt-4o-mini"; llm_backend := "litellm"; skip_references := true |}
      chunk_files.cleaned_state
    = (Ok cleaned_path, s1) /\
    chunk_one_chapter (Ok chunk_facts.stop_nlp) (fun _ => Ok "") 400 (index references_chapter)
      cleaned_path ["out"] (title references_chapter) s1
    = (Ok chunk_path, s2) /\
    from_json chunk_path s2
    = (Ok {| chunks_chapter_index := index references_chapter;
             chapter_title := title references_chapter; chunks := [] |}, s2).
Proof.
  apply (references_chapter_has_no_chunks (fun _ _ _ => Failed (Exception "APIError" "no key"))
           "" id references_chapter ["out"]
           {| llm_model := "gpt-4o-mini"; llm_backend := "litellm"; skip_references := true |}
           chunk_facts.stop_nlp (fun _ => Ok "") 400 chunk_files.cleaned_state);
    reflexivity.
Defined.

End cleaning.

(** ** synth/stitcher.py: the chapter markers of the M4B *)
Module markers.
Import pytext stitcher_tools names strip_facts.

(** The sum of a list of durations. *)
Definition total_ms (durations : list Z) : Z := foldr Z.add 0%Z durations.

Lemma durations_length (duration_ms : Content -> result Z) (d : FS) (mp3_paths : list Path) :
  forall durations,
    durations_of duration_ms d mp3_paths = Ok durations ->
    length durations = length mp3_paths.
Proof.
  induction mp3_paths as [| p rest IH]; intros durations H.
  - injection H as <-. reflexivity.
  - cbn [durations_of] in H. destruct (d p) as [c |]; [| discriminate].
    destruct (duration_ms c) as [dur | e]; [| discriminate].
    destruct (durations_of duration_ms d rest) as [ds | e]; [| discriminate].
    injection H as <-. cbn [length]. f_equal. apply IH. reflexivity.
Qed.

(** The loop over the durations, started at position [k] with [start_ms]
    at [start]. *)
Lemma metadata_loop (titles : list string) (durations : list Z) :
  forall (k : nat) (written : string) (start : Z),
    foldl (metadata_step titles) (written, start)
          (imap (fun i x => (Z.of_nat (k + i), x)) durations)
    = (written
       +:+ foldr append ""
             (imap (fun j dur =>
                      chapter_block (start + total_ms (take j durations))
                                    (start + total_ms (take (S j) durations))
                                    (marker_title titles (Z.of_nat (k + j))))
                   durations),
       (start + total_ms durations)%Z).
Proof.
  induction durations as [| dur rest IH]; intros k written start.
  - cbn. rewrite append_nil_r, Z.add_0_r. reflexivity.
  - rewrite !imap_cons. cbn [foldl metadata_step].
    rewrite (imap_ext _ (fun i x => (Z.of_nat (S k + i), x)))
      by (intros i x _; cbn; do 2 f_equal; lia).
    rewrite IH. cbn [foldr take total_ms]. rewrite Nat.add_0_r, !Z.add_0_r.
    rewrite append_assoc. f_equal; [| unfold total_ms; cbn [foldr]; lia].
    do 3 f_equal. apply imap_ext. intros j x _. unfold compose, total_ms.
    cbn [take foldr]. f_equal; [lia | lia | do 2 f_equal; lia].
Qed.

(** X28.  The chapter markers are contiguous.  When every MP3 can be
    decoded, [_write_chapter_metadata] writes the header and one block per
    file; the block at position [j] starts at the sum of the durations
    before [j], ends at that sum plus the duration of [j], which is where
    the next block starts, and carries [titles[j]], or ["Chapter j+1"]
    when the list of titles is too short. *)
Theorem chapter_markers_contiguous (duration_ms : Content -> result Z)
    (mp3_paths : list Path) (titles : list string) (metadata_path : Path)
    (durations : list Z) (s : State) :
  durations_of duration_ms (disk s) mp3_paths = Ok durations ->
  exists s' : State,
    _write_chapter_metadata duration_ms mp3_paths titles metadata_path s = (Ok tt, s') /\
    length durations = length mp3_paths /\
    disk s' metadata_path
    = Some (Text (";FFMETADATA1" +:+ nl
                  +:+ foldr append ""
                        (imap (fun j _ =>
                                 chapter_block (total_ms (take j durations))
                                               (total_ms (take (S j) durations))
                                               (marker_title titles (Z.of_nat j)))
                              durations))) /\
    ckpt s' = ckpt s /\ log s' = log s.
Proof.
  intros Hdur. unfold _write_chapter_metadata.
  cbv [bind get_disk lift]. rewrite Hdur. unfold enumerate.
  pose proof (metadata_loop titles durations 0 (";FFMETADATA1" +:+ nl) 0) as Hloop.
  cbn [Nat.add] in Hloop. rewrite Hloop.
  eexists. cbv [update_disk]. split; [reflexivity |].
  split; [eapply durations_length, Hdur |]. cbn [disk ckpt log].
  split; [| split; reflexivity].
  unfold write. rewrite decide_True by reflexivity. reflexivity.
Qed.

Definition two_files : FS :=
  write ["a.mp3"] (Raw [x01; x02; x03])
    (write ["b.mp3"] (Raw [x01]) empty_fs).

Definition byte_count (c : Content) : result Z :=
  match c with
  | Raw bytes => Ok (1000 * Z.of_nat (length bytes))%Z
  | _ => Raised (Exception "CouldntDecodeError" "not audio")
  end.

Lemma chapter_markers_contiguous_witness :
  exists s' : State,
    _write_chapter_metadata byte_count [["a.mp3"]; ["b.mp3"]] ["Opening"] ["chapters.txt"]
      {| ckpt := fresh ["checkpoint.json"] ["book.pdf"] "00"; disk := two_files; log := [] |}
    = (Ok tt, s') /\
    length [3000%Z; 1000%Z] = length [["a.mp3"]; ["b.mp3"]] /\
    disk s' ["chapters.txt"]
    = Some (Text (";FFMETADATA1" +:+ nl
                  +:+ foldr append ""
                        (imap (fun j _ =>
                                 chapter_block (total_ms (take j [3000%Z; 1000%Z]))
                                               (total_ms (take (S j) [3000%Z; 1000%Z]))
                                               (marker_title ["Opening"] (Z.of_nat j)))
                              [3000%Z; 1000%Z]))) /\
    ckpt s' = fresh ["checkpoint.json"] ["book.pdf"] "00" /\ log s' = [].
Proof.
  apply (chapter_markers_contiguous byte_count [["a.mp3"]; ["b.mp3"]] ["Opening"]
           ["chapters.txt"] [3000%Z; 1000%Z]
           {| ckpt := fresh ["checkpoint.json"] ["book.pdf"] "00"; disk := two_files;
              log := [] |}).
  reflexivity.
Defined.

End markers.

(** ** synth/stitcher.py: trimming the silence at the end *)
Module trimming.
Import stitcher_tools.

Section audio.

Variable Audio : Type.
Variable alen : Audio -> Z.
Variable aslice : Audio -> Z -> Z -> Audio.
Variable above : Audio -> Z -> bool.

(** The windows of 10 ms between [end_] and the end of the audio, [k] of
    them, are all at or below the threshold. *)
Definition silent_tail (audio : Audio) (threshold end_ : Z) (k : Z) : Prop :=
  forall j : Z,
    (0 <= j < k)%Z ->
    above (aslice audio (end_ + 10 * j) (end_ + 10 * (j + 1))) threshold = false.

(** The loop, started at [from] with [k0] silent windows behind it. *)
Lemma trim_loop_stops (audio : Audio) (threshold : Z) (fuel : nat) :
  forall from k0 : Z,
    (0 < from)%Z -> (from <= 10 * Z.of_nat fuel)%Z -> (0 <= k0)%Z ->
    silent_tail audio threshold from k0 ->
    exists (end_ k : Z),
      trim_loop Audio aslice above fuel audio threshold from = Some end_ /\
      (0 < end_ <= from)%Z /\
      (k0 <= k)%Z /\ (from + 10 * k0 = end_ + 10 * k)%Z /\
      silent_tail audio threshold end_ k /\
      ((end_ <= 10)%Z \/ above (aslice audio (end_ - 10) end_) threshold = true).
Proof.
  induction fuel as [| fuel IH]; intros from k0 Hpos Hfuel Hk0 Hsilent; [lia |].
  cbn [trim_loop]. destruct (10 <? from)%Z eqn:Hfar.
  - apply Z.ltb_lt in Hfar.
    destruct (above (aslice audio (from - 10) from) threshold) eqn:Hloud.
    + exists from, k0. split; [reflexivity |]. split; [lia |]. split; [lia |].
      split; [lia |]. split; [exact Hsilent | right; exact Hloud].
    + destruct (IH (from - 10)%Z (k0 + 1)%Z) as
        (end_ & k & Hrun & Hrange & Hk & Hsum & Htail & Hstop); [lia | lia | lia | |].
      { intros j Hj. destruct (decide (j = 0%Z)) as [-> | Hne].
        - replace (from - 10 + 10 * 0)%Z with (from - 10)%Z by lia.
          replace (from - 10 + 10 * (0 + 1))%Z with from by lia. exact Hloud.
        - replace (from - 10 + 10 * j)%Z with (from + 10 * (j - 1))%Z by lia.
          replace (from - 10 + 10 * (j + 1))%Z with (from + 10 * (j - 1 + 1))%Z by lia.
          apply Hsilent. lia. }
      exists end_, k. split; [exact Hrun |]. split; [lia |]. split; [lia |].
      split; [lia |]. split; [exact Htail | exact Hstop].
  - apply Z.ltb_ge in Hfar. exists from, k0. split; [reflexivity |].
    split; [lia |]. split; [lia |]. split; [lia |]. split; [exact Hsilent | left; lia].
Qed.

(** X29.  Trimming never empties a segment and stops where it should.
    For audio that is not empty, with one turn of the loop allowed per
    10 ms, [_trim_trailing_silence] returns [audio[:end]] with
    [0 < end <= len(audio)]; what is cut is a whole number of windows
    of 10 ms, each at or below the threshold; and the loop stopped
    because the window before [end] is above the threshold or because at
    most 10 ms are left.  So at least 1 ms of an all silent segment
    stays, and the branch that returns the whole audio for [end <= 0] is
    never taken. *)
Theorem trim_keeps_a_prefix (audio : Audio) (threshold : Z) (fuel : nat) :
  (0 < alen audio)%Z ->
  (alen audio <= 10 * Z.of_nat fuel)%Z ->
  exists (end_ k : Z),
    _trim_trailing_silence Audio alen aslice above fuel audio threshold
    = Some (aslice audio 0 end_) /\
    (0 < end_ <= alen audio)%Z /\
    (0 <= k)%Z /\ (alen audio = end_ + 10 * k)%Z /\
    (forall j : Z,
       (0 <= j < k)%Z ->
       above (aslice audio (end_ + 10 * j) (end_ + 10 * (j + 1))) threshold = false) /\
    ((end_ <= 10)%Z \/ above (aslice audio (end_ - 10) end_) threshold = true).
Proof.
  intros Hpos Hfuel.
  destruct (trim_loop_stops audio threshold fuel (alen audio) 0) as
    (end_ & k & Hrun & Hrange & Hk & Hsum & Htail & Hstop); [lia | lia | lia | |].
  { intros j Hj. lia. }
  exists end_, k. unfold _trim_trailing_silence.
  rewrite (proj2 (Z.eqb_neq (alen audio) 0)) by lia. rewrite Hrun.
  rewrite (proj2 (Z.ltb_lt 0 end_)) by lia.
  split; [reflexivity |]. split; [lia |]. split; [lia |]. split; [lia |].
  split; [exact Htail | exact Hstop].
Qed.

End audio.

(** A segment as the list of its levels, one per millisecond. *)
Definition levels_slice (a : list Z) (i j : Z) : list Z :=
  take (Z.to_nat (j - i)) (drop (Z.to_nat i) a).

Definition levels_above (a : list Z) (threshold : Z) : bool :=
  existsb (fun x => (threshold <? x)%Z) a.

Definition quiet_end : list Z :=
  replicate 15 (-20)%Z ++ replicate 20 (-60)%Z.

Lemma trim_keeps_a_prefix_witness :
  exists (end_ k : Z),
    _trim_trailing_silence (list Z) (fun a => Z.of_nat (length a)) levels_slice levels_above
      4 quiet_end (-45)
    = Some (levels_slice quiet_end 0 end_) /\
    (0 < end_ <= Z.of_nat (length quiet_end))%Z /\
    (0 <= k)%Z /\ (Z.of_nat (length quiet_end) = end_ + 10 * k)%Z /\
    (forall j : Z,
       (0 <= j < k)%Z ->
       levels_above (levels_slice quiet_end (end_ + 10 * j) (end_ + 10 * (j + 1))) (-45)
       = false) /\
    ((end_ <= 10)%Z \/ levels_above (levels_slice quiet_end (end_ - 10) end_) (-45) = true).
Proof.
  apply (trim_keeps_a_prefix (list Z) (fun a => Z.of_nat (length a)) levels_slice
           levels_above quiet_end (-45) 4); cbn; lia.
Defined.

End trimming.

(** ** webapp.py: showing the settings and posting them back *)
Module settings.
Import pytext llm webapp names strip_facts.

(** The body a client posts when it sends back what [/settings] showed. *)
Definition post_back (shown : Shown) : Body :=
  {| body_llm_model := Some (shown_llm_model shown);
     body_llm_backend := Some (shown_llm_backend shown);
     body_tts_engine := Some (shown_tts_engine shown);
     body_voice := Some (shown_voice shown);
     body_api_keys := Some (shown_api_keys shown) |}.

(** What is left of a key after the round trip. *)
Definition survives (key : string) : string :=
  if str_truthy key && (len key <=? 8)%Z then "***" else key.

Lemma contains_unfold (sub s : string) :
  contains sub s
  = String.prefix sub s || match s with "" => false | String _ s' => contains sub s' end.
Proof. destruct s; reflexivity. Qed.

Lemma contains_middle (sub a b : string) : contains sub (a +:+ sub +:+ b) = true.
Proof.
  induction a as [| c a IH].
  - change ("" +:+ sub +:+ b) with (sub +:+ b).
    rewrite contains_unfold, prefix_app. reflexivity.
  - rewrite append_cons, contains_unfold, IH. apply orb_true_r.
Qed.

Lemma set_if_truthy_same (v : string) : set_if_truthy (Some v) v = v.
Proof. unfold set_if_truthy. destruct (str_truthy v); reflexivity. Qed.

(** A masked key posted back: it replaces the key only when it is the
    three stars. *)
Lemma masked_key_posted (key : string) :
  (if str_truthy (mask key) && negb (contains "..." (mask key)) then mask key else key)
  = survives key.
Proof.
  unfold mask, survives. destruct (str_truthy key) eqn:Hkey; cbn [negb andb].
  - destruct (len key <=? 8)%Z; [reflexivity |].
    rewrite contains_middle. cbn [negb]. rewrite andb_false_r. reflexivity.
  - reflexivity.
Qed.

(** X30.  Posting back the settings that were shown.  When a client
    sends back what [get_settings] returned, [update_settings] leaves the
    model, the backend, the engine and the voice as they were, and keeps
    every API key that is empty or longer than 8 characters; but a key of
    1 to 8 characters, shown as three stars, is replaced by the three
    stars. *)
Theorem settings_round_trip (cfg : WebConfig) (env : gmap string string) :
  let cfg' := fst (update_settings (post_back (get_settings cfg)) cfg env) in
  cfg_clean cfg' = cfg_clean cfg /\
  cfg_synth cfg' = cfg_synth cfg /\
  openai (cfg_api_keys cfg') = survives (openai (cfg_api_keys cfg)) /\
  anthropic (cfg_api_keys cfg') = survives (anthropic (cfg_api_keys cfg)) /\
  elevenlabs (cfg_api_keys cfg') = survives (elevenlabs (cfg_api_keys cfg)).
Proof.
  destruct cfg as [[model backend skip] [engine v format workers] [k1 k2 k3]].
  cbv zeta. unfold update_settings, post_back, get_settings.
  cbn [fst cfg_clean cfg_synth cfg_api_keys body_llm_model body_llm_backend
       body_tts_engine body_voice body_api_keys shown_llm_model shown_llm_backend
       shown_tts_engine shown_voice shown_api_keys llm_model llm_backend skip_references
       tts_engine voice output_format parallel_workers openai anthropic elevenlabs
       default].
  rewrite !set_if_truthy_same. split; [reflexivity |]. split; [reflexivity |].
  unfold set_api_key, id.
  rewrite lookup_insert_eq.
  rewrite lookup_insert_ne, lookup_insert_eq by discriminate.
  rewrite !lookup_insert_ne, lookup_insert_eq by discriminate.
  rewrite !masked_key_posted. auto.
Qed.

End settings.
